(** * CRT simulation: the physics engine of [Simul.py] and [simul_prueba.py]

    The engine computes on Python numbers.  The embedding is written once over
    an interface [Num] of the arithmetic the source uses and is read at two
    instances:

    - [float_num]: IEEE-754 binary64 ([PrimFloat]), the data type of the
      running program; everything evaluates there.
    - [real_num]: the real numbers, the arithmetic the formulas of the
      specification are written in.

    Theorems that only follow the control structure of the code are proved for
    every instance; theorems that need the laws of arithmetic are proved at
    the real instance, and where binary64 behaves differently the binary64
    statement is proved beside them, from the rounding specification of the
    Standard Library ([SpecFloat]).

    On top of the engine stand the widgets ([Slider], [Button]), the event
    loop ([handle_events], [draw_controls], [run]) of both programs
    ([Window], [PruebaWindow]), the persistence loop of [draw_screen_view],
    and the deflection model of [simulacionChatGPT.py]. *)

From Stdlib Require Import ZArith List Bool Lia Reals Lra Floats Uint63.
From Stdlib Require String.
Import ListNotations.

Set Warnings "-inexact-float,-abstract-large-number".

(** ** Arithmetic of the source *)

(** The operations and the decimal literals that occur in the engine.
    Comparisons are boolean, as the [if] of the source needs them. *)
Class Num (F : Type) : Type := {
  of_Z : Z -> F;                     (* integer literals and int values *)
  add : F -> F -> F;
  sub : F -> F -> F;
  mul : F -> F -> F;
  div : F -> F -> F;
  opp : F -> F;
  abs : F -> F;                      (* abs(...) *)
  sqrt : F -> F;                     (* math.sqrt *)
  ltb : F -> F -> bool;
  leb : F -> F -> bool;
  lit_1_602e_19 : F;                 (* 1.602e-19 *)
  lit_9_109e_31 : F;                 (* 9.109e-31 *)
  lit_0_20 : F;                      (* 0.20 *)
  lit_0_02 : F;                      (* 0.02 *)
  lit_0_05 : F;                      (* 0.05 *)
  lit_0_15 : F;                      (* 0.15 *)
  lit_0_03 : F;                      (* 0.03 *)
  lit_0_001 : F;                     (* 0.001 *)
  lit_2e_9 : F;                      (* 2e-9 *)
  lit_0_1 : F                        (* 0.1 *)
}.

(** [math.sin] and [math.pi], used by the waveform source only. *)
Class Trig (F : Type) : Type := {
  sin : F -> F;
  pi : F
}.

Declare Scope num_scope.
Delimit Scope num_scope with num.
Infix "+" := add : num_scope.
Infix "-" := sub : num_scope.
Infix "*" := mul : num_scope.
Infix "/" := div : num_scope.
Notation "- a" := (opp a) : num_scope.
Infix "<?" := ltb : num_scope.
Infix "<=?" := leb : num_scope.

(** Python's [max(a, b)] and [min(a, b)] on two arguments: the first argument
    is kept unless the second compares strictly beyond it. *)
Definition py_max {F} `{Num F} (a b : F) : F := if (a <? b)%num then b else a.
Definition py_min {F} `{Num F} (a b : F) : F := if (b <? a)%num then b else a.

(** *** binary64 *)

(** [int] to [float]: exact below 2^53. *)
Definition float_of_Z (n : Z) : float :=
  match n with
  | Z0 => 0%float
  | Zpos _ => PrimFloat.of_uint63 (Uint63.of_Z n)
  | Zneg _ => (- PrimFloat.of_uint63 (Uint63.of_Z (- n)))%float
  end.

#[export] Instance float_num : Num float := {
  of_Z := float_of_Z;
  add := PrimFloat.add;
  sub := PrimFloat.sub;
  mul := PrimFloat.mul;
  div := PrimFloat.div;
  opp := PrimFloat.opp;
  abs := PrimFloat.abs;
  sqrt := PrimFloat.sqrt;
  ltb := PrimFloat.ltb;
  leb := PrimFloat.leb;
  lit_1_602e_19 := 1.602e-19%float;
  lit_9_109e_31 := 9.109e-31%float;
  lit_0_20 := 0.20%float;
  lit_0_02 := 0.02%float;
  lit_0_05 := 0.05%float;
  lit_0_15 := 0.15%float;
  lit_0_03 := 0.03%float;
  lit_0_001 := 0.001%float;
  lit_2e_9 := 2e-9%float;
  lit_0_1 := 0.1%float
}.

(** [math.sin] is the platform's; [math.pi] is the binary64 nearest to pi. *)
Definition float_trig (libm_sin : float -> float) : Trig float := {|
  sin := libm_sin;
  pi := 0x1.921fb54442d18p+1%float
|}.

(** *** Real numbers *)

Definition Rltb (a b : R) : bool := if Rlt_dec a b then true else false.
Definition Rleb (a b : R) : bool := if Rle_dec a b then true else false.

#[export] Instance real_num : Num R := {
  of_Z := IZR;
  add := Rplus;
  sub := Rminus;
  mul := Rmult;
  div := Rdiv;
  opp := Ropp;
  abs := Rabs;
  sqrt := R_sqrt.sqrt;
  ltb := Rltb;
  leb := Rleb;
  lit_1_602e_19 := 1.602e-19%R;
  lit_9_109e_31 := 9.109e-31%R;
  lit_0_20 := 0.20%R;
  lit_0_02 := 0.02%R;
  lit_0_05 := 0.05%R;
  lit_0_15 := 0.15%R;
  lit_0_03 := 0.03%R;
  lit_0_001 := 0.001%R;
  lit_2e_9 := 2e-9%R;
  lit_0_1 := 0.1%R
}.

#[export] Instance real_trig : Trig R := {|
  sin := Rtrigo_def.sin;
  pi := PI
|}.

(** ** [collections.deque(maxlen=...)] *)

(** [append] adds on the right and, when the length then exceeds [maxlen],
    drops one element on the left. *)
Definition deque_append {A : Type} (maxlen : nat) (d : list A) (a : A) : list A :=
  let d' := d ++ [a] in
  if (maxlen <? length d')%nat then tl d' else d'.

(** ** Constants and data shared by the two variants *)

Section Engine.
Context {F : Type} {num : Num F}.
Local Open Scope num_scope.

Definition SCREEN_SIZE : F := lit_0_20.
Definition PLATE_SEPARATION : F := lit_0_02.
Definition PLATE_LENGTH : F := lit_0_05.
Definition DISTANCE_TO_SCREEN : F := lit_0_15.
Definition DISTANCE_BETWEEN_PLATES : F := lit_0_03.
Definition DISTANCE_GUN_TO_PLATES : F := lit_0_05.
Definition ELECTRON_MASS : F := lit_9_109e_31.

(** The attributes of [class Electron]. *)
Record Electron : Type := mkElectron {
  x : F;
  y : F;
  z : F;
  vx : F;
  vy : F;
  vz : F;
  path : list (F * F * F);           (* deque(maxlen=1000) *)
  initial_acceleration_done : bool
}.

Definition reset : Electron := {|
  x := of_Z 0;
  y := of_Z 0;
  z := lit_0_001;
  vx := of_Z 0;
  vy := of_Z 0;
  vz := of_Z 0;
  path := [];
  initial_acceleration_done := false
|}.

Definition screen_distance : F :=
  DISTANCE_GUN_TO_PLATES + PLATE_LENGTH + DISTANCE_BETWEEN_PLATES
  + PLATE_LENGTH + DISTANCE_TO_SCREEN.

Definition has_hit_screen (e : Electron) : bool :=
  screen_distance <=? z e.

Definition get_screen_position (e : Electron) : F * F := (x e, y e).

Definition is_within_screen_bounds (e : Electron) : bool :=
  (abs (x e) <=? SCREEN_SIZE / of_Z 2) && (abs (y e) <=? SCREEN_SIZE / of_Z 2).

(** The plate regions along [z], as [Electron.update] computes them. *)
Definition vertical_plate_start : F := DISTANCE_GUN_TO_PLATES.
Definition vertical_plate_end : F := vertical_plate_start + PLATE_LENGTH.
Definition horizontal_plate_start : F := vertical_plate_end + DISTANCE_BETWEEN_PLATES.
Definition horizontal_plate_end : F := horizontal_plate_start + PLATE_LENGTH.

(** The two guards of [Electron.update], the same in both variants. *)
Definition in_vertical_plates (e : Electron) : bool :=
  (vertical_plate_start <=? z e) && (z e <=? vertical_plate_end)
  && (abs (y e) <? PLATE_SEPARATION / of_Z 2).

Definition in_horizontal_plates (e : Electron) : bool :=
  (horizontal_plate_start <=? z e) && (z e <=? horizontal_plate_end)
  && (abs (x e) <? PLATE_SEPARATION / of_Z 2).

(** Attribute assignments [self.a = v]. *)
Definition set_vz_done (v : F) (e : Electron) : Electron :=
  {| x := x e; y := y e; z := z e; vx := vx e; vy := vy e; vz := v;
     path := path e; initial_acceleration_done := true |}.

Definition set_vy (v : F) (e : Electron) : Electron :=
  {| x := x e; y := y e; z := z e; vx := vx e; vy := v; vz := vz e;
     path := path e; initial_acceleration_done := initial_acceleration_done e |}.

Definition set_vx (v : F) (e : Electron) : Electron :=
  {| x := x e; y := y e; z := z e; vx := v; vy := vy e; vz := vz e;
     path := path e; initial_acceleration_done := initial_acceleration_done e |}.

Definition set_x (v : F) (e : Electron) : Electron :=
  {| x := v; y := y e; z := z e; vx := vx e; vy := vy e; vz := vz e;
     path := path e; initial_acceleration_done := initial_acceleration_done e |}.

Definition set_y (v : F) (e : Electron) : Electron :=
  {| x := x e; y := v; z := z e; vx := vx e; vy := vy e; vz := vz e;
     path := path e; initial_acceleration_done := initial_acceleration_done e |}.

Definition set_z (v : F) (e : Electron) : Electron :=
  {| x := x e; y := y e; z := v; vx := vx e; vy := vy e; vz := vz e;
     path := path e; initial_acceleration_done := initial_acceleration_done e |}.

(** [self.path.append(p)] *)
Definition path_append (p : F * F * F) (e : Electron) : Electron :=
  {| x := x e; y := y e; z := z e; vx := vx e; vy := vy e; vz := vz e;
     path := deque_append 1000 (path e) p;
     initial_acceleration_done := initial_acceleration_done e |}.

(** The last block of [Electron.update], the same in both variants: the
    position moves by the current velocities, then the point is recorded. *)
Definition move (dt : F) (e : Electron) : Electron :=
  let e := set_x (x e + vx e * dt) e in
  let e := set_y (y e + vy e * dt) e in
  let e := set_z (z e + vz e * dt) e in
  path_append (x e, y e, z e) e.

(** *** The simulation object *)

Inductive Mode : Type := manual | lissajous.

(** The [.val] of each slider the engine reads. *)
Record Sliders : Type := mkSliders {
  acceleration_voltage : F;
  persistence : F;
  vertical_voltage : F;
  horizontal_voltage : F;
  vert_amplitude : F;
  vert_frequency : F;
  vert_phase : F;
  horiz_amplitude : F;
  horiz_frequency : F;
  horiz_phase : F
}.

(** An entry of [screen_traces]: the dict with keys x, y, time, brightness. *)
Record Trace : Type := mkTrace {
  trace_x : F;
  trace_y : F;
  trace_time : F;
  trace_brightness : F
}.

(** The attributes of [class CRTSimulation] the engine reads or writes. *)
Record CRTSimulation : Type := mkCRTSimulation {
  mode : Mode;
  time : F;
  electron : Electron;
  screen_traces : list Trace;        (* deque(maxlen=5000) *)
  simulation_speed : Z;
  sliders : Sliders
}.

Definition set_electron (e : Electron) (s : CRTSimulation) : CRTSimulation :=
  {| mode := mode s; time := time s; electron := e;
     screen_traces := screen_traces s;
     simulation_speed := simulation_speed s; sliders := sliders s |}.

Definition set_screen_traces (t : list Trace) (s : CRTSimulation) : CRTSimulation :=
  {| mode := mode s; time := time s; electron := electron s;
     screen_traces := t;
     simulation_speed := simulation_speed s; sliders := sliders s |}.

Definition set_mode (m : Mode) (s : CRTSimulation) : CRTSimulation :=
  {| mode := m; time := time s; electron := electron s;
     screen_traces := screen_traces s;
     simulation_speed := simulation_speed s; sliders := sliders s |}.

Definition set_time (t : F) (s : CRTSimulation) : CRTSimulation :=
  {| mode := mode s; time := t; electron := electron s;
     screen_traces := screen_traces s;
     simulation_speed := simulation_speed s; sliders := sliders s |}.

(** [self.screen_traces.append(t)] on [deque(maxlen=5000)]. *)
Definition screen_traces_append (d : list Trace) (t : Trace) : list Trace :=
  deque_append 5000 d t.

(** The sliders as [setup_controls] creates them. *)
Definition initial_sliders : Sliders := {|
  acceleration_voltage := of_Z 2000;
  persistence := of_Z 500;
  vertical_voltage := of_Z 0;
  horizontal_voltage := of_Z 0;
  vert_amplitude := of_Z 150;
  vert_frequency := of_Z 1;
  vert_phase := of_Z 0;
  horiz_amplitude := of_Z 150;
  horiz_frequency := of_Z 3 / of_Z 2;   (* 1.5 *)
  horiz_phase := of_Z 90
|}.

(** The object [CRTSimulation.__init__] builds. *)
Definition init : CRTSimulation := {|
  mode := manual;
  time := of_Z 0;
  electron := reset;
  screen_traces := [];
  simulation_speed := 1;
  sliders := initial_sliders
|}.

End Engine.

Arguments Electron F : clear implicits.
Arguments Sliders F : clear implicits.
Arguments Trace F : clear implicits.
Arguments CRTSimulation F : clear implicits.

(** ** [Simul.py] *)

Module Simul.
Section Defs.
Context {F : Type} {num : Num F} {trig : Trig F}.
Local Open Scope num_scope.

Definition ELECTRON_CHARGE : F := lit_1_602e_19.

(** The local variables [electric_field_y], [force_y], [acceleration_y] of
    [Electron.update], and the same for the horizontal plates. *)
Definition acceleration_y (vertical_voltage : F) : F :=
  let electric_field_y := vertical_voltage / PLATE_SEPARATION in
  let force_y := - ELECTRON_CHARGE * electric_field_y in
  force_y / ELECTRON_MASS.

Definition acceleration_x (horizontal_voltage : F) : F :=
  let electric_field_x := horizontal_voltage / PLATE_SEPARATION in
  let force_x := - ELECTRON_CHARGE * electric_field_x in
  force_x / ELECTRON_MASS.

(** [Electron.update], block by block as the source comments divide it:
    the one-time axial velocity, the field between the vertical plates, the
    field between the horizontal plates, the position. *)
Definition initial_acceleration (acceleration_voltage : F) (e : Electron F)
  : Electron F :=
  if negb (initial_acceleration_done e) && (of_Z 0 <? abs acceleration_voltage) then
    set_vz_done
      (sqrt (of_Z 2 * ELECTRON_CHARGE * abs acceleration_voltage / ELECTRON_MASS)) e
  else e.

Definition vertical_deflection (dt vertical_voltage : F) (e : Electron F)
  : Electron F :=
  if in_vertical_plates e then
    set_vy (vy e + acceleration_y vertical_voltage * dt) e
  else e.

Definition horizontal_deflection (dt horizontal_voltage : F) (e : Electron F)
  : Electron F :=
  if in_horizontal_plates e then
    set_vx (vx e + acceleration_x horizontal_voltage * dt) e
  else e.

Definition update (dt acceleration_voltage vertical_voltage horizontal_voltage : F)
  (e : Electron F) : Electron F :=
  let e := initial_acceleration acceleration_voltage e in
  let e := vertical_deflection dt vertical_voltage e in
  let e := horizontal_deflection dt horizontal_voltage e in
  move dt e.

(** [CRTSimulation.get_voltages]: (vertical, horizontal). *)
Definition get_voltages (s : CRTSimulation F) : F * F :=
  match mode s with
  | manual => (vertical_voltage (sliders s), horizontal_voltage (sliders s))
  | lissajous =>
      let t := time s / of_Z 1000 in
      let Ah := horiz_amplitude (sliders s) in
      let Av := vert_amplitude (sliders s) in
      let fh := horiz_frequency (sliders s) in
      let fv := vert_frequency (sliders s) in
      let delta :=
        (vert_phase (sliders s) - horiz_phase (sliders s)) * pi / of_Z 180 in
      let horiz_v := Ah * sin (of_Z 2 * pi * fh * t) in
      let vert_v := Av * sin (of_Z 2 * pi * fv * t + delta) in
      (vert_v, horiz_v)
  end.

(** One pass through the body of the [for _ in range(100)] loop of
    [update_physics]. *)
Definition substep (dt vertical_voltage horizontal_voltage : F)
  (s : CRTSimulation F) : CRTSimulation F :=
  let e := update dt (acceleration_voltage (sliders s))
             vertical_voltage horizontal_voltage (electron s) in
  if has_hit_screen e then
    let traces :=
      if is_within_screen_bounds e then
        let screen_pos := get_screen_position e in
        let brightness :=
          py_min (of_Z 1) (acceleration_voltage (sliders s) / of_Z 4000) in
        screen_traces_append (screen_traces s)
          {| trace_x := fst screen_pos; trace_y := snd screen_pos;
             trace_time := time s; trace_brightness := brightness |}
      else screen_traces s in
    set_electron reset (set_screen_traces traces s)
  else set_electron e s.

(** [CRTSimulation.update_physics]; [clock_get_time] is what
    [self.clock.get_time()] returns in this frame (milliseconds, an [int]). *)
Definition update_physics (clock_get_time : Z) (s : CRTSimulation F)
  : CRTSimulation F :=
  if (simulation_speed s =? 0)%Z then s
  else
    let s := set_time (time s + of_Z (clock_get_time * simulation_speed s)) s in
    let dt := lit_2e_9 in
    let '(vertical_voltage, horizontal_voltage) := get_voltages s in
    Nat.iter 100 (substep dt vertical_voltage horizontal_voltage) s.

(** One turn of the [while self.running] loop of [run] when no input event
    arrives: [handle_events] and [draw] then assign nothing the engine reads,
    so the turn is [update_physics] followed by the fixed 16 ms. *)
Definition frame (clock_get_time : Z) (s : CRTSimulation F) : CRTSimulation F :=
  let s := update_physics clock_get_time s in
  if (0 <? simulation_speed s)%Z then set_time (time s + of_Z 16) s else s.

(** [n] turns of the loop; [clock i] is the clock reading of turn [i]. *)
Fixpoint run_from (clock : nat -> Z) (i n : nat) (s : CRTSimulation F)
  : CRTSimulation F :=
  match n with
  | O => s
  | S n' => run_from clock (S i) n' (frame (clock i) s)
  end.

Definition run (clock : nat -> Z) (n : nat) (s : CRTSimulation F) : CRTSimulation F :=
  run_from clock 0 n s.

End Defs.
End Simul.

(** ** [simul_prueba.py] *)

Module Prueba.
Section Defs.
Context {F : Type} {num : Num F} {trig : Trig F}.
Local Open Scope num_scope.

Definition ELECTRON_CHARGE : F := - lit_1_602e_19.
Definition ELECTRON_CHARGE_MAG : F := lit_1_602e_19.

(** The local variables [Ey], [Fy], [ay] and [Ex], [Fx], [ax] of
    [Electron.update]. *)
Definition ay (vertical_voltage : F) : F :=
  let Ey := - vertical_voltage / PLATE_SEPARATION in
  let Fy := ELECTRON_CHARGE * Ey in
  Fy / ELECTRON_MASS.

Definition ax (horizontal_voltage : F) : F :=
  let Ex := - horizontal_voltage / PLATE_SEPARATION in
  let Fx := ELECTRON_CHARGE * Ex in
  Fx / ELECTRON_MASS.

(** [Electron.update], block by block. *)
Definition initial_acceleration (acceleration_voltage : F) (e : Electron F)
  : Electron F :=
  if negb (initial_acceleration_done e) && (of_Z 0 <? abs acceleration_voltage) then
    set_vz_done
      (sqrt (of_Z 2 * ELECTRON_CHARGE_MAG * abs acceleration_voltage / ELECTRON_MASS)) e
  else e.

Definition vertical_deflection (dt vertical_voltage : F) (e : Electron F)
  : Electron F :=
  if in_vertical_plates e then
    set_vy (vy e + ay vertical_voltage * dt) e
  else e.

Definition horizontal_deflection (dt horizontal_voltage : F) (e : Electron F)
  : Electron F :=
  if in_horizontal_plates e then
    set_vx (vx e + ax horizontal_voltage * dt) e
  else e.

Definition update (dt acceleration_voltage vertical_voltage horizontal_voltage : F)
  (e : Electron F) : Electron F :=
  let e := initial_acceleration acceleration_voltage e in
  let e := vertical_deflection dt vertical_voltage e in
  let e := horizontal_deflection dt horizontal_voltage e in
  move dt e.

(** [CRTSimulation.get_voltages]: (vertical, horizontal). *)
Definition get_voltages (s : CRTSimulation F) : F * F :=
  match mode s with
  | manual => (vertical_voltage (sliders s), horizontal_voltage (sliders s))
  | lissajous =>
      let t := time s / of_Z 1000 in
      let vert_v :=
        vert_amplitude (sliders s)
        * sin (of_Z 2 * pi * vert_frequency (sliders s) * t
               + vert_phase (sliders s) * pi / of_Z 180) in
      let horiz_v :=
        horiz_amplitude (sliders s)
        * sin (of_Z 2 * pi * horiz_frequency (sliders s) * t
               + horiz_phase (sliders s) * pi / of_Z 180) in
      (vert_v, horiz_v)
  end.

(** The body of the sub-step loop of [update_physics]. *)
Definition substep (dt acc_voltage vertical_voltage horizontal_voltage : F)
  (s : CRTSimulation F) : CRTSimulation F :=
  let e := update dt acc_voltage vertical_voltage horizontal_voltage (electron s) in
  if has_hit_screen e then
    let traces :=
      if is_within_screen_bounds e then
        let '(sx, sy) := get_screen_position e in
        let brightness := py_min (of_Z 1) (acc_voltage / of_Z 4000) in
        screen_traces_append (screen_traces s)
          {| trace_x := sx; trace_y := sy;
             trace_time := time s; trace_brightness := brightness |}
      else screen_traces s in
    set_electron reset (set_screen_traces traces s)
  else set_electron e s.

(** [CRTSimulation.update_physics]: no clock is read here. *)
Definition update_physics (s : CRTSimulation F) : CRTSimulation F :=
  if (simulation_speed s =? 0)%Z then s
  else
    let dt := lit_2e_9 in
    let '(vertical_voltage, horizontal_voltage) := get_voltages s in
    let acc_voltage := acceleration_voltage (sliders s) in
    Nat.iter 100 (substep dt acc_voltage vertical_voltage horizontal_voltage) s.

(** One turn of the loop of [run]. *)
Definition frame (s : CRTSimulation F) : CRTSimulation F :=
  let s := update_physics s in
  if (0 <? simulation_speed s)%Z then set_time (time s + of_Z 16) s else s.

Definition run (n : nat) (s : CRTSimulation F) : CRTSimulation F :=
  Nat.iter n frame s.

End Defs.
End Prueba.

(** ** Vocabulary of the properties *)

Section Vocabulary.
Context {F : Type} {num : Num F}.
Local Open Scope num_scope.

(** The value the one-time impulse gives [vz]. *)
Definition impulse_speed (acceleration_voltage : F) : F :=
  sqrt (of_Z 2 * Simul.ELECTRON_CHARGE * abs acceleration_voltage / ELECTRON_MASS).

(** Whether a call applies the impulse to an electron that has none yet. *)
Definition accelerates (acceleration_voltage : F) : bool :=
  of_Z 0 <? abs acceleration_voltage.

(** A call of [update]: (dt, acceleration, vertical, horizontal voltage). *)
Definition Call : Type := (F * F * F * F)%type.

Definition call_voltage (c : Call) : F := let '(_, Va, _, _) := c in Va.

Definition updates (calls : list Call) (e : Electron F) : Electron F :=
  fold_left (fun e c => let '(dt, Va, Vv, Vh) := c in Simul.update dt Va Vv Vh e)
    calls e.

(** The electron as the sub-step of [update_physics] has just moved it, and
    the trace entry the sub-step builds from it. *)
Definition moved (dt vertical_voltage horizontal_voltage : F) (s : CRTSimulation F)
  : Electron F :=
  Simul.update dt (acceleration_voltage (sliders s))
    vertical_voltage horizontal_voltage (electron s).

Definition hit_trace (s : CRTSimulation F) (e : Electron F) : Trace F :=
  {| trace_x := x e; trace_y := y e; trace_time := time s;
     trace_brightness :=
       py_min (of_Z 1) (acceleration_voltage (sliders s) / of_Z 4000) |}.

(** The electron states of a transit: [reset], then [update] calls with a
    time step that is not negative. *)
Inductive reachable : Electron F -> Prop :=
| reachable_reset : reachable reset
| reachable_update (dt Va Vv Vh : F) (e : Electron F) :
    reachable e -> (of_Z 0 <=? dt) = true ->
    reachable (Simul.update dt Va Vv Vh e).

(** Two simulation objects in manual mode that agree on everything the motion
    of the electron depends on. *)
Definition same_motion (s1 s2 : CRTSimulation F) : Prop :=
  mode s1 = manual /\ mode s2 = manual
  /\ electron s1 = electron s2
  /\ sliders s1 = sliders s2
  /\ simulation_speed s1 = simulation_speed s2.

(** A trace entry without its time stamp: the position and the brightness. *)
Definition untimed (t : Trace F) : F * F * F :=
  (trace_x t, trace_y t, trace_brightness t).

End Vocabulary.

(** An electron about to reach the screen plane with lateral position
    [(px, py)]. *)
Definition arriving (px py : float) : CRTSimulation float :=
  set_electron
    {| x := px; y := py; z := 0.33%float;
       vx := 0%float; vy := 0%float; vz := 0%float;
       path := []; initial_acceleration_done := true |}
    init.

(** Trace entries told apart by an integer time stamp, [0] to [n - 1]. *)
Definition numbered (n : nat) : list (Trace Z) :=
  map (fun i => {| trace_x := 0%Z; trace_y := 0%Z;
                   trace_time := Z.of_nat i; trace_brightness := 1%Z |})
      (seq 0 n).

(** *** The formulas of the specification, over the reals *)

(** The sinusoid [A sin(2 pi f t + phi)] with the phase given in degrees, as
    the sliders hold it. *)
Definition spec_sinusoid (A f phase_deg t : R) : R :=
  (A * Rtrigo_def.sin (2 * PI * f * t + phase_deg * PI / 180))%R.



(** ** Further vocabulary: invariants of a run *)

Section RunVocabulary.
Context {F : Type} {num : Num F}.
Local Open Scope num_scope.

(** The test of [is_within_screen_bounds], on the coordinates of a stored
    trace entry. *)
Definition trace_on_screen (t : Trace F) : bool :=
  (abs (trace_x t) <=? SCREEN_SIZE / of_Z 2)
  && (abs (trace_y t) <=? SCREEN_SIZE / of_Z 2).

(** The position [(x, y, z)] of an electron, as [update] records it. *)
Definition position (e : Electron F) : F * F * F := (x e, y e, z e).

(** The clock readings of the first [n] frames, added up (milliseconds). *)
Fixpoint clock_total (clock : nat -> Z) (n : nat) : Z :=
  match n with
  | O => 0
  | S n' => clock_total clock n' + clock n'
  end.

End RunVocabulary.

(** ** Further vocabulary: calls and centred states *)

Section FlightVocabulary.
Context {F : Type} {num : Num F}.

(** The plate voltages of a call of [update]. *)
Definition call_vertical (c : Call (F := F)) : F := let '(_, _, Vv, _) := c in Vv.
Definition call_horizontal (c : Call (F := F)) : F := let '(_, _, _, Vh) := c in Vh.

End FlightVocabulary.

(** A simulation in manual mode with both plate sliders at 0 V, the electron
    on the axis and every stored trace at the centre of the screen. *)
Definition centred (s : CRTSimulation R) : Prop :=
  mode s = manual
  /\ vertical_voltage (sliders s) = 0%R
  /\ horizontal_voltage (sliders s) = 0%R
  /\ x (electron s) = 0%R /\ y (electron s) = 0%R
  /\ vx (electron s) = 0%R /\ vy (electron s) = 0%R
  /\ Forall (fun t => trace_x t = 0%R /\ trace_y t = 0%R) (screen_traces s).

(** ** The display: [pygame.Rect], [int()] and the screen view *)

(** [pygame.Rect(x, y, width, height)] on integer pixels. *)
Record Rect : Type := mkRect {
  rect_x : Z;
  rect_y : Z;
  rect_width : Z;
  rect_height : Z
}.

(** [Rect.collidepoint]: the left and top edges belong to the rectangle, the
    right and bottom edges do not. *)
Definition collidepoint (r : Rect) (pos : Z * Z) : bool :=
  (rect_x r <=? fst pos)%Z && (fst pos <? rect_x r + rect_width r)%Z
  && (rect_y r <=? snd pos)%Z && (snd pos <? rect_y r + rect_height r)%Z.

(** What the display code needs beyond [Num]: [int(v)], which truncates
    towards zero and raises on NaN and on the infinities ([None]), and the
    literal 0.8. *)
Class Display (F : Type) : Type := {
  to_int : F -> option Z;
  lit_0_8 : F
}.

Definition float_to_int (f : float) : option Z :=
  match Prim2SF f with
  | S754_zero _ => Some 0%Z
  | S754_finite s m e =>
      let magnitude :=
        if (0 <=? e)%Z then (Zpos m * 2 ^ e)%Z else (Zpos m / 2 ^ (- e))%Z in
      Some (if s then (- magnitude)%Z else magnitude)
  | S754_infinity _ => None
  | S754_nan => None
  end.

#[export] Instance float_display : Display float := {
  to_int := float_to_int;
  lit_0_8 := 0.8%float
}.

Definition Rtrunc (r : R) : Z :=
  if Rle_dec 0 r then Int_part r else (- Int_part (- r))%Z.

#[export] Instance real_display : Display R := {
  to_int := fun r => Some (Rtrunc r);
  lit_0_8 := 0.8%R
}.

(** What one pass of a drawing loop does: raise, draw nothing, or call
    [pygame.draw.circle] with a colour, a centre and a radius. *)
Inductive Outcome : Type :=
| Raises
| Skipped
| Circle (colour : Z * Z * Z) (centre : Z * Z) (radius : Z).

(** A colour [pygame.draw] accepts: every component from 0 to 255. *)
Definition valid_colour (c : Z * Z * Z) : bool :=
  let '(r, g, b) := c in
  (0 <=? r)%Z && (r <=? 255)%Z && (0 <=? g)%Z && (g <=? 255)%Z
  && (0 <=? b)%Z && (b <=? 255)%Z.

Section ScreenView.
Context {F : Type} {num : Num F} {display : Display F}.
Local Open Scope num_scope.

(** Python raises ZeroDivisionError when the divisor compares equal to 0. *)
Definition is_zero (d : F) : bool := (d <=? of_Z 0) && (of_Z 0 <=? d).

(** The constants of [draw_screen_view]. *)
Definition screen_view_rect : Rect := mkRect 240 385 650 400.
Definition screen_center_x : Z := (rect_x screen_view_rect + rect_width screen_view_rect / 2)%Z.
Definition screen_center_y : Z := (rect_y screen_view_rect + rect_height screen_view_rect / 2)%Z.
Definition screen_scale_x : F := of_Z (rect_width screen_view_rect - 40) / SCREEN_SIZE.
Definition screen_scale_y : F := of_Z (rect_height screen_view_rect - 40) / SCREEN_SIZE.

(** [pygame.draw.circle(screen, color, center, size)]. *)
Definition draw_circle (colour : Z * Z * Z) (centre : Z * Z) (radius : Z) : Outcome :=
  if valid_colour colour then Circle colour centre radius else Raises.

(** The body of the loop over [screen_traces] in [draw_screen_view]; the
    coordinates handed to [collidepoint] and to [draw.circle] are converted
    to integers. *)
Definition draw_screen_trace (persistence_val current_time : F) (trace : Trace F)
  : Outcome :=
  let age := current_time - trace_time trace in
  if age <? persistence_val * of_Z 2 then
    if is_zero (persistence_val * of_Z 2) then Raises
    else
      let alpha := py_max lit_0_1 (of_Z 1 - age / (persistence_val * of_Z 2)) in
      let screen_x := of_Z screen_center_x + trace_x trace * screen_scale_x in
      let screen_y := of_Z screen_center_y - trace_y trace * screen_scale_y in
      match to_int screen_x, to_int screen_y with
      | Some px, Some py =>
          if collidepoint screen_view_rect (px, py) then
            let brightness := trace_brightness trace in
            match to_int (of_Z 255 * alpha * brightness),
                  to_int (of_Z 7 * alpha * brightness) with
            | Some intensity, Some seven =>
                match to_int (of_Z intensity * lit_0_8) with
                | Some blue =>
                    let color := (0%Z, intensity, blue) in
                    let size := Z.max 2 seven in
                    draw_circle color (px, py) size
                | None => Raises
                end
            | _, _ => Raises
            end
          else Skipped
      | _, _ => Raises
      end
  else Skipped.

(** The loop of [draw_screen_view] over the buffer. *)
Definition draw_screen_traces (s : CRTSimulation F) : list Outcome :=
  map (draw_screen_trace (persistence (sliders s)) (time s)) (screen_traces s).

End ScreenView.

(** An outcome of the screen view that is no exception: nothing drawn, or a
    circle with a colour [pygame] accepts, centred inside the view, of
    radius 2 to 7. *)
Definition well_drawn (o : Outcome) : Prop :=
  match o with
  | Raises => False
  | Skipped => True
  | Circle colour centre radius =>
      valid_colour colour = true
      /\ collidepoint (@screen_view_rect) centre = true
      /\ (2 <= radius <= 7)%Z
  end.

(** A buffer the screen view can draw: every entry within the screen bounds,
    not younger than the current time, of brightness from 0 to 1. *)
Definition drawable (s : CRTSimulation R) : Prop :=
  Forall (fun t => trace_on_screen t = true
                   /\ (trace_time t <= time s)%R
                   /\ (0 <= trace_brightness t <= 1)%R)
         (screen_traces s).

(** ** The controls: events, [Slider], [Button] *)

(** The texts the buttons carry. *)
Module Text.
Import Stdlib.Strings.String.
Local Open Scope string_scope.
Definition Manual : string := "Manual".
Definition Lissajous : string := "Lissajous".
Definition Limpiar : string := "Limpiar".
Definition Pausa : string := "Pausa".
Definition Reanudar : string := "Reanudar".
Definition Haz_ON : string := "Haz ON".
Definition Haz_OFF : string := "Haz OFF".
Definition Tabla_Lissajous : string := "Tabla Lissajous".
Definition delta_0 : string := "δ=0°".
Definition delta_45 : string := "δ=45°".
Definition delta_90 : string := "δ=90°".
Definition delta_135 : string := "δ=135°".
Definition delta_180 : string := "δ=180°".
Definition ratio_1_1 : string := "1:1".
Definition ratio_1_2 : string := "1:2".
Definition ratio_1_3 : string := "1:3".
Definition ratio_2_3 : string := "2:3".
End Text.

(** The keys and the events [handle_events] distinguishes; the mouse events
    carry [event.pos]. *)
Inductive Key : Type := K_SPACE | K_c | K_r | K_b | K_other.

Inductive Event : Type :=
| QUIT
| KEYDOWN (key : Key)
| MOUSEBUTTONDOWN (pos : Z * Z)
| MOUSEBUTTONUP (pos : Z * Z)
| MOUSEMOTION (pos : Z * Z)
| OTHER_EVENT.

(** [class Button]: rectangle, text and highlight. *)
Record Button : Type := mkButton {
  button_rect : Rect;
  button_text : String.string;
  button_active : bool
}.

(** [Button.handle_event]: whether the event is a click inside the
    rectangle. *)
Definition button_handle_event (b : Button) (event : Event) : bool :=
  match event with
  | MOUSEBUTTONDOWN pos => collidepoint (button_rect b) pos
  | _ => false
  end.

Section Controls.
Context {F : Type} {num : Num F} {display : Display F}.
Local Open Scope num_scope.

(** [class Slider], the same in both variants: the track, the range, the
    value and whether the handle is being dragged (label, unit and font only
    serve the drawing of the text). *)
Record Slider : Type := mkSlider {
  slider_rect : Rect;
  min_val : F;
  max_val : F;
  val : F;
  dragging : bool
}.

Definition set_dragging (b : bool) (sl : Slider) : Slider :=
  {| slider_rect := slider_rect sl; min_val := min_val sl; max_val := max_val sl;
     val := val sl; dragging := b |}.

Definition set_val (v : F) (sl : Slider) : Slider :=
  {| slider_rect := slider_rect sl; min_val := min_val sl; max_val := max_val sl;
     val := v; dragging := dragging sl |}.

(** [Slider.handle_event]; [None] is the ZeroDivisionError of
    [rel_x / self.rect.width] on a track of width 0. *)
Definition slider_handle_event (event : Event) (sl : Slider) : option Slider :=
  match event with
  | MOUSEBUTTONDOWN pos =>
      if collidepoint (slider_rect sl) pos then Some (set_dragging true sl)
      else Some sl
  | MOUSEBUTTONUP _ => Some (set_dragging false sl)
  | MOUSEMOTION pos =>
      if dragging sl then
        let rel_x := (fst pos - rect_x (slider_rect sl))%Z in
        let rel_x := Z.max 0 (Z.min rel_x (rect_width (slider_rect sl))) in
        if (rect_width (slider_rect sl) =? 0)%Z then None
        else
          Some (set_val
                  (min_val sl
                   + (of_Z rel_x / of_Z (rect_width (slider_rect sl)))
                     * (max_val sl - min_val sl)) sl)
      else Some sl
  | _ => Some sl
  end.

(** The handle [Slider.draw] draws: [handle_pos] and [handle_rect]; [None]
    is an exception of the division or of [int()]. *)
Definition handle_pos (sl : Slider) : option Z :=
  if is_zero (max_val sl - min_val sl) then None
  else
    to_int ((val sl - min_val sl) / (max_val sl - min_val sl)
            * of_Z (rect_width (slider_rect sl))).

Definition handle_rect (sl : Slider) : option Rect :=
  match handle_pos sl with
  | Some pos =>
      Some (mkRect (rect_x (slider_rect sl) + pos - 5) (rect_y (slider_rect sl) - 3)
              10 (rect_height (slider_rect sl) + 6))
  | None => None
  end.

(** [Slider(x, y, width, height, min_val, max_val, initial_val, ...)] *)
Definition new_slider (x y width height : Z) (lo hi initial : F) : Slider :=
  {| slider_rect := mkRect x y width height; min_val := lo; max_val := hi;
     val := initial; dragging := false |}.

(** The dict [self.sliders], in the order of its keys. *)
Record Controls : Type := mkControls {
  sl_acceleration_voltage : Slider;
  sl_persistence : Slider;
  sl_vertical_voltage : Slider;
  sl_horizontal_voltage : Slider;
  sl_vert_amplitude : Slider;
  sl_vert_frequency : Slider;
  sl_vert_phase : Slider;
  sl_horiz_amplitude : Slider;
  sl_horiz_frequency : Slider;
  sl_horiz_phase : Slider
}.

(** The sliders as a list, in the order [self.sliders.values()] yields. *)
Definition sliders_list (c : Controls) : list Slider :=
  [sl_acceleration_voltage c; sl_persistence c; sl_vertical_voltage c;
   sl_horizontal_voltage c; sl_vert_amplitude c; sl_vert_frequency c;
   sl_vert_phase c; sl_horiz_amplitude c; sl_horiz_frequency c;
   sl_horiz_phase c].

(** The values the engine reads: [self.sliders[k].val]. *)
Definition slider_values (c : Controls) : Sliders F := {|
  acceleration_voltage := val (sl_acceleration_voltage c);
  persistence := val (sl_persistence c);
  vertical_voltage := val (sl_vertical_voltage c);
  horizontal_voltage := val (sl_horizontal_voltage c);
  vert_amplitude := val (sl_vert_amplitude c);
  vert_frequency := val (sl_vert_frequency c);
  vert_phase := val (sl_vert_phase c);
  horiz_amplitude := val (sl_horiz_amplitude c);
  horiz_frequency := val (sl_horiz_frequency c);
  horiz_phase := val (sl_horiz_phase c)
|}.

(** [for slider in self.sliders.values(): slider.handle_event(event)] *)
Definition controls_handle_event (event : Event) (c : Controls) : option Controls :=
  match slider_handle_event event (sl_acceleration_voltage c),
        slider_handle_event event (sl_persistence c),
        slider_handle_event event (sl_vertical_voltage c),
        slider_handle_event event (sl_horizontal_voltage c),
        slider_handle_event event (sl_vert_amplitude c),
        slider_handle_event event (sl_vert_frequency c),
        slider_handle_event event (sl_vert_phase c),
        slider_handle_event event (sl_horiz_amplitude c),
        slider_handle_event event (sl_horiz_frequency c),
        slider_handle_event event (sl_horiz_phase c) with
  | Some a, Some p, Some vv, Some hv, Some va, Some vf, Some vp,
    Some ha, Some hf, Some hp =>
      Some (mkControls a p vv hv va vf vp ha hf hp)
  | _, _, _, _, _, _, _, _, _, _ => None
  end.

(** The panel geometry of [setup_controls]. *)
Definition WINDOW_WIDTH : Z := 1650.
Definition WINDOW_HEIGHT : Z := 800.
Definition CONTROL_PANEL_WIDTH : Z := 500.
Definition control_x : Z := (WINDOW_WIDTH - CONTROL_PANEL_WIDTH + 20)%Z.

(** [self.sliders] as [setup_controls] builds it (0.1 is the lower end of
    the two frequency ranges, 1.5 the initial horizontal frequency). *)
Definition initial_controls : Controls := {|
  sl_acceleration_voltage :=
    new_slider control_x 90 250 15 (of_Z 500) (of_Z 5000) (of_Z 2000);
  sl_persistence :=
    new_slider control_x 135 250 15 (of_Z 50) (of_Z 2000) (of_Z 500);
  sl_vertical_voltage :=
    new_slider control_x 265 250 15 (of_Z (-300)) (of_Z 300) (of_Z 0);
  sl_horizontal_voltage :=
    new_slider control_x 310 250 15 (of_Z (-300)) (of_Z 300) (of_Z 0);
  sl_vert_amplitude :=
    new_slider control_x 265 250 15 (of_Z 50) (of_Z 300) (of_Z 150);
  sl_vert_frequency :=
    new_slider control_x 310 250 15 lit_0_1 (of_Z 10) (of_Z 1);
  sl_vert_phase :=
    new_slider control_x 355 250 15 (of_Z 0) (of_Z 360) (of_Z 0);
  sl_horiz_amplitude :=
    new_slider control_x 400 250 15 (of_Z 50) (of_Z 300) (of_Z 150);
  sl_horiz_frequency :=
    new_slider control_x 445 250 15 lit_0_1 (of_Z 10) (of_Z 3 / of_Z 2);
  sl_horiz_phase :=
    new_slider control_x 490 250 15 (of_Z 0) (of_Z 360) (of_Z 90)
|}.

End Controls.

Arguments Slider F : clear implicits.
Arguments Controls F : clear implicits.

(** ** The window of [Simul.py]: buttons, presets, [handle_events],
    [draw_controls] and the loop of [run] *)

(** The dict [self.buttons]. *)
Record Buttons : Type := mkButtons {
  btn_manual : Button;
  btn_lissajous : Button;
  btn_clear : Button;
  btn_pause : Button;
  btn_beam_toggle : Button;
  btn_preset_lissajous : Button
}.

Definition set_text (t : String.string) (b : Button) : Button :=
  {| button_rect := button_rect b; button_text := t; button_active := button_active b |}.

Definition set_active (a : bool) (b : Button) : Button :=
  {| button_rect := button_rect b; button_text := button_text b; button_active := a |}.

(** [Button(x, y, width, height, text, active=False)] *)
Definition new_button (x y width height : Z) (text : String.string) (active : bool)
  : Button :=
  {| button_rect := mkRect x y width height; button_text := text;
     button_active := active |}.

(** [self.buttons] as [setup_controls] builds it. *)
Definition initial_buttons : Buttons := {|
  btn_manual := new_button control_x 185 80 25 Text.Manual true;
  btn_lissajous := new_button (control_x + 85) 185 80 25 Text.Lissajous false;
  btn_clear := new_button control_x 550 80 25 Text.Limpiar false;
  btn_pause := new_button (control_x + 85) 550 80 25 Text.Pausa false;
  btn_beam_toggle := new_button (control_x + 170) 550 80 25 Text.Haz_ON true;
  btn_preset_lissajous :=
    new_button (control_x + 170) 185 150 25 Text.Tabla_Lissajous false
|}.

Definition set_btn_manual (b : Button) (bs : Buttons) : Buttons :=
  {| btn_manual := b; btn_lissajous := btn_lissajous bs; btn_clear := btn_clear bs;
     btn_pause := btn_pause bs; btn_beam_toggle := btn_beam_toggle bs;
     btn_preset_lissajous := btn_preset_lissajous bs |}.

Definition set_btn_lissajous (b : Button) (bs : Buttons) : Buttons :=
  {| btn_manual := btn_manual bs; btn_lissajous := b; btn_clear := btn_clear bs;
     btn_pause := btn_pause bs; btn_beam_toggle := btn_beam_toggle bs;
     btn_preset_lissajous := btn_preset_lissajous bs |}.

Definition set_btn_pause (b : Button) (bs : Buttons) : Buttons :=
  {| btn_manual := btn_manual bs; btn_lissajous := btn_lissajous bs;
     btn_clear := btn_clear bs; btn_pause := b;
     btn_beam_toggle := btn_beam_toggle bs;
     btn_preset_lissajous := btn_preset_lissajous bs |}.

Definition set_btn_beam_toggle (b : Button) (bs : Buttons) : Buttons :=
  {| btn_manual := btn_manual bs; btn_lissajous := btn_lissajous bs;
     btn_clear := btn_clear bs; btn_pause := btn_pause bs;
     btn_beam_toggle := b;
     btn_preset_lissajous := btn_preset_lissajous bs |}.

(** [enumerate(l)] *)
Fixpoint enumerate_from {A : Type} (i : Z) (l : list A) : list (Z * A) :=
  match l with
  | [] => []
  | a :: l' => (i, a) :: enumerate_from (i + 1) l'
  end.

Definition enumerate {A : Type} (l : list A) : list (Z * A) := enumerate_from 0 l.

Section Window.
Context {F : Type} {num : Num F} {trig : Trig F} {display : Display F}.
Local Open Scope num_scope.

(** An entry of [self.lissajous_presets]: the dict with keys name, fv, fh,
    phase. *)
Record Preset : Type := mkPreset {
  preset_name : String.string;
  preset_fv : F;
  preset_fh : F;
  preset_phase : F
}.

(** [self.lissajous_presets] of [Simul.py], in the order of its keys. *)
Definition lissajous_presets : list (String.string * list Preset) :=
  [ (Text.ratio_1_1,
     [ mkPreset Text.delta_0 (of_Z 1) (of_Z 1) (of_Z 0);
       mkPreset Text.delta_45 (of_Z 1) (of_Z 1) (of_Z 45);
       mkPreset Text.delta_90 (of_Z 1) (of_Z 1) (of_Z 90);
       mkPreset Text.delta_135 (of_Z 1) (of_Z 1) (of_Z 135);
       mkPreset Text.delta_180 (of_Z 1) (of_Z 1) (of_Z 180) ]);
    (Text.ratio_1_2,
     [ mkPreset Text.delta_0 (of_Z 2) (of_Z 1) (of_Z 90);
       mkPreset Text.delta_45 (of_Z 2) (of_Z 1) (of_Z 45);
       mkPreset Text.delta_90 (of_Z 2) (of_Z 1) (of_Z 0);
       mkPreset Text.delta_135 (of_Z 2) (of_Z 1) (of_Z 135);
       mkPreset Text.delta_180 (of_Z 2) (of_Z 1) (of_Z 270) ]);
    (Text.ratio_1_3,
     [ mkPreset Text.delta_0 (of_Z 3) (of_Z 1) (of_Z 180);
       mkPreset Text.delta_45 (of_Z 3) (of_Z 1) (of_Z 135);
       mkPreset Text.delta_90 (of_Z 3) (of_Z 1) (of_Z 90);
       mkPreset Text.delta_135 (of_Z 3) (of_Z 1) (of_Z 45);
       mkPreset Text.delta_180 (of_Z 3) (of_Z 1) (of_Z 0) ]);
    (Text.ratio_2_3,
     [ mkPreset Text.delta_0 (of_Z 3) (of_Z 2) (of_Z 45);
       mkPreset Text.delta_45 (of_Z 3) (of_Z 2) (of_Z 0);
       mkPreset Text.delta_90 (of_Z 3) (of_Z 2) (of_Z 135);
       mkPreset Text.delta_135 (of_Z 3) (of_Z 2) (of_Z 180);
       mkPreset Text.delta_180 (of_Z 3) (of_Z 2) (of_Z 135) ]) ].

(** The object [self] of [class CRTSimulation] in [Simul.py].  [engine]
    holds the attributes mode, time, electron, screen_traces and
    simulation_speed; the slider values live in the slider objects of
    [controls], and the engine is always run on [engine_view], which reads
    them from there.  [active_preset] is [None] until a preset is applied
    (the attribute does not exist before). *)
Record Window : Type := mkWindow {
  running : bool;
  engine : CRTSimulation F;
  beam_visible : bool;
  controls : Controls F;
  buttons : Buttons;
  show_presets : bool;
  preset_buttons : list (Button * Preset);
  active_preset : option Preset
}.

Definition set_sliders (v : Sliders F) (s : CRTSimulation F) : CRTSimulation F :=
  {| mode := mode s; time := time s; electron := electron s;
     screen_traces := screen_traces s;
     simulation_speed := simulation_speed s; sliders := v |}.

Definition set_simulation_speed (v : Z) (s : CRTSimulation F) : CRTSimulation F :=
  {| mode := mode s; time := time s; electron := electron s;
     screen_traces := screen_traces s;
     simulation_speed := v; sliders := sliders s |}.

(** What the engine sees: the attributes of [self] with
    [self.sliders[k].val] for the slider values. *)
Definition engine_view (w : Window) : CRTSimulation F :=
  set_sliders (slider_values (controls w)) (engine w).

Definition set_running (b : bool) (w : Window) : Window :=
  {| running := b; engine := engine w; beam_visible := beam_visible w;
     controls := controls w; buttons := buttons w;
     show_presets := show_presets w; preset_buttons := preset_buttons w;
     active_preset := active_preset w |}.

Definition set_engine (s : CRTSimulation F) (w : Window) : Window :=
  {| running := running w; engine := s; beam_visible := beam_visible w;
     controls := controls w; buttons := buttons w;
     show_presets := show_presets w; preset_buttons := preset_buttons w;
     active_preset := active_preset w |}.

Definition set_beam_visible (b : bool) (w : Window) : Window :=
  {| running := running w; engine := engine w; beam_visible := b;
     controls := controls w; buttons := buttons w;
     show_presets := show_presets w; preset_buttons := preset_buttons w;
     active_preset := active_preset w |}.

Definition set_controls (c : Controls F) (w : Window) : Window :=
  {| running := running w; engine := engine w; beam_visible := beam_visible w;
     controls := c; buttons := buttons w;
     show_presets := show_presets w; preset_buttons := preset_buttons w;
     active_preset := active_preset w |}.

Definition set_buttons (b : Buttons) (w : Window) : Window :=
  {| running := running w; engine := engine w; beam_visible := beam_visible w;
     controls := controls w; buttons := b;
     show_presets := show_presets w; preset_buttons := preset_buttons w;
     active_preset := active_preset w |}.

Definition set_show_presets (b : bool) (w : Window) : Window :=
  {| running := running w; engine := engine w; beam_visible := beam_visible w;
     controls := controls w; buttons := buttons w;
     show_presets := b; preset_buttons := preset_buttons w;
     active_preset := active_preset w |}.

Definition set_preset_buttons (l : list (Button * Preset)) (w : Window) : Window :=
  {| running := running w; engine := engine w; beam_visible := beam_visible w;
     controls := controls w; buttons := buttons w;
     show_presets := show_presets w; preset_buttons := l;
     active_preset := active_preset w |}.

Definition set_active_preset (p : option Preset) (w : Window) : Window :=
  {| running := running w; engine := engine w; beam_visible := beam_visible w;
     controls := controls w; buttons := buttons w;
     show_presets := show_presets w; preset_buttons := preset_buttons w;
     active_preset := p |}.

(** [CRTSimulation.__init__] with [setup_controls]. *)
Definition initial_window : Window := {|
  running := true;
  engine := init;
  beam_visible := true;
  controls := initial_controls;
  buttons := initial_buttons;
  show_presets := false;
  preset_buttons := [];
  active_preset := None
|}.

(** The two lines under K_SPACE and under the pause button. *)
Definition toggle_pause (w : Window) : Window :=
  let speed := if (0 <? simulation_speed (engine w))%Z then 0%Z else 1%Z in
  let w := set_engine (set_simulation_speed speed (engine w)) w in
  set_buttons
    (set_btn_pause
       (set_text (if (speed =? 0)%Z then Text.Reanudar else Text.Pausa)
          (btn_pause (buttons w)))
       (buttons w)) w.

(** The three lines under K_b and under the beam button. *)
Definition toggle_beam (w : Window) : Window :=
  let w := set_beam_visible (negb (beam_visible w)) w in
  let w :=
    set_buttons
      (set_btn_beam_toggle
         (set_text (if beam_visible w then Text.Haz_ON else Text.Haz_OFF)
            (btn_beam_toggle (buttons w)))
         (buttons w)) w in
  set_buttons
    (set_btn_beam_toggle
       (set_active (beam_visible w) (btn_beam_toggle (buttons w)))
       (buttons w)) w.

(** [self.screen_traces.clear()] and [self.electron.reset()]. *)
Definition clear_traces (w : Window) : Window :=
  set_engine (set_screen_traces [] (engine w)) w.

Definition reset_electron (w : Window) : Window :=
  set_engine (set_electron reset (engine w)) w.

(** The [if event.type == pygame.KEYDOWN] block. *)
Definition handle_key (key : Key) (w : Window) : Window :=
  match key with
  | K_SPACE => toggle_pause w
  | K_c => clear_traces w
  | K_r => reset_electron w
  | K_b => toggle_beam w
  | K_other => w
  end.

(** The mode buttons. *)
Definition select_mode (m : Mode) (w : Window) : Window :=
  let w := set_engine (set_mode m (engine w)) w in
  let is_manual := match m with manual => true | lissajous => false end in
  let w :=
    set_buttons
      (set_btn_manual (set_active is_manual (btn_manual (buttons w))) (buttons w)) w in
  set_buttons
    (set_btn_lissajous
       (set_active (negb is_manual) (btn_lissajous (buttons w))) (buttons w)) w.

Definition is_lissajous (w : Window) : bool :=
  match mode (engine w) with lissajous => true | manual => false end.

Definition set_sl_vert_frequency (sl : Slider F) (c : Controls F) : Controls F :=
  mkControls (sl_acceleration_voltage c) (sl_persistence c) (sl_vertical_voltage c)
    (sl_horizontal_voltage c) (sl_vert_amplitude c) sl (sl_vert_phase c)
    (sl_horiz_amplitude c) (sl_horiz_frequency c) (sl_horiz_phase c).

Definition set_sl_vert_phase (sl : Slider F) (c : Controls F) : Controls F :=
  mkControls (sl_acceleration_voltage c) (sl_persistence c) (sl_vertical_voltage c)
    (sl_horizontal_voltage c) (sl_vert_amplitude c) (sl_vert_frequency c) sl
    (sl_horiz_amplitude c) (sl_horiz_frequency c) (sl_horiz_phase c).

Definition set_sl_horiz_frequency (sl : Slider F) (c : Controls F) : Controls F :=
  mkControls (sl_acceleration_voltage c) (sl_persistence c) (sl_vertical_voltage c)
    (sl_horizontal_voltage c) (sl_vert_amplitude c) (sl_vert_frequency c)
    (sl_vert_phase c) (sl_horiz_amplitude c) sl (sl_horiz_phase c).

Definition set_sl_horiz_phase (sl : Slider F) (c : Controls F) : Controls F :=
  mkControls (sl_acceleration_voltage c) (sl_persistence c) (sl_vertical_voltage c)
    (sl_horizontal_voltage c) (sl_vert_amplitude c) (sl_vert_frequency c)
    (sl_vert_phase c) (sl_horiz_amplitude c) (sl_horiz_frequency c) sl.

(** The body of [if btn.handle_event(event)] in the loop over the preset
    buttons. *)
Definition apply_preset (preset : Preset) (w : Window) : Window :=
  let c := controls w in
  let c := set_sl_horiz_frequency (set_val (preset_fh preset) (sl_horiz_frequency c)) c in
  let c := set_sl_vert_frequency (set_val (preset_fv preset) (sl_vert_frequency c)) c in
  let c := set_sl_horiz_phase (set_val (of_Z 0) (sl_horiz_phase c)) c in
  let c := set_sl_vert_phase (set_val (preset_phase preset) (sl_vert_phase c)) c in
  let w := set_controls c w in
  let w := set_active_preset (Some preset) w in
  let w := reset_electron w in
  let w := clear_traces w in
  let w := set_engine (set_time (of_Z 0) (engine w)) w in
  set_show_presets false w.

(** The loop over [self.preset_buttons], left at the first button hit. *)
Definition handle_preset_buttons (event : Event) (w : Window) : Window :=
  match find (fun bp => button_handle_event (fst bp) event) (preset_buttons w) with
  | Some (_, preset) => apply_preset preset w
  | None => w
  end.

(** The statements of the loop body of [handle_events], one by one in the
    order of the source: each is an [if] on the event and on the state the
    statements before it left. *)
Definition on_quit (event : Event) (w : Window) : Window :=
  match event with QUIT => set_running false w | _ => w end.

Definition on_keydown (event : Event) (w : Window) : Window :=
  match event with KEYDOWN key => handle_key key w | _ => w end.

Definition on_manual (event : Event) (w : Window) : Window :=
  if button_handle_event (btn_manual (buttons w)) event
  then select_mode manual w else w.

Definition on_lissajous (event : Event) (w : Window) : Window :=
  if button_handle_event (btn_lissajous (buttons w)) event
  then select_mode lissajous w else w.

Definition on_preset_lissajous (event : Event) (w : Window) : Window :=
  if is_lissajous w && button_handle_event (btn_preset_lissajous (buttons w)) event
  then set_show_presets (negb (show_presets w)) w else w.

Definition on_preset_buttons (event : Event) (w : Window) : Window :=
  if is_lissajous w && show_presets w then handle_preset_buttons event w else w.

Definition on_clear (event : Event) (w : Window) : Window :=
  if button_handle_event (btn_clear (buttons w)) event then clear_traces w else w.

Definition on_pause (event : Event) (w : Window) : Window :=
  if button_handle_event (btn_pause (buttons w)) event then toggle_pause w else w.

Definition on_beam_toggle (event : Event) (w : Window) : Window :=
  if button_handle_event (btn_beam_toggle (buttons w)) event
  then toggle_beam w else w.

(** The body of the loop of [handle_events] for one event; [None] is an
    exception of a slider. *)
Definition handle_event (event : Event) (w : Window) : option Window :=
  let w := on_quit event w in
  let w := on_keydown event w in
  match controls_handle_event event (controls w) with
  | None => None
  | Some c =>
      let w := set_controls c w in
      let w := on_manual event w in
      let w := on_lissajous event w in
      let w := on_preset_lissajous event w in
      let w := on_preset_buttons event w in
      let w := on_clear event w in
      let w := on_pause event w in
      let w := on_beam_toggle event w in
      Some w
  end.

(** [handle_events]: the events [pygame.event.get()] returns, in order. *)
Fixpoint handle_events (events : list Event) (w : Window) : option Window :=
  match events with
  | [] => Some w
  | event :: events' =>
      match handle_event event w with
      | Some w' => handle_events events' w'
      | None => None
      end
  end.

(** The table [draw_controls] rebuilds while the menu is shown: the button of
    row [i], column [j] at [(start_x + (j+1)*cell_w, start_y + (i+1)*cell_h)]
    with its preset. *)
Definition cell_w : Z := 80.
Definition cell_h : Z := 30.
Definition start_x : Z := (WINDOW_WIDTH - CONTROL_PANEL_WIDTH + 20)%Z.
Definition start_y : Z := 600.

Definition preset_buttons_of (presets : list (String.string * list Preset))
  : list (Button * Preset) :=
  flat_map
    (fun row : Z * (String.string * list Preset) =>
       let i := fst row in
       map (fun cell : Z * Preset =>
              let j := fst cell in
              let preset := snd cell in
              let btn_x := (start_x + (j + 1) * cell_w)%Z in
              let btn_y := (start_y + (i + 1) * cell_h)%Z in
              (new_button btn_x btn_y (cell_w - 5) (cell_h - 5)
                 (preset_name preset) false,
               preset))
           (enumerate (snd (snd row))))
    (enumerate presets).

Definition preset_table : list (Button * Preset) :=
  preset_buttons_of lissajous_presets.

(** The sliders [draw_controls] draws in the current mode. *)
Definition drawn_sliders (w : Window) : list (Slider F) :=
  let c := controls w in
  [sl_acceleration_voltage c; sl_persistence c]
  ++ match mode (engine w) with
     | manual => [sl_vertical_voltage c; sl_horizontal_voltage c]
     | lissajous =>
         [sl_vert_amplitude c; sl_vert_frequency c; sl_vert_phase c;
          sl_horiz_amplitude c; sl_horiz_frequency c; sl_horiz_phase c]
     end.

(** [draw_controls]: the handles of the sliders it draws ([None] when one of
    them raises) and its one assignment, to [self.preset_buttons]. *)
Definition draw_controls (w : Window) : option Window :=
  if forallb (fun sl => match handle_rect sl with Some _ => true | None => false end)
       (drawn_sliders w)
  then
    Some (if is_lissajous w && show_presets w
          then set_preset_buttons preset_table w else w)
  else None.

(** [update_physics] on the window. *)
Definition window_update_physics (clock_get_time : Z) (w : Window) : Window :=
  set_engine (Simul.update_physics clock_get_time (engine_view w)) w.

(** What [draw] does that can raise or assign: the persistence loop of
    [draw_screen_view] and [draw_controls] (the side and top views, the grid
    and the texts assign nothing and are left to the display). *)
Definition draw (w : Window) : option Window :=
  if forallb (fun o => match o with Raises => false | _ => true end)
       (draw_screen_traces (engine_view w))
  then draw_controls w
  else None.

(** One turn of the [while self.running] loop of [run]: the events of the
    turn, the physics with this turn's clock reading, the drawing, and the
    fixed 16 ms. *)
Definition turn (events : list Event) (clock_get_time : Z) (w : Window)
  : option Window :=
  match handle_events events w with
  | None => None
  | Some w =>
      let w := window_update_physics clock_get_time w in
      match draw w with
      | None => None
      | Some w =>
          Some (if (0 <? simulation_speed (engine w))%Z
                then set_engine (set_time (time (engine w) + of_Z 16) (engine w)) w
                else w)
      end
  end.

(** The loop of [run] on the inputs of its turns, until [self.running] is
    false or the inputs end. *)
Fixpoint window_run (turns : list (list Event * Z)) (w : Window) : option Window :=
  match turns with
  | [] => Some w
  | (events, clock_get_time) :: turns' =>
      if running w then
        match turn events clock_get_time w with
        | Some w' => window_run turns' w'
        | None => None
        end
      else Some w
  end.

End Window.

Arguments Preset F : clear implicits.
Arguments Window F : clear implicits.

(** ** Further vocabulary: sliders and windows *)

Section ControlVocabulary.
Context {F : Type} {num : Num F} {display : Display F}.
Local Open Scope num_scope.

(** [slider.handle_event(event)] for each event of a list, in order. *)
Fixpoint slider_handle_events (events : list Event) (sl : Slider F)
  : option (Slider F) :=
  match events with
  | [] => Some sl
  | event :: events' =>
      match slider_handle_event event sl with
      | Some sl' => slider_handle_events events' sl'
      | None => None
      end
  end.

(** The part of a slider that no method assigns after the constructor. *)
Definition track (sl : Slider F) : Rect * F * F :=
  (slider_rect sl, min_val sl, max_val sl).

(** The mouse position relative to the track, clamped to it. *)
Definition clamped_rel_x (sl : Slider F) (pos : Z * Z) : Z :=
  Z.max 0 (Z.min (fst pos - rect_x (slider_rect sl)) (rect_width (slider_rect sl))).

(** The value a drag to [rel_x] pixels from the left end assigns. *)
Definition value_at (sl : Slider F) (rel_x : Z) : F :=
  min_val sl
  + (of_Z rel_x / of_Z (rect_width (slider_rect sl))) * (max_val sl - min_val sl).

(** A press inside the track of the slider. *)
Definition grabs (sl : Slider F) (event : Event) : bool :=
  match event with
  | MOUSEBUTTONDOWN pos => collidepoint (slider_rect sl) pos
  | _ => false
  end.

(** Whether the value a drag to [rel_x] assigns lies in the range of the
    slider, and the handle is then drawn at [rel_x] or one pixel to its
    left. *)
Definition drag_in_range (sl : Slider F) (rel_x : Z) : bool :=
  (min_val sl <=? value_at sl rel_x) && (value_at sl rel_x <=? max_val sl).

Definition handle_near (sl : Slider F) (rel_x : Z) : bool :=
  match handle_pos (set_val (value_at sl rel_x) sl) with
  | Some p => (rel_x - 1 <=? p)%Z && (p <=? rel_x)%Z
  | None => false
  end.

(** Two sliders moved by the same handle position: both at their initial
    values [v1], [v2], or both at the values of one [rel_x] on the track. *)
Definition moved_together (v1 v2 : F) (sl1 sl2 : Slider F) : Prop :=
  dragging sl1 = dragging sl2
  /\ ((val sl1 = v1 /\ val sl2 = v2)
      \/ exists rel_x : Z,
           (0 <= rel_x <= rect_width (slider_rect sl1))%Z
           /\ val sl1 = value_at sl1 rel_x /\ val sl2 = value_at sl2 rel_x).

End ControlVocabulary.

(** The value of a slider lies in its range. *)
Definition slider_in_range (sl : Slider R) : Prop :=
  (min_val sl <= val sl <= max_val sl)%R.

Section WindowVocabulary.
Context {F : Type} {num : Num F} {trig : Trig F} {display : Display F}.

(** What the buttons show agrees with the state they stand for. *)
Definition labels_consistent (w : Window F) : Prop :=
  button_active (btn_manual (buttons w)) = negb (is_lissajous w)
  /\ button_active (btn_lissajous (buttons w)) = is_lissajous w
  /\ button_text (btn_pause (buttons w))
     = (if (simulation_speed (engine w) =? 0)%Z then Text.Reanudar else Text.Pausa)
  /\ button_text (btn_beam_toggle (buttons w))
     = (if beam_visible w then Text.Haz_ON else Text.Haz_OFF)
  /\ button_active (btn_beam_toggle (buttons w)) = beam_visible w
  /\ (simulation_speed (engine w) = 0%Z \/ simulation_speed (engine w) = 1%Z).

(** The tracks of the ten sliders and the rectangles of the six buttons. *)
Definition tracks (c : Controls F) : list (Rect * F * F) :=
  map track (sliders_list c).

Definition button_rects (b : Buttons) : list Rect :=
  [button_rect (btn_manual b); button_rect (btn_lissajous b);
   button_rect (btn_clear b); button_rect (btn_pause b);
   button_rect (btn_beam_toggle b); button_rect (btn_preset_lissajous b)].

(** The widgets stand where [setup_controls] put them, and the preset menu
    is empty or the table [draw_controls] builds. *)
Definition layout_kept (w : Window F) : Prop :=
  tracks (controls w) = tracks initial_controls
  /\ button_rects (buttons w) = button_rects initial_buttons
  /\ (preset_buttons w = [] \/ preset_buttons w = preset_table).

(** The vertical-voltage slider of manual mode and the vertical-amplitude
    slider of Lissajous mode move together. *)
Definition vertical_pair_together (w : Window F) : Prop :=
  moved_together (of_Z 0) (of_Z 150)
    (sl_vertical_voltage (controls w)) (sl_vert_amplitude (controls w)).

(** The clock readings of the turns are not negative. *)
Definition clock_forward (turns : list (list Event * Z)) : Prop :=
  Forall (fun t => (0 <= snd t)%Z) turns.

End WindowVocabulary.

(** A track of [setup_controls]: 250 pixels wide, with a range that is not
    empty. *)
Definition panel_track (t : Rect * R * R) : Prop :=
  rect_width (fst (fst t)) = 250%Z /\ (snd (fst t) < snd t)%R.

(** What the loop of [run] keeps in real arithmetic: the layout, every
    slider value in its range, a buffer the screen view can draw, and a
    [simulation_speed] that is not negative. *)
Definition window_sound (w : Window R) : Prop :=
  layout_kept w
  /\ Forall slider_in_range (sliders_list (controls w))
  /\ drawable (engine_view w)
  /\ (0 <= simulation_speed (engine w))%Z.

(** Sample inputs of the loop: a drag of the vertical-voltage slider to the
    right and a pause in the first turn, a click on the Lissajous button in
    the second; and a window in Lissajous mode with the preset menu open and
    drawn. *)
Definition sample_turns : list (list Event * Z) :=
  [([MOUSEBUTTONDOWN (1200, 270)%Z; MOUSEMOTION (1300, 270)%Z;
     MOUSEBUTTONUP (1300, 270)%Z; KEYDOWN K_SPACE], 0%Z);
   ([MOUSEBUTTONDOWN (1260, 190)%Z], 16%Z)].

Definition sample_menu_window {F : Type} {num : Num F} : Window F :=
  set_preset_buttons preset_table
    (set_show_presets true (select_mode lissajous initial_window)).

(** ** The window of [simul_prueba.py]

    The widgets, the initial state and the statements of [handle_events] up
    to the beam button are those of [Simul.py]; the preset table, the preset
    loop (last in the loop body, without [break], without a reset), the
    physics and the loop of [run] (no clock reading) are its own.  The
    attribute [active_preset] does not exist there and stays [None]. *)
Module PruebaWindow.
Section Defs.
Context {F : Type} {num : Num F} {trig : Trig F} {display : Display F}.
Local Open Scope num_scope.

(** [self.lissajous_presets] as [_create_presets] builds it. *)
Definition lissajous_presets : list (String.string * list (Preset F)) :=
  [ (Text.ratio_1_1,
     [ mkPreset Text.delta_0 (of_Z 1) (of_Z 1) (of_Z 0);
       mkPreset Text.delta_45 (of_Z 1) (of_Z 1) (of_Z 45);
       mkPreset Text.delta_90 (of_Z 1) (of_Z 1) (of_Z 90);
       mkPreset Text.delta_135 (of_Z 1) (of_Z 1) (of_Z 135);
       mkPreset Text.delta_180 (of_Z 1) (of_Z 1) (of_Z 180) ]);
    (Text.ratio_1_2,
     [ mkPreset Text.delta_0 (of_Z 2) (of_Z 1) (of_Z 0);
       mkPreset Text.delta_45 (of_Z 2) (of_Z 1) (of_Z 45);
       mkPreset Text.delta_90 (of_Z 2) (of_Z 1) (of_Z 90);
       mkPreset Text.delta_135 (of_Z 2) (of_Z 1) (of_Z 135);
       mkPreset Text.delta_180 (of_Z 2) (of_Z 1) (of_Z 180) ]);
    (Text.ratio_1_3,
     [ mkPreset Text.delta_0 (of_Z 3) (of_Z 1) (of_Z 180);
       mkPreset Text.delta_45 (of_Z 3) (of_Z 1) (of_Z 45);
       mkPreset Text.delta_90 (of_Z 3) (of_Z 1) (of_Z 90);
       mkPreset Text.delta_135 (of_Z 3) (of_Z 1) (of_Z 135);
       mkPreset Text.delta_180 (of_Z 3) (of_Z 1) (of_Z 0) ]);
    (Text.ratio_2_3,
     [ mkPreset Text.delta_0 (of_Z 3) (of_Z 2) (of_Z 0);
       mkPreset Text.delta_45 (of_Z 3) (of_Z 2) (of_Z 45);
       mkPreset Text.delta_90 (of_Z 3) (of_Z 2) (of_Z 90);
       mkPreset Text.delta_135 (of_Z 3) (of_Z 2) (of_Z 135);
       mkPreset Text.delta_180 (of_Z 3) (of_Z 2) (of_Z 180) ]) ].

(** The table [_draw_presets] rebuilds. *)
Definition preset_table : list (Button * Preset F) :=
  preset_buttons_of lissajous_presets.

(** The body of [if btn.handle_event(event)] in the preset loop. *)
Definition apply_preset (preset : Preset F) (w : Window F) : Window F :=
  let c := controls w in
  let c := set_sl_vert_frequency (set_val (preset_fv preset) (sl_vert_frequency c)) c in
  let c := set_sl_horiz_frequency (set_val (preset_fh preset) (sl_horiz_frequency c)) c in
  let c := set_sl_horiz_phase (set_val (preset_phase preset) (sl_horiz_phase c)) c in
  let w := set_controls c w in
  set_show_presets false w.

(** The loop over [self.preset_buttons]: every button hit applies its
    preset, in the order of the list. *)
Definition handle_preset_buttons (event : Event) (w : Window F) : Window F :=
  fold_left
    (fun (w : Window F) (bp : Button * Preset F) =>
       if button_handle_event (fst bp) event then apply_preset (snd bp) w else w)
    (preset_buttons w) w.

Definition on_preset_buttons (event : Event) (w : Window F) : Window F :=
  if is_lissajous w && show_presets w then handle_preset_buttons event w else w.

(** The body of the loop of [handle_events] for one event. *)
Definition handle_event (event : Event) (w : Window F) : option (Window F) :=
  let w := on_quit event w in
  let w := on_keydown event w in
  match controls_handle_event event (controls w) with
  | None => None
  | Some c =>
      let w := set_controls c w in
      let w := on_manual event w in
      let w := on_lissajous event w in
      let w := on_preset_lissajous event w in
      let w := on_clear event w in
      let w := on_pause event w in
      let w := on_beam_toggle event w in
      let w := on_preset_buttons event w in
      Some w
  end.

Fixpoint handle_events (events : list Event) (w : Window F) : option (Window F) :=
  match events with
  | [] => Some w
  | event :: events' =>
      match handle_event event w with
      | Some w' => handle_events events' w'
      | None => None
      end
  end.

(** [draw_controls] with [_draw_presets]. *)
Definition draw_controls (w : Window F) : option (Window F) :=
  if forallb (fun sl => match handle_rect sl with Some _ => true | None => false end)
       (drawn_sliders w)
  then
    Some (if is_lissajous w && show_presets w
          then set_preset_buttons preset_table w else w)
  else None.

Definition window_update_physics (w : Window F) : Window F :=
  set_engine (Prueba.update_physics (engine_view w)) w.

(** The persistence loop of [draw_screen_view], the same as in [Simul.py],
    and [draw_controls]. *)
Definition draw (w : Window F) : option (Window F) :=
  if forallb (fun o => match o with Raises => false | _ => true end)
       (draw_screen_traces (engine_view w))
  then draw_controls w
  else None.

(** One turn of the loop of [run]. *)
Definition turn (events : list Event) (w : Window F) : option (Window F) :=
  match handle_events events w with
  | None => None
  | Some w =>
      let w := window_update_physics w in
      match draw w with
      | None => None
      | Some w =>
          Some (if (0 <? simulation_speed (engine w))%Z
                then set_engine (set_time (time (engine w) + of_Z 16) (engine w)) w
                else w)
      end
  end.

Fixpoint window_run (turns : list (list Event)) (w : Window F) : option (Window F) :=
  match turns with
  | [] => Some w
  | events :: turns' =>
      if running w then
        match turn events w with
        | Some w' => window_run turns' w'
        | None => None
        end
      else Some w
  end.

(** The widgets stand where [_create_controls] put them, and the preset
    menu is empty or the table [_draw_presets] builds. *)
Definition layout_kept (w : Window F) : Prop :=
  tracks (controls w) = tracks initial_controls
  /\ button_rects (buttons w) = button_rects initial_buttons
  /\ (preset_buttons w = [] \/ preset_buttons w = preset_table).

End Defs.

(** What the loop of [run] keeps in real arithmetic. *)
Definition window_sound (w : Window R) : Prop :=
  layout_kept w
  /\ Forall slider_in_range (sliders_list (controls w))
  /\ drawable (engine_view w)
  /\ (0 <= simulation_speed (engine w))%Z.

(** Sample inputs: the turns of [sample_turns] without the clock readings,
    and a window with the menu open and drawn. *)
Definition sample_turns : list (list Event) := map fst sample_turns.

Definition sample_menu_window {F : Type} {num : Num F} : Window F :=
  set_preset_buttons preset_table
    (set_show_presets true (select_mode lissajous initial_window)).

End PruebaWindow.

(** ** Further vocabulary: the flight to the screen *)

(** The axial speed the impulse gives at 500 V, the lowest acceleration
    voltage the panel offers. *)
Definition slowest_impulse : R := impulse_speed (F := R) 500%R.

(** An electron at the gun position or beyond that, once it has its impulse,
    is at least that fast. *)
Definition in_flight (e : Electron R) : Prop :=
  (0.001 <= z e)%R
  /\ (initial_acceleration_done e = true -> (slowest_impulse <= vz e)%R).

(** ** Further vocabulary: the point reflection through the axis *)

(** The reflection [(x, y, z) -> (- x, - y, z)] of a position, of an
    electron with its velocities and path, of a trace entry and of the state
    of the engine. *)
Definition mirror_position (p : R * R * R) : R * R * R :=
  let '(px, py, pz) := p in ((- px)%R, (- py)%R, pz).

Definition mirror_electron (e : Electron R) : Electron R :=
  {| x := (- x e)%R; y := (- y e)%R; z := z e;
     vx := (- vx e)%R; vy := (- vy e)%R; vz := vz e;
     path := map mirror_position (path e);
     initial_acceleration_done := initial_acceleration_done e |}.

Definition mirror_trace (t : Trace R) : Trace R :=
  {| trace_x := (- trace_x t)%R; trace_y := (- trace_y t)%R;
     trace_time := trace_time t; trace_brightness := trace_brightness t |}.

Definition mirror_state (s : CRTSimulation R) : CRTSimulation R :=
  {| mode := mode s; time := time s; electron := mirror_electron (electron s);
     screen_traces := map mirror_trace (screen_traces s);
     simulation_speed := simulation_speed s; sliders := sliders s |}.

(** The layout and the slider ranges, for each variant. *)
Definition ranges_kept (w : Window R) : Prop :=
  layout_kept w /\ Forall slider_in_range (sliders_list (controls w)).

Definition prueba_ranges_kept (w : Window R) : Prop :=
  PruebaWindow.layout_kept w /\ Forall slider_in_range (sliders_list (controls w)).

(** Both plate voltages lie between -300 V and 300 V. *)
Definition within_300 (v : R * R) : Prop :=
  (-300 <= fst v <= 300)%R /\ (-300 <= snd v <= 300)%R.

(** ** [simulacionChatGPT.py]: the deflection model of the third program *)

(** The literals of [simulacionChatGPT.py] that [Num] does not hold. *)
Class ScopeLiterals (F : Type) : Type := {
  lit_0_006 : F;
  lit_0_95 : F;
  lit_1e_9 : F
}.

#[export] Instance float_scope_literals : ScopeLiterals float := {
  lit_0_006 := 0.006%float;
  lit_0_95 := 0.95%float;
  lit_1e_9 := 1e-9%float
}.

#[export] Instance real_scope_literals : ScopeLiterals R := {
  lit_0_006 := 0.006%R;
  lit_0_95 := 0.95%R;
  lit_1e_9 := 1e-9%R
}.

Module SimulacionChatGPT.
Section Defs.
Context {F : Type} {num : Num F} {trig : Trig F} {literals : ScopeLiterals F}.
Local Open Scope num_scope.

(** [GEO = Geometry()] and [SCREEN_SCALE]. *)
Definition plate_len : F := lit_0_05.
Definition plate_gap : F := lit_0_006.
Definition drift : F := lit_0_20.
Definition SCREEN_SCALE : F := of_Z 10.

(** [np.maximum], [np.minimum] and [np.clip(a, a_min, a_max)], which is
    [np.minimum(a_max, np.maximum(a, a_min))]; a NaN operand gives NaN (the
    last branch, reached only when the operands do not compare). *)
Definition np_maximum (a b : F) : F :=
  if a <? b then b else if b <=? a then a else a + b.

Definition np_minimum (a b : F) : F :=
  if b <? a then b else if a <=? b then a else a + b.

Definition np_clip (a a_min a_max : F) : F :=
  np_minimum a_max (np_maximum a a_min).

(** [deflection_gain(Va)] with the default geometry. *)
Definition deflection_gain (Va : F) : F :=
  let Va_eff := py_max Va lit_0_05 in
  let K_meters := (plate_len * (drift + plate_len / of_Z 2)) / (of_Z 2 * plate_gap) in
  SCREEN_SCALE * K_meters / Va_eff.

(** The fields of [class Controls] that [compute_xy] reads. *)
Record Controls : Type := mkControls {
  Va : F;
  Vx : F;
  Vy : F;
  fx : F;
  fy : F;
  phx : F;
  phy : F
}.

(** [compute_xy(t)], on the controls [C] and the flag [S.mode_lissajous]. *)
Definition compute_xy (C : Controls) (mode_lissajous : bool) (t : F) : F * F :=
  let K := deflection_gain (Va C) in
  let margin := SCREEN_SCALE * lit_0_95 in
  if mode_lissajous then
    let vx := Vx C * sin (of_Z 2 * pi * fx C * t + phx C) in
    let vy := Vy C * sin (of_Z 2 * pi * fy C * t + phy C) in
    let raw_x := K * vx in
    let raw_y := K * vy in
    let max_abs := py_max (py_max (abs raw_x) (abs raw_y)) lit_1e_9 in
    let scale := py_min (of_Z 1) (margin / max_abs) in
    (raw_x * scale, raw_y * scale)
  else
    let raw_x := K * Vx C in
    let raw_y := K * Vy C in
    (np_clip raw_x (- margin) margin, np_clip raw_y (- margin) margin).

(** [Vlim] of [_actualizar_rangos_voltajes]: the range it gives the two
    plate sliders is [-Vlim .. Vlim]. *)
Definition Vlim (C : Controls) : F :=
  let K := deflection_gain (Va C) in
  let margin := SCREEN_SCALE * lit_0_95 in
  margin / py_max K lit_1e_9.

End Defs.
End SimulacionChatGPT.

(** ** Vocabulary of binary64

    The comparison of two binary64 values, and three classes of
    floating-point numbers by sign. *)

Definition fcmp (a b : float) : option comparison :=
  SFcompare (Prim2SF a) (Prim2SF b).




(** * Properties *)

(** ** The bounded buffer *)

Section Deque.
Context {A : Type}.

Lemma deque_append_length (maxlen : nat) (d : list A) (a : A) :
  (length d <= maxlen -> length (deque_append maxlen d a) <= maxlen)%nat.
Proof.
  intros Hd. unfold deque_append.
  destruct (Nat.ltb_spec maxlen (length (d ++ [a]))) as [Hlt | Hge].
  - destruct d as [| b d]; cbn in *; [lia |].
    rewrite length_app in *. cbn in *. lia.
  - exact Hge.
Qed.

(** Below capacity nothing is dropped; at capacity the head is. *)
Lemma deque_append_room (maxlen : nat) (d : list A) (a : A) :
  (length d < maxlen)%nat -> deque_append maxlen d a = d ++ [a].
Proof.
  intros Hd. unfold deque_append.
  destruct (Nat.ltb_spec maxlen (length (d ++ [a]))) as [Hlt | Hge]; [| reflexivity].
  rewrite length_app in Hlt. cbn in Hlt. lia.
Qed.

Lemma deque_append_full (maxlen : nat) (d : list A) (a : A) :
  length d = maxlen -> deque_append maxlen d a = tl (d ++ [a]).
Proof.
  intros Hd. unfold deque_append.
  destruct (Nat.ltb_spec maxlen (length (d ++ [a]))) as [Hlt | Hge]; [reflexivity |].
  rewrite length_app in Hge. cbn in Hge. lia.
Qed.

Lemma tl_skipn (k : nat) (l : list A) : tl (skipn k l) = skipn (S k) l.
Proof.
  revert l. induction k as [| k IH]; intros [| b l]; try reflexivity.
  change (tl (skipn k l) = skipn (S k) l). apply IH.
Qed.

(** After any sequence of appends to a buffer within capacity, the buffer is
    the last [maxlen] elements of everything it ever held, in order. *)
Lemma deque_appends_suffix (maxlen : nat) (evs d : list A) :
  (length d <= maxlen)%nat ->
  fold_left (deque_append maxlen) evs d
  = skipn (length (d ++ evs) - maxlen) (d ++ evs).
Proof.
  intros Hd. induction evs as [| a evs IH] using rev_ind.
  - cbn. rewrite app_nil_r.
    replace (length d - maxlen)%nat with 0%nat by lia. reflexivity.
  - rewrite fold_left_app. cbn [fold_left]. rewrite IH.
    set (L := d ++ evs). set (k := (length L - maxlen)%nat).
    assert (Hk : (k <= length L)%nat) by (unfold k; lia).
    assert (Hlen : length (skipn k L) = (length L - k)%nat) by apply length_skipn.
    assert (Happ : skipn k L ++ [a] = skipn k (d ++ evs ++ [a])).
    { rewrite app_assoc. fold L. rewrite skipn_app.
      replace (k - length L)%nat with 0%nat by lia. reflexivity. }
    assert (Htot : length (d ++ evs ++ [a]) = S (length L)).
    { rewrite app_assoc. fold L. rewrite length_app. cbn. lia. }
    destruct (Nat.le_gt_cases maxlen (length L)) as [Hfull | Hroom].
    + rewrite deque_append_full by (rewrite Hlen; unfold k; lia).
      rewrite Happ, tl_skipn, Htot. f_equal. unfold k. lia.
    + rewrite deque_append_room by (rewrite Hlen; unfold k; lia).
      rewrite Happ, Htot. f_equal. unfold k. lia.
Qed.

(** An append puts the new element last, behind the old buffer or, at
    capacity, behind the old buffer without its head. *)
Lemma deque_append_snoc (maxlen : nat) (d : list A) (a : A) :
  (0 < maxlen)%nat ->
  deque_append maxlen d a
  = (if (length d <? maxlen)%nat then d else tl d) ++ [a].
Proof.
  intros Hpos. unfold deque_append. rewrite length_app. cbn [length].
  destruct (Nat.ltb_spec (length d) maxlen) as [Hroom | Hfull].
  - destruct (Nat.ltb_spec maxlen (length d + 1)) as [Hlt | Hge]; [lia | reflexivity].
  - destruct (Nat.ltb_spec maxlen (length d + 1)) as [Hlt | Hge]; [| lia].
    destruct d as [| b d]; [cbn in Hfull; lia | reflexivity].
Qed.

End Deque.

Lemma deque_append_map {A B : Type} (f : A -> B) (maxlen : nat)
  (d : list A) (a : A) :
  map f (deque_append maxlen d a) = deque_append maxlen (map f d) (f a).
Proof.
  unfold deque_append.
  replace (map f d ++ [f a]) with (map f (d ++ [a]))
    by (rewrite map_app; reflexivity).
  rewrite length_map.
  destruct (maxlen <? length (d ++ [a]))%nat; [| reflexivity].
  destruct (d ++ [a]); reflexivity.
Qed.

(** ** [Electron.update] of [Simul.py], for every arithmetic *)

Section UpdateFacts.
Context {F : Type} {num : Num F}.
Local Open Scope num_scope.

(** What each block reads and writes. *)
Lemma initial_acceleration_eq (Va : F) (e : Electron F) :
  Simul.initial_acceleration Va e
  = {| x := x e; y := y e; z := z e; vx := vx e; vy := vy e;
       vz := if negb (initial_acceleration_done e) && accelerates Va
             then impulse_speed Va else vz e;
       path := path e;
       initial_acceleration_done :=
         initial_acceleration_done e || accelerates Va |}.
Proof.
  unfold Simul.initial_acceleration, accelerates, impulse_speed.
  destruct e as [ex ey ez evx evy evz ep ed]. cbn [initial_acceleration_done vz].
  destruct ed, (of_Z 0 <? abs Va); reflexivity.
Qed.

Lemma vertical_deflection_eq (dt Vv : F) (e : Electron F) :
  Simul.vertical_deflection dt Vv e
  = set_vy (if in_vertical_plates e
            then vy e + Simul.acceleration_y Vv * dt else vy e) e.
Proof.
  unfold Simul.vertical_deflection.
  destruct (in_vertical_plates e); [reflexivity |].
  destruct e; reflexivity.
Qed.

Lemma horizontal_deflection_eq (dt Vh : F) (e : Electron F) :
  Simul.horizontal_deflection dt Vh e
  = set_vx (if in_horizontal_plates e
            then vx e + Simul.acceleration_x Vh * dt else vx e) e.
Proof.
  unfold Simul.horizontal_deflection.
  destruct (in_horizontal_plates e); [reflexivity |].
  destruct e; reflexivity.
Qed.

(** [update] in one piece: the three guards, read on the incoming state,
    decide the new velocities; the position moves by the new velocities; the
    new position is recorded. *)
Lemma update_unfold (dt Va Vv Vh : F) (e : Electron F) :
  Simul.update dt Va Vv Vh e
  = {| x := x e + vx (Simul.update dt Va Vv Vh e) * dt;
       y := y e + vy (Simul.update dt Va Vv Vh e) * dt;
       z := z e + vz (Simul.update dt Va Vv Vh e) * dt;
       vx := if in_horizontal_plates e
             then vx e + Simul.acceleration_x Vh * dt else vx e;
       vy := if in_vertical_plates e
             then vy e + Simul.acceleration_y Vv * dt else vy e;
       vz := if negb (initial_acceleration_done e) && accelerates Va
             then impulse_speed Va else vz e;
       path := deque_append 1000 (path e)
                 (x (Simul.update dt Va Vv Vh e),
                  y (Simul.update dt Va Vv Vh e),
                  z (Simul.update dt Va Vv Vh e));
       initial_acceleration_done :=
         initial_acceleration_done e || accelerates Va |}.
Proof.
  unfold Simul.update.
  rewrite initial_acceleration_eq, vertical_deflection_eq, horizontal_deflection_eq.
  reflexivity.
Qed.

Lemma update_vz (dt Va Vv Vh : F) (e : Electron F) :
  vz (Simul.update dt Va Vv Vh e)
  = if negb (initial_acceleration_done e) && accelerates Va
    then impulse_speed Va else vz e.
Proof. rewrite update_unfold at 1. reflexivity. Qed.

Lemma update_done (dt Va Vv Vh : F) (e : Electron F) :
  initial_acceleration_done (Simul.update dt Va Vv Vh e)
  = initial_acceleration_done e || accelerates Va.
Proof. rewrite update_unfold at 1. reflexivity. Qed.

Lemma update_vy (dt Va Vv Vh : F) (e : Electron F) :
  vy (Simul.update dt Va Vv Vh e)
  = if in_vertical_plates e
    then vy e + Simul.acceleration_y Vv * dt else vy e.
Proof. rewrite update_unfold at 1. reflexivity. Qed.

Lemma update_vx (dt Va Vv Vh : F) (e : Electron F) :
  vx (Simul.update dt Va Vv Vh e)
  = if in_horizontal_plates e
    then vx e + Simul.acceleration_x Vh * dt else vx e.
Proof. rewrite update_unfold at 1. reflexivity. Qed.

Lemma update_x (dt Va Vv Vh : F) (e : Electron F) :
  x (Simul.update dt Va Vv Vh e) = x e + vx (Simul.update dt Va Vv Vh e) * dt.
Proof. rewrite update_unfold at 1. reflexivity. Qed.

Lemma update_y (dt Va Vv Vh : F) (e : Electron F) :
  y (Simul.update dt Va Vv Vh e) = y e + vy (Simul.update dt Va Vv Vh e) * dt.
Proof. rewrite update_unfold at 1. reflexivity. Qed.

Lemma update_z (dt Va Vv Vh : F) (e : Electron F) :
  z (Simul.update dt Va Vv Vh e) = z e + vz (Simul.update dt Va Vv Vh e) * dt.
Proof. rewrite update_unfold at 1. reflexivity. Qed.

(** A call whose acceleration voltage has [|Va| > 0] false leaves the axial
    velocity and the flag as they are. *)
Lemma update_without_impulse (dt Va Vv Vh : F) (e : Electron F) :
  accelerates Va = false ->
  vz (Simul.update dt Va Vv Vh e) = vz e
  /\ initial_acceleration_done (Simul.update dt Va Vv Vh e)
     = initial_acceleration_done e.
Proof.
  intros Ha. rewrite update_vz, update_done, Ha.
  rewrite andb_false_r, orb_false_r. split; reflexivity.
Qed.

(** Once the flag is set no call changes [vz], whatever its voltages. *)
Lemma updates_after_impulse (calls : list Call) (e : Electron F) :
  initial_acceleration_done e = true ->
  vz (updates calls e) = vz e
  /\ initial_acceleration_done (updates calls e) = true.
Proof.
  revert e. induction calls as [| [[[dt Va] Vv] Vh] calls IH]; intros e Hd.
  - split; [reflexivity | exact Hd].
  - change (updates (_ :: calls) e)
      with (updates calls (Simul.update dt Va Vv Vh e)).
    destruct (IH (Simul.update dt Va Vv Vh e)) as [IHv IHd].
    + rewrite update_done, Hd. reflexivity.
    + rewrite IHv, IHd, update_vz, Hd. split; reflexivity.
Qed.

Lemma updates_without_impulse (calls : list Call) (e : Electron F) :
  (forall c, In c calls -> accelerates (call_voltage c) = false) ->
  vz (updates calls e) = vz e
  /\ initial_acceleration_done (updates calls e) = initial_acceleration_done e.
Proof.
  revert e. induction calls as [| [[[dt Va] Vv] Vh] calls IH]; intros e Hc.
  - split; reflexivity.
  - change (updates (_ :: calls) e)
      with (updates calls (Simul.update dt Va Vv Vh e)).
    destruct (update_without_impulse dt Va Vv Vh e) as [Hv Hd].
    { apply (Hc (dt, Va, Vv, Vh)). left. reflexivity. }
    destruct (IH (Simul.update dt Va Vv Vh e)) as [IHv IHd].
    { intros c Hin. apply Hc. right. exact Hin. }
    rewrite IHv, IHd, Hv, Hd. split; reflexivity.
Qed.

Lemma updates_app (c1 c2 : list Call) (e : Electron F) :
  updates (c1 ++ c2) e = updates c2 (updates c1 e).
Proof. unfold updates. apply fold_left_app. Qed.

(** C2.  Take an electron without the impulse (as after [reset]) and a
    sequence of [update] calls: as long as the calls have [|Va| > 0] false,
    [vz] stays; the first call with [|Va| > 0] sets [vz] to
    [sqrt(2 * q * |Va| / m)] of its own voltage; every later call of the
    transit leaves that value, whatever acceleration voltage it carries. *)
Theorem vz_assigned_once
  (e : Electron F) (earlier later : list Call) (dt Va Vv Vh : F) :
  initial_acceleration_done e = false ->
  (forall c, In c earlier -> (of_Z 0 <? abs (call_voltage c)) = false) ->
  (of_Z 0 <? abs Va) = true ->
  vz (updates earlier e) = vz e
  /\ vz (updates (earlier ++ [(dt, Va, Vv, Vh)]) e)
     = sqrt (of_Z 2 * Simul.ELECTRON_CHARGE * abs Va / ELECTRON_MASS)
  /\ vz (updates (earlier ++ (dt, Va, Vv, Vh) :: later) e)
     = sqrt (of_Z 2 * Simul.ELECTRON_CHARGE * abs Va / ELECTRON_MASS).
Proof.
  intros Hd Hearlier Ha.
  destruct (updates_without_impulse earlier e Hearlier) as [Hv0 Hd0].
  assert (Hfirst : vz (updates (earlier ++ [(dt, Va, Vv, Vh)]) e)
                   = impulse_speed Va).
  { rewrite updates_app.
    change (updates [(dt, Va, Vv, Vh)] (updates earlier e))
      with (Simul.update dt Va Vv Vh (updates earlier e)).
    rewrite update_vz, Hd0, Hd. unfold accelerates. rewrite Ha. reflexivity. }
  split; [exact Hv0 |]. split; [exact Hfirst |].
  change (earlier ++ (dt, Va, Vv, Vh) :: later)
    with (earlier ++ [(dt, Va, Vv, Vh)] ++ later).
  rewrite app_assoc, updates_app.
  destruct (updates_after_impulse later (updates (earlier ++ [(dt, Va, Vv, Vh)]) e))
    as [Hv _].
  - rewrite updates_app.
    change (updates [(dt, Va, Vv, Vh)] (updates earlier e))
      with (Simul.update dt Va Vv Vh (updates earlier e)).
    rewrite update_done. unfold accelerates. rewrite Ha. apply orb_true_r.
  - exact (eq_trans Hv Hfirst).
Qed.

(** The guards, conjunct by conjunct. *)
Lemma in_vertical_plates_false (e : Electron F) :
  (vertical_plate_start <=? z e) = false
  \/ (z e <=? vertical_plate_end) = false
  \/ (abs (y e) <? PLATE_SEPARATION / of_Z 2) = false ->
  in_vertical_plates e = false.
Proof.
  unfold in_vertical_plates. intros [H | [H | H]]; rewrite H.
  - reflexivity.
  - apply andb_false_intro1, andb_false_r.
  - apply andb_false_r.
Qed.

Lemma in_horizontal_plates_false (e : Electron F) :
  (horizontal_plate_start <=? z e) = false
  \/ (z e <=? horizontal_plate_end) = false
  \/ (abs (x e) <? PLATE_SEPARATION / of_Z 2) = false ->
  in_horizontal_plates e = false.
Proof.
  unfold in_horizontal_plates. intros [H | [H | H]]; rewrite H.
  - reflexivity.
  - apply andb_false_intro1, andb_false_r.
  - apply andb_false_r.
Qed.

Lemma in_vertical_plates_true (e : Electron F) :
  in_vertical_plates e = true ->
  (vertical_plate_start <=? z e) = true
  /\ (z e <=? vertical_plate_end) = true
  /\ (abs (y e) <? PLATE_SEPARATION / of_Z 2) = true.
Proof.
  unfold in_vertical_plates. intros H.
  apply andb_prop in H. destruct H as [H H3].
  apply andb_prop in H. destruct H as [H1 H2]. auto.
Qed.

Lemma in_horizontal_plates_true (e : Electron F) :
  in_horizontal_plates e = true ->
  (horizontal_plate_start <=? z e) = true
  /\ (z e <=? horizontal_plate_end) = true
  /\ (abs (x e) <? PLATE_SEPARATION / of_Z 2) = true.
Proof.
  unfold in_horizontal_plates. intros H.
  apply andb_prop in H. destruct H as [H H3].
  apply andb_prop in H. destruct H as [H1 H2]. auto.
Qed.

(** C7.  In a call of [update], [vy] changes only when [z] lies in
    [[a, a+l]] and [|y| < d/2], and then by [acceleration_y * dt]; [vx]
    changes only when [z] lies in [[a+l+g, a+l+g+l]] and [|x| < d/2], and then
    by [acceleration_x * dt].  When [z] is outside the interval or the
    lateral coordinate fails [|.| < d/2], that velocity is returned as it
    was.  ([vertical_plate_start] is [a], [vertical_plate_end] is [a+l],
    [horizontal_plate_start] is [a+l+g], [horizontal_plate_end] is
    [a+l+g+l].) *)
Theorem field_acts_between_plates_only (dt Va Vv Vh : F) (e : Electron F) :
  (vy (Simul.update dt Va Vv Vh e) <> vy e ->
     (vertical_plate_start <=? z e) = true
     /\ (z e <=? vertical_plate_end) = true
     /\ (abs (y e) <? PLATE_SEPARATION / of_Z 2) = true
     /\ vy (Simul.update dt Va Vv Vh e) = vy e + Simul.acceleration_y Vv * dt)
  /\ (vx (Simul.update dt Va Vv Vh e) <> vx e ->
     (horizontal_plate_start <=? z e) = true
     /\ (z e <=? horizontal_plate_end) = true
     /\ (abs (x e) <? PLATE_SEPARATION / of_Z 2) = true
     /\ vx (Simul.update dt Va Vv Vh e) = vx e + Simul.acceleration_x Vh * dt)
  /\ ((vertical_plate_start <=? z e) = false
      \/ (z e <=? vertical_plate_end) = false
      \/ (abs (y e) <? PLATE_SEPARATION / of_Z 2) = false ->
      vy (Simul.update dt Va Vv Vh e) = vy e)
  /\ ((horizontal_plate_start <=? z e) = false
      \/ (z e <=? horizontal_plate_end) = false
      \/ (abs (x e) <? PLATE_SEPARATION / of_Z 2) = false ->
      vx (Simul.update dt Va Vv Vh e) = vx e).
Proof.
  rewrite update_vy, update_vx.
  split; [| split; [| split]].
  - destruct (in_vertical_plates e) eqn:Hin; intros Hne.
    + destruct (in_vertical_plates_true e Hin) as [H1 [H2 H3]]. auto.
    + exfalso. apply Hne. reflexivity.
  - destruct (in_horizontal_plates e) eqn:Hin; intros Hne.
    + destruct (in_horizontal_plates_true e Hin) as [H1 [H2 H3]]. auto.
    + exfalso. apply Hne. reflexivity.
  - intros Hout. rewrite (in_vertical_plates_false e Hout). reflexivity.
  - intros Hout. rewrite (in_horizontal_plates_false e Hout). reflexivity.
Qed.

(** C8.  A call of [update] first brings [vy] and [vx] up to date (adding
    acceleration times [dt] where the guard holds) and then moves [x], [y],
    [z] by the velocities of the returned state, that is the updated ones,
    times [dt]. *)
Theorem velocity_then_position (dt Va Vv Vh : F) (e : Electron F) :
  vy (Simul.update dt Va Vv Vh e)
    = (if in_vertical_plates e
       then vy e + Simul.acceleration_y Vv * dt else vy e)
  /\ vx (Simul.update dt Va Vv Vh e)
    = (if in_horizontal_plates e
       then vx e + Simul.acceleration_x Vh * dt else vx e)
  /\ x (Simul.update dt Va Vv Vh e) = x e + vx (Simul.update dt Va Vv Vh e) * dt
  /\ y (Simul.update dt Va Vv Vh e) = y e + vy (Simul.update dt Va Vv Vh e) * dt
  /\ z (Simul.update dt Va Vv Vh e) = z e + vz (Simul.update dt Va Vv Vh e) * dt.
Proof.
  split; [apply update_vy |].
  split; [apply update_vx |].
  split; [apply update_x |].
  split; [apply update_y | apply update_z].
Qed.

End UpdateFacts.

(** ** [Electron.update] of [simul_prueba.py], for every arithmetic *)

Section PruebaUpdateFacts.
Context {F : Type} {num : Num F}.
Local Open Scope num_scope.

Lemma prueba_initial_acceleration_reads (Va : F) (e : Electron F) :
  x (Prueba.initial_acceleration Va e) = x e
  /\ y (Prueba.initial_acceleration Va e) = y e
  /\ z (Prueba.initial_acceleration Va e) = z e
  /\ vx (Prueba.initial_acceleration Va e) = vx e
  /\ vy (Prueba.initial_acceleration Va e) = vy e.
Proof.
  unfold Prueba.initial_acceleration.
  destruct (negb (initial_acceleration_done e) && (of_Z 0 <? abs Va));
    repeat split; reflexivity.
Qed.

Lemma prueba_guards_after_initial_acceleration (Va : F) (e : Electron F) :
  in_vertical_plates (Prueba.initial_acceleration Va e) = in_vertical_plates e
  /\ in_horizontal_plates (Prueba.initial_acceleration Va e)
     = in_horizontal_plates e.
Proof.
  destruct (prueba_initial_acceleration_reads Va e) as [Hx [Hy [Hz _]]].
  unfold in_vertical_plates, in_horizontal_plates.
  rewrite Hx, Hy, Hz. split; reflexivity.
Qed.

Lemma prueba_update_vy (dt Va Vv Vh : F) (e : Electron F) :
  vy (Prueba.update dt Va Vv Vh e)
  = if in_vertical_plates e then vy e + Prueba.ay Vv * dt else vy e.
Proof.
  destruct (prueba_initial_acceleration_reads Va e) as [_ [_ [_ [_ Hvy]]]].
  destruct (prueba_guards_after_initial_acceleration Va e) as [Hgv _].
  unfold Prueba.update, Prueba.vertical_deflection, Prueba.horizontal_deflection.
  cbv zeta. rewrite Hgv.
  destruct (in_vertical_plates e);
    match goal with
    | |- context [if ?c then _ else _] => destruct c
    end; cbn [move set_x set_y set_z set_vx set_vy path_append vy];
    rewrite ?Hvy; reflexivity.
Qed.

Lemma prueba_update_vx (dt Va Vv Vh : F) (e : Electron F) :
  vx (Prueba.update dt Va Vv Vh e)
  = if in_horizontal_plates e then vx e + Prueba.ax Vh * dt else vx e.
Proof.
  destruct (prueba_initial_acceleration_reads Va e) as [_ [_ [_ [Hvx _]]]].
  destruct (prueba_guards_after_initial_acceleration Va e) as [Hgv Hgh].
  unfold Prueba.update, Prueba.vertical_deflection, Prueba.horizontal_deflection.
  cbv zeta. rewrite Hgv.
  destruct (in_vertical_plates e).
  - change (in_horizontal_plates (set_vy ?v ?a)) with (in_horizontal_plates a).
    rewrite Hgh.
    destruct (in_horizontal_plates e);
      cbn [move set_x set_y set_z set_vx set_vy path_append vx];
      rewrite ?Hvx; reflexivity.
  - rewrite Hgh.
    destruct (in_horizontal_plates e);
      cbn [move set_x set_y set_z set_vx set_vy path_append vx];
      rewrite ?Hvx; reflexivity.
Qed.

End PruebaUpdateFacts.

(** ** The sub-step loop of [update_physics] *)

Section SubstepFacts.
Context {F : Type} {num : Num F}.
Local Open Scope num_scope.

Lemma substep_screen_traces (dt Vv Vh : F) (s : CRTSimulation F) :
  screen_traces (Simul.substep dt Vv Vh s)
  = if has_hit_screen (moved dt Vv Vh s)
    then if is_within_screen_bounds (moved dt Vv Vh s)
         then screen_traces_append (screen_traces s)
                (hit_trace s (moved dt Vv Vh s))
         else screen_traces s
    else screen_traces s.
Proof.
  unfold Simul.substep. fold (moved dt Vv Vh s).
  destruct (has_hit_screen (moved dt Vv Vh s)); [| reflexivity].
  destruct (is_within_screen_bounds (moved dt Vv Vh s)); reflexivity.
Qed.

Lemma substep_electron (dt Vv Vh : F) (s : CRTSimulation F) :
  electron (Simul.substep dt Vv Vh s)
  = if has_hit_screen (moved dt Vv Vh s) then reset else moved dt Vv Vh s.
Proof.
  unfold Simul.substep. fold (moved dt Vv Vh s).
  destruct (has_hit_screen (moved dt Vv Vh s)); reflexivity.
Qed.

(** The sub-step assigns the electron and the trace buffer, nothing else. *)
Lemma substep_frame (dt Vv Vh : F) (s : CRTSimulation F) :
  mode (Simul.substep dt Vv Vh s) = mode s
  /\ time (Simul.substep dt Vv Vh s) = time s
  /\ simulation_speed (Simul.substep dt Vv Vh s) = simulation_speed s
  /\ sliders (Simul.substep dt Vv Vh s) = sliders s.
Proof.
  unfold Simul.substep.
  destruct (has_hit_screen _); cbn; auto.
Qed.

(** C6.  When the moved electron has reached the screen plane, the sub-step
    records the hit exactly when [|x| <= SCREEN_SIZE/2] and
    [|y| <= SCREEN_SIZE/2], both comparisons inclusive.  A hit within the
    bounds is in the buffer afterwards, as its last entry: the entry holds
    the [x] and [y] of the electron, the current time and the brightness
    [min(1, Va / 4000)], and stands behind the entries the buffer held (all
    of them, or all but the oldest when the buffer held 5000).  A hit outside
    the bounds leaves the buffer as it was.  In both cases the electron is
    reset. *)
Theorem trace_recorded_iff_within_bounds (dt Vv Vh : F) (s : CRTSimulation F) :
  has_hit_screen (moved dt Vv Vh s) = true ->
  screen_traces (Simul.substep dt Vv Vh s)
  = (if (abs (x (moved dt Vv Vh s)) <=? SCREEN_SIZE / of_Z 2)
        && (abs (y (moved dt Vv Vh s)) <=? SCREEN_SIZE / of_Z 2)
     then (if (length (screen_traces s) <? 5000)%nat
           then screen_traces s else tl (screen_traces s))
          ++ [{| trace_x := x (moved dt Vv Vh s);
                 trace_y := y (moved dt Vv Vh s);
                 trace_time := time s;
                 trace_brightness :=
                   py_min (of_Z 1) (acceleration_voltage (sliders s) / of_Z 4000) |}]
     else screen_traces s)
  /\ electron (Simul.substep dt Vv Vh s) = reset.
Proof.
  intros Hhit. rewrite substep_screen_traces, substep_electron, Hhit.
  split; [| reflexivity].
  unfold is_within_screen_bounds.
  destruct ((abs (x (moved dt Vv Vh s)) <=? SCREEN_SIZE / of_Z 2)
            && (abs (y (moved dt Vv Vh s)) <=? SCREEN_SIZE / of_Z 2));
    [| reflexivity].
  unfold screen_traces_append. rewrite deque_append_snoc by lia.
  reflexivity.
Qed.

(** Without a hit the buffer is not touched. *)
Lemma no_hit_no_trace (dt Vv Vh : F) (s : CRTSimulation F) :
  has_hit_screen (moved dt Vv Vh s) = false ->
  screen_traces (Simul.substep dt Vv Vh s) = screen_traces s.
Proof. intros Hhit. rewrite substep_screen_traces, Hhit. reflexivity. Qed.

(** The only change a sub-step makes to the buffer is one [append]. *)
Lemma substep_appends (dt Vv Vh : F) (s : CRTSimulation F) :
  screen_traces (Simul.substep dt Vv Vh s) = screen_traces s
  \/ exists t, screen_traces (Simul.substep dt Vv Vh s)
               = screen_traces_append (screen_traces s) t.
Proof.
  rewrite substep_screen_traces.
  destruct (has_hit_screen _); [| left; reflexivity].
  destruct (is_within_screen_bounds _); [right; eexists | left]; reflexivity.
Qed.

Lemma substep_capacity (dt Vv Vh : F) (s : CRTSimulation F) :
  (length (screen_traces s) <= 5000)%nat ->
  (length (screen_traces (Simul.substep dt Vv Vh s)) <= 5000)%nat.
Proof.
  intros Hs. destruct (substep_appends dt Vv Vh s) as [H | [t H]]; rewrite H.
  - exact Hs.
  - apply deque_append_length. exact Hs.
Qed.

Lemma substeps_capacity (n : nat) (dt Vv Vh : F) (s : CRTSimulation F) :
  (length (screen_traces s) <= 5000)%nat ->
  (length (screen_traces (Nat.iter n (Simul.substep dt Vv Vh) s)) <= 5000)%nat.
Proof.
  intros Hs. induction n as [| n IH]; [exact Hs |].
  cbn [Nat.iter nat_rect]. apply substep_capacity, IH.
Qed.

(** C9.  Whatever sequence of entries is appended to the (initially empty)
    trace buffer, the buffer never holds more than 5000 of them and is the
    last 5000 appended, in the order of appending; an append to a buffer of
    5000 entries drops the oldest one, the head, and keeps the rest in
    order. *)
Theorem trace_buffer_capacity_fifo (evs : list (Trace F)) :
  (length (fold_left screen_traces_append evs []) <= 5000)%nat
  /\ fold_left screen_traces_append evs [] = skipn (length evs - 5000) evs
  /\ (forall t : Trace F,
        length (fold_left screen_traces_append evs []) = 5000%nat ->
        screen_traces_append (fold_left screen_traces_append evs []) t
        = tl (fold_left screen_traces_append evs []) ++ [t]).
Proof.
  assert (Hsuffix : fold_left screen_traces_append evs []
                    = skipn (length evs - 5000) evs).
  { exact (deque_appends_suffix 5000 evs [] (Nat.le_0_l 5000)). }
  split; [| split].
  - rewrite Hsuffix, length_skipn. lia.
  - exact Hsuffix.
  - intros t Hfull. unfold screen_traces_append at 1.
    rewrite deque_append_full by exact Hfull.
    destruct (fold_left screen_traces_append evs []); [discriminate | reflexivity].
Qed.

End SubstepFacts.

(** ** Runs of the engine and the frame clock *)

Section RunFacts.
Context {F : Type} {num : Num F} {trig : Trig F}.
Local Open Scope num_scope.

Lemma run_from_agree (clock1 clock2 : nat -> Z) (n : nat) :
  forall (i : nat) (s : CRTSimulation F),
    (forall j, (i <= j < i + n)%nat -> clock1 j = clock2 j) ->
    Simul.run_from clock1 i n s = Simul.run_from clock2 i n s.
Proof.
  induction n as [| n IH]; intros i s Hagree.
  - reflexivity.
  - cbn [Simul.run_from].
    rewrite (Hagree i) by lia.
    apply IH. intros j Hj. apply Hagree. lia.
Qed.

Lemma simul_frame_paused (c : Z) (s : CRTSimulation F) :
  simulation_speed s = 0%Z -> Simul.frame c s = s.
Proof.
  intros Hp. unfold Simul.frame, Simul.update_physics.
  rewrite Hp. cbn [Z.eqb]. rewrite Hp. reflexivity.
Qed.

Lemma run_from_paused (clock : nat -> Z) (n : nat) :
  forall (i : nat) (s : CRTSimulation F),
    simulation_speed s = 0%Z -> Simul.run_from clock i n s = s.
Proof.
  induction n as [| n IH]; intros i s Hp; [reflexivity |].
  cbn [Simul.run_from]. rewrite simul_frame_paused by exact Hp.
  apply IH, Hp.
Qed.

(** *** What the clock reading can reach

    In manual mode the plate voltages come from the sliders, so the electron
    and its path do not depend on the clock; the reading enters the time,
    hence the time stamps of the traces and, in waveform mode, the
    voltages. *)

Lemma substep_same_motion (dt Vv Vh : F) (s1 s2 : CRTSimulation F) :
  same_motion s1 s2 ->
  same_motion (Simul.substep dt Vv Vh s1) (Simul.substep dt Vv Vh s2).
Proof.
  intros [Hm1 [Hm2 [He [Hs Hv]]]].
  destruct (substep_frame dt Vv Vh s1) as [Hmode1 [_ [Hspeed1 Hsl1]]].
  destruct (substep_frame dt Vv Vh s2) as [Hmode2 [_ [Hspeed2 Hsl2]]].
  unfold same_motion.
  rewrite Hmode1, Hmode2, Hspeed1, Hspeed2, Hsl1, Hsl2.
  rewrite !substep_electron. unfold moved. rewrite He, Hs.
  repeat split; assumption || reflexivity.
Qed.

Lemma substeps_same_motion (k : nat) (dt Vv Vh : F) (s1 s2 : CRTSimulation F) :
  same_motion s1 s2 ->
  same_motion (Nat.iter k (Simul.substep dt Vv Vh) s1)
              (Nat.iter k (Simul.substep dt Vv Vh) s2).
Proof.
  intros H. induction k as [| k IH]; [exact H |].
  cbn [Nat.iter nat_rect]. apply substep_same_motion, IH.
Qed.

Lemma set_time_same_motion (t1 t2 : F) (s1 s2 : CRTSimulation F) :
  same_motion s1 s2 -> same_motion (set_time t1 s1) (set_time t2 s2).
Proof. intros H. exact H. Qed.

Lemma frame_same_motion (c1 c2 : Z) (s1 s2 : CRTSimulation F) :
  same_motion s1 s2 ->
  same_motion (Simul.frame c1 s1) (Simul.frame c2 s2).
Proof.
  intros H.
  assert (Hup : same_motion (Simul.update_physics c1 s1)
                            (Simul.update_physics c2 s2)).
  { pose proof H as [Hm1 [Hm2 [_ [Hs Hv]]]].
    unfold Simul.update_physics. rewrite <- Hv.
    destruct (simulation_speed s1 =? 0)%Z; [exact H |].
    unfold Simul.get_voltages.
    cbn [mode sliders set_time]. rewrite Hm1, Hm2, Hs.
    apply substeps_same_motion, set_time_same_motion, H. }
  unfold Simul.frame.
  pose proof Hup as [_ [_ [_ [_ Hv']]]]. rewrite <- Hv'.
  destruct (0 <? simulation_speed (Simul.update_physics c1 s1))%Z.
  - apply set_time_same_motion, Hup.
  - exact Hup.
Qed.

Lemma run_from_same_motion (clock1 clock2 : nat -> Z) (n : nat) :
  forall (i : nat) (s1 s2 : CRTSimulation F),
    same_motion s1 s2 ->
    same_motion (Simul.run_from clock1 i n s1) (Simul.run_from clock2 i n s2).
Proof.
  induction n as [| n IH]; intros i s1 s2 H; [exact H |].
  cbn [Simul.run_from]. apply IH, frame_same_motion, H.
Qed.

(** The trace entries of two objects with the same motion agree up to their
    time stamps, and keep doing so. *)
Lemma substep_untimed (dt Vv Vh : F) (s1 s2 : CRTSimulation F) :
  same_motion s1 s2 ->
  map untimed (screen_traces s1) = map untimed (screen_traces s2) ->
  map untimed (screen_traces (Simul.substep dt Vv Vh s1))
  = map untimed (screen_traces (Simul.substep dt Vv Vh s2)).
Proof.
  intros [_ [_ [He [Hs _]]]] Hmap.
  rewrite !substep_screen_traces.
  assert (Hmoved : moved dt Vv Vh s1 = moved dt Vv Vh s2)
    by (unfold moved; rewrite He, Hs; reflexivity).
  rewrite Hmoved.
  destruct (has_hit_screen (moved dt Vv Vh s2)); [| exact Hmap].
  destruct (is_within_screen_bounds (moved dt Vv Vh s2)); [| exact Hmap].
  unfold screen_traces_append. rewrite !deque_append_map, Hmap.
  unfold untimed, hit_trace. cbn [trace_x trace_y trace_brightness].
  rewrite Hs. reflexivity.
Qed.

Lemma substeps_untimed (k : nat) (dt Vv Vh : F) (s1 s2 : CRTSimulation F) :
  same_motion s1 s2 ->
  map untimed (screen_traces s1) = map untimed (screen_traces s2) ->
  map untimed (screen_traces (Nat.iter k (Simul.substep dt Vv Vh) s1))
  = map untimed (screen_traces (Nat.iter k (Simul.substep dt Vv Vh) s2)).
Proof.
  intros H Hmap. induction k as [| k IH]; [exact Hmap |].
  cbn [Nat.iter nat_rect].
  apply substep_untimed; [apply substeps_same_motion, H | exact IH].
Qed.

Lemma frame_untimed (c1 c2 : Z) (s1 s2 : CRTSimulation F) :
  same_motion s1 s2 ->
  map untimed (screen_traces s1) = map untimed (screen_traces s2) ->
  map untimed (screen_traces (Simul.frame c1 s1))
  = map untimed (screen_traces (Simul.frame c2 s2)).
Proof.
  intros H Hmap.
  assert (Hup : map untimed (screen_traces (Simul.update_physics c1 s1))
                = map untimed (screen_traces (Simul.update_physics c2 s2))).
  { pose proof H as [Hm1 [Hm2 [_ [Hs Hv]]]].
    unfold Simul.update_physics. rewrite <- Hv.
    destruct (simulation_speed s1 =? 0)%Z; [exact Hmap |].
    unfold Simul.get_voltages.
    cbn [mode sliders set_time]. rewrite Hm1, Hm2, Hs.
    apply substeps_untimed; [apply set_time_same_motion, H | exact Hmap]. }
  unfold Simul.frame.
  destruct (0 <? simulation_speed (Simul.update_physics c1 s1))%Z,
           (0 <? simulation_speed (Simul.update_physics c2 s2))%Z;
    exact Hup.
Qed.

Lemma run_from_untimed (clock1 clock2 : nat -> Z) (n : nat) :
  forall (i : nat) (s1 s2 : CRTSimulation F),
    same_motion s1 s2 ->
    map untimed (screen_traces s1) = map untimed (screen_traces s2) ->
    map untimed (screen_traces (Simul.run_from clock1 i n s1))
    = map untimed (screen_traces (Simul.run_from clock2 i n s2)).
Proof.
  induction n as [| n IH]; intros i s1 s2 H Hmap; [exact Hmap |].
  cbn [Simul.run_from].
  apply IH; [apply frame_same_motion, H | apply frame_untimed; assumption].
Qed.

(** C1, amended.  Two runs of [Simul.py] from the same state (mode, sliders,
    electron, traces, time) over the same number of frames end in the same
    state, with the same electron, the same recorded path, the same trace
    entries and the same time, when [clock.get_time()] returns the same value
    in each frame, or when the simulation is paused, where the engine does
    not use the reading.  In manual mode the clock reading reaches the time
    stamps of the traces and nothing else of them: whatever the two clocks
    read, the two runs end with the same electron and with the same trace
    entries up to their time stamps. *)
Theorem run_determined_by_clock_readings
  (clock1 clock2 : nat -> Z) (n : nat) (s : CRTSimulation F) :
  (simulation_speed s = 0%Z \/ (forall i, (i < n)%nat -> clock1 i = clock2 i) ->
   Simul.run clock1 n s = Simul.run clock2 n s)
  /\ (mode s = manual ->
      electron (Simul.run clock1 n s) = electron (Simul.run clock2 n s)
      /\ map untimed (screen_traces (Simul.run clock1 n s))
         = map untimed (screen_traces (Simul.run clock2 n s))).
Proof.
  split.
  - intros [Hp | Hagree]; unfold Simul.run.
    + rewrite !run_from_paused by exact Hp. reflexivity.
    + apply run_from_agree. intros j Hj. apply Hagree. lia.
  - intros Hm.
    assert (H : same_motion s s) by (repeat split; assumption || reflexivity).
    split.
    + destruct (run_from_same_motion clock1 clock2 n 0 s s H) as [_ [_ [He _]]].
      exact He.
    + apply run_from_untimed; [exact H | reflexivity].
Qed.

(** X1.  In manual mode the trajectory is the same whatever the clock reads. *)
Lemma manual_trajectory_ignores_clock
  (clock1 clock2 : nat -> Z) (n : nat) (s : CRTSimulation F) :
  mode s = manual ->
  electron (Simul.run clock1 n s) = electron (Simul.run clock2 n s).
Proof.
  intros Hm.
  assert (H : same_motion s s) by (repeat split; assumption || reflexivity).
  destruct (run_from_same_motion clock1 clock2 n 0 s s H) as [_ [_ [He _]]].
  exact He.
Qed.

(** The buffer of a run never exceeds its capacity. *)
Lemma update_physics_capacity (c : Z) (s : CRTSimulation F) :
  (length (screen_traces s) <= 5000)%nat ->
  (length (screen_traces (Simul.update_physics c s)) <= 5000)%nat.
Proof.
  intros Hs. unfold Simul.update_physics.
  destruct (simulation_speed s =? 0)%Z; [exact Hs |].
  destruct (Simul.get_voltages _) as [Vv Vh].
  apply substeps_capacity. exact Hs.
Qed.

Lemma frame_capacity (c : Z) (s : CRTSimulation F) :
  (length (screen_traces s) <= 5000)%nat ->
  (length (screen_traces (Simul.frame c s)) <= 5000)%nat.
Proof.
  intros Hs. unfold Simul.frame.
  destruct (0 <? simulation_speed (Simul.update_physics c s))%Z;
    cbn [screen_traces set_time]; apply update_physics_capacity; exact Hs.
Qed.

Lemma run_from_capacity (clock : nat -> Z) (n : nat) :
  forall (i : nat) (s : CRTSimulation F),
    (length (screen_traces s) <= 5000)%nat ->
    (length (screen_traces (Simul.run_from clock i n s)) <= 5000)%nat.
Proof.
  induction n as [| n IH]; intros i s Hs; [exact Hs |].
  cbn [Simul.run_from]. apply IH, frame_capacity, Hs.
Qed.

(** X3.  After any number of frames of the loop from the initial state,
    whatever the clock reads, the trace buffer holds at most 5000 entries. *)
Lemma run_capacity (clock : nat -> Z) (n : nat) :
  (length (screen_traces (Simul.run clock n init)) <= 5000)%nat.
Proof. apply run_from_capacity. apply Nat.le_0_l. Qed.

End RunFacts.

(** Reading the interface at the reals. *)
Ltac real_ops :=
  cbv beta iota delta
    [add sub mul div opp abs sqrt of_Z real_num sin pi real_trig
     lit_1_602e_19 lit_9_109e_31 lit_0_20 lit_0_02 lit_0_05 lit_0_15
     lit_0_03 lit_0_001 lit_2e_9 lit_0_1] in *.

(** ** The engine in real arithmetic *)

Section RealFacts.
Local Open Scope R_scope.

Lemma Rltb_true (a b : R) : Rltb a b = true <-> a < b.
Proof.
  unfold Rltb. destruct (Rlt_dec a b) as [Hlt | Hnlt]; split; intros H;
    first [reflexivity | assumption | discriminate H | contradiction].
Qed.

Lemma Rltb_false (a b : R) : Rltb a b = false <-> b <= a.
Proof.
  unfold Rltb. destruct (Rlt_dec a b) as [Hlt | Hnlt]; split; intros H;
    first [reflexivity | discriminate H | lra].
Qed.

Lemma Rleb_true (a b : R) : Rleb a b = true <-> a <= b.
Proof.
  unfold Rleb. destruct (Rle_dec a b) as [Hle | Hnle]; split; intros H;
    first [reflexivity | assumption | discriminate H | contradiction].
Qed.

Lemma Rleb_false (a b : R) : Rleb a b = false <-> b < a.
Proof.
  unfold Rleb. destruct (Rle_dec a b) as [Hle | Hnle]; split; intros H;
    first [reflexivity | discriminate H | lra].
Qed.

(** Python's [max] and [min] are the usual ones on the reals. *)
Lemma py_max_Rmax (a b : R) : py_max a b = Rmax a b.
Proof.
  unfold py_max. cbn [ltb real_num].
  destruct (Rltb a b) eqn:H.
  - apply Rltb_true in H. rewrite Rmax_right by lra. reflexivity.
  - apply Rltb_false in H. rewrite Rmax_left by lra. reflexivity.
Qed.

(** *** The sign conventions *)

Lemma simul_acceleration_y_real (V : R) :
  Simul.acceleration_y V = - (1.602e-19 * V / (0.02 * 9.109e-31)).
Proof.
  unfold Simul.acceleration_y, Simul.ELECTRON_CHARGE, PLATE_SEPARATION,
    ELECTRON_MASS.
  real_ops. field. repeat split; lra.
Qed.

Lemma prueba_ay_real (V : R) :
  Prueba.ay V = 1.602e-19 * V / (0.02 * 9.109e-31).
Proof.
  unfold Prueba.ay, Prueba.ELECTRON_CHARGE, PLATE_SEPARATION, ELECTRON_MASS.
  real_ops. field. repeat split; lra.
Qed.

End RealFacts.

(** ** The claims that need the laws of arithmetic *)

Section RealClaims.
Local Open Scope R_scope.

(** C5.  For a plate voltage [V <> 0] the acceleration [Simul.py] computes is
    [-(q V / (d m))] and the one [simul_prueba.py] computes is
    [+(q V / (d m))], with [q = 1.602e-19], [d = 0.02], [m = 9.109e-31]:
    equal magnitude [q |V| / (d m)], opposite sign.  Each variant uses the
    same formula on the horizontal plates as on the vertical ones, and it is
    this acceleration times [dt] that its [update] adds to the velocity of an
    electron between the plates. *)
Theorem sign_conventions_opposite (V : R) :
  V <> 0 ->
  Simul.acceleration_y V = - (1.602e-19 * V / (0.02 * 9.109e-31))
  /\ Prueba.ay V = 1.602e-19 * V / (0.02 * 9.109e-31)
  /\ Simul.acceleration_x V = Simul.acceleration_y V
  /\ Prueba.ax V = Prueba.ay V
  /\ Rabs (Simul.acceleration_y V) = 1.602e-19 * Rabs V / (0.02 * 9.109e-31)
  /\ Rabs (Prueba.ay V) = Rabs (Simul.acceleration_y V)
  /\ Simul.acceleration_y V * Prueba.ay V < 0
  /\ (forall (dt Va Vh : R) (e : Electron R),
        in_vertical_plates e = true ->
        vy (Simul.update dt Va V Vh e) = vy e + Simul.acceleration_y V * dt
        /\ vy (Prueba.update dt Va V Vh e) = vy e + Prueba.ay V * dt)
  /\ (forall (dt Va Vv : R) (e : Electron R),
        in_horizontal_plates e = true ->
        vx (Simul.update dt Va Vv V e) = vx e + Simul.acceleration_x V * dt
        /\ vx (Prueba.update dt Va Vv V e) = vx e + Prueba.ax V * dt).
Proof.
  intros HV.
  pose proof (simul_acceleration_y_real V) as HS.
  pose proof (prueba_ay_real V) as HP.
  set (c := 1.602e-19 / (0.02 * 9.109e-31)).
  assert (Hc : 0 < c) by (unfold c; apply Rdiv_lt_0_compat; lra).
  assert (HSc : Simul.acceleration_y V = - (c * V)) by (rewrite HS; unfold c; field; lra).
  assert (HPc : Prueba.ay V = c * V) by (rewrite HP; unfold c; field; lra).
  split; [exact HS |]. split; [exact HP |].
  split; [reflexivity |]. split; [reflexivity |].
  split.
  { rewrite HSc, Rabs_Ropp, Rabs_mult, (Rabs_pos_eq c) by lra.
    unfold c. field. lra. }
  split.
  { rewrite HSc, HPc, Rabs_Ropp. reflexivity. }
  split.
  { rewrite HSc, HPc.
    assert (0 < (c * V) * (c * V)) by (apply Rsqr_pos_lt; nra).
    lra. }
  split.
  - intros dt Va Vh e Hin.
    rewrite update_vy, prueba_update_vy, Hin. split; reflexivity.
  - intros dt Va Vv e Hin.
    rewrite update_vx, prueba_update_vx, Hin. split; reflexivity.
Qed.

(** Witness of C5: 150 V on the plates. *)
Lemma sign_conventions_opposite_witness :
  Simul.acceleration_y 150 = - (1.602e-19 * 150 / (0.02 * 9.109e-31))
  /\ Prueba.ay 150 = 1.602e-19 * 150 / (0.02 * 9.109e-31).
Proof.
  pose proof (sign_conventions_opposite 150) as H.
  assert (H150 : 150 <> 0) by lra.
  destruct (H H150) as [HS [HP _]].
  split; [exact HS | exact HP].
Defined.

(** *** The axial motion *)

Lemma impulse_speed_nonneg (Va : R) : 0 <= impulse_speed Va.
Proof. unfold impulse_speed. real_ops. apply sqrt_pos. Qed.

Lemma reachable_step (dt Va Vv Vh : R) (e : Electron R) :
  reachable e -> 0 <= dt -> reachable (Simul.update dt Va Vv Vh e).
Proof.
  intros He Hdt. apply reachable_update; [exact He |].
  apply Rleb_true. exact Hdt.
Qed.

Lemma reachable_vz_nonneg (e : Electron R) : reachable e -> 0 <= vz e.
Proof.
  induction 1 as [| dt Va Vv Vh e He IH Hdt].
  - exact (Rle_refl 0).
  - rewrite update_vz.
    destruct (negb (initial_acceleration_done e) && accelerates Va).
    + apply impulse_speed_nonneg.
    + exact IH.
Qed.

Lemma reachable_z_forward (dt Va Vv Vh : R) (e : Electron R) :
  reachable e -> 0 <= dt -> z e <= z (Simul.update dt Va Vv Vh e).
Proof.
  intros He Hdt.
  assert (Hv : 0 <= vz (Simul.update dt Va Vv Vh e))
    by (apply reachable_vz_nonneg, reachable_step; assumption).
  assert (Hz : z (Simul.update dt Va Vv Vh e)
               = z e + vz (Simul.update dt Va Vv Vh e) * dt)
    by exact (update_z dt Va Vv Vh e).
  rewrite Hz. nra.
Qed.

(** Along any sequence of calls with [dt >= 0], [z] only grows. *)
Lemma z_monotone_along_calls (calls : list Call) (e : Electron R) :
  reachable e ->
  (forall c, In c calls -> 0 <= fst (fst (fst c))) ->
  z e <= z (updates calls e).
Proof.
  revert e. induction calls as [| [[[dt Va] Vv] Vh] calls IH]; intros e He Hdt.
  - apply Rle_refl.
  - change (updates (_ :: calls) e)
      with (updates calls (Simul.update dt Va Vv Vh e)).
    assert (Hdt0 : 0 <= dt) by (apply (Hdt (dt, Va, Vv, Vh)); left; reflexivity).
    pose proof (reachable_z_forward dt Va Vv Vh e He Hdt0) as Hz.
    apply Rle_trans with (1 := Hz). apply IH.
    + apply reachable_step; assumption.
    + intros c Hc. apply Hdt. right. exact Hc.
Qed.

End RealClaims.

(** ** The voltage source and the screen view, in real arithmetic *)

Section RealViews.
Local Open Scope R_scope.

Lemma simul_get_voltages_lissajous (s : CRTSimulation R) :
  mode s = lissajous ->
  Simul.get_voltages s
  = (vert_amplitude (sliders s)
     * Rtrigo_def.sin
         (2 * PI * vert_frequency (sliders s) * (time s / 1000)
          + (vert_phase (sliders s) - horiz_phase (sliders s)) * PI / 180),
     horiz_amplitude (sliders s)
     * Rtrigo_def.sin (2 * PI * horiz_frequency (sliders s) * (time s / 1000))).
Proof. intros Hm. unfold Simul.get_voltages. rewrite Hm. reflexivity. Qed.

(** Counterexample to C4 as stated, on [Simul.py]: in waveform mode with the
    initial sliders (horizontal: 150 V, 1.5 Hz, phase 90 degrees; vertical:
    150 V, 1 Hz, phase 0) at time 0, the horizontal voltage is 0 where the
    sinusoid with the horizontal phase gives 150, and the vertical voltage is
    -150 where the sinusoid with the vertical phase gives 0. *)
Lemma simul_waveform_not_own_phase :
  snd (Simul.get_voltages (set_mode lissajous init)) = 0
  /\ spec_sinusoid 150 (3 / 2) 90 (0 / 1000) = 150
  /\ fst (Simul.get_voltages (set_mode lissajous init)) = -150
  /\ spec_sinusoid 150 1 0 (0 / 1000) = 0
  /\ snd (Simul.get_voltages (set_mode lissajous init))
     <> spec_sinusoid (horiz_amplitude (sliders init))
          (horiz_frequency (sliders init)) (horiz_phase (sliders init))
          (time init / 1000).
Proof.
  assert (Hh : snd (Simul.get_voltages (set_mode lissajous init)) = 0).
  { rewrite simul_get_voltages_lissajous by reflexivity.
    cbn [snd set_mode sliders init initial_sliders horiz_amplitude
         horiz_frequency time].
    real_ops.
    replace (2 * PI * (3 / 2) * (0 / 1000)) with 0 by field.
    rewrite sin_0. ring. }
  assert (Hs : spec_sinusoid 150 (3 / 2) 90 (0 / 1000) = 150).
  { unfold spec_sinusoid.
    replace (2 * PI * (3 / 2) * (0 / 1000) + 90 * PI / 180) with (PI / 2) by field.
    rewrite sin_PI2. ring. }
  split; [exact Hh |]. split; [exact Hs |]. split; [| split].
  - rewrite simul_get_voltages_lissajous by reflexivity.
    cbn [fst set_mode sliders init initial_sliders vert_amplitude
         vert_frequency vert_phase horiz_phase time].
    real_ops.
    replace (2 * PI * 1 * (0 / 1000) + (0 - 90) * PI / 180) with (- (PI / 2)) by field.
    rewrite sin_neg, sin_PI2. ring.
  - unfold spec_sinusoid.
    replace (2 * PI * 1 * (0 / 1000) + 0 * PI / 180) with 0 by field.
    rewrite sin_0. ring.
  - rewrite Hh.
    cbn [sliders init initial_sliders horiz_amplitude horiz_frequency
         horiz_phase time].
    real_ops. rewrite Hs. lra.
Qed.

Lemma prueba_get_voltages_sinusoids (s : CRTSimulation R) :
  mode s = lissajous ->
  Prueba.get_voltages s
  = (spec_sinusoid (vert_amplitude (sliders s)) (vert_frequency (sliders s))
       (vert_phase (sliders s)) (time s / 1000),
     spec_sinusoid (horiz_amplitude (sliders s)) (horiz_frequency (sliders s))
       (horiz_phase (sliders s)) (time s / 1000)).
Proof. intros Hm. unfold Prueba.get_voltages. rewrite Hm. reflexivity. Qed.

Lemma simul_get_voltages_sinusoids (s : CRTSimulation R) :
  mode s = lissajous ->
  Simul.get_voltages s
  = (spec_sinusoid (vert_amplitude (sliders s)) (vert_frequency (sliders s))
       (vert_phase (sliders s) - horiz_phase (sliders s)) (time s / 1000),
     spec_sinusoid (horiz_amplitude (sliders s)) (horiz_frequency (sliders s))
       0 (time s / 1000)).
Proof.
  intros Hm. rewrite simul_get_voltages_lissajous by exact Hm.
  unfold spec_sinusoid. f_equal. f_equal. f_equal. field.
Qed.

(** C4, amended.  In waveform mode at time [t = time / 1000] (seconds), with
    the phases in degrees: [simul_prueba.py] returns for each axis the
    sinusoid of that axis's amplitude, frequency and phase; [Simul.py]
    returns for the horizontal axis the sinusoid of its amplitude and
    frequency with phase 0, and for the vertical axis the sinusoid of its
    amplitude and frequency with the phase difference
    [vert_phase - horiz_phase]. *)
Theorem waveform_voltages (s : CRTSimulation R) :
  mode s = lissajous ->
  Prueba.get_voltages s
  = (spec_sinusoid (vert_amplitude (sliders s)) (vert_frequency (sliders s))
       (vert_phase (sliders s)) (time s / 1000),
     spec_sinusoid (horiz_amplitude (sliders s)) (horiz_frequency (sliders s))
       (horiz_phase (sliders s)) (time s / 1000))
  /\ Simul.get_voltages s
     = (spec_sinusoid (vert_amplitude (sliders s)) (vert_frequency (sliders s))
          (vert_phase (sliders s) - horiz_phase (sliders s)) (time s / 1000),
        spec_sinusoid (horiz_amplitude (sliders s)) (horiz_frequency (sliders s))
          0 (time s / 1000)).
Proof.
  intros Hm. split.
  - apply prueba_get_voltages_sinusoids. exact Hm.
  - apply simul_get_voltages_sinusoids. exact Hm.
Qed.

(** Witness of C4: waveform mode with the initial sliders. *)
Lemma waveform_voltages_witness :
  Simul.get_voltages (set_mode lissajous init)
  = (spec_sinusoid 150 1 (0 - 90) (0 / 1000),
     spec_sinusoid 150 (3 / 2) 0 (0 / 1000)).
Proof.
  exact (proj2 (waveform_voltages (set_mode lissajous init) eq_refl)).
Defined.

(** With the horizontal phase at 0, where the presets of [Simul.py] put it,
    the two variants return the same voltages. *)
Lemma waveform_variants_agree (s : CRTSimulation R) :
  mode s = lissajous ->
  horiz_phase (sliders s) = 0 ->
  Simul.get_voltages s = Prueba.get_voltages s.
Proof.
  intros Hm Hp.
  rewrite (prueba_get_voltages_sinusoids s Hm), (simul_get_voltages_sinusoids s Hm).
  rewrite Hp. unfold spec_sinusoid.
  f_equal. f_equal. f_equal. field.
Qed.

End RealViews.

(** ** Runs on binary64 *)

Section FloatRuns.
Local Open Scope float_scope.

(** Two binary64 values are told apart by a computed comparison. *)
Ltac float_differ H c :=
  apply (f_equal (fun v : float => PrimFloat.eqb v c)) in H;
  vm_compute in H; discriminate H.

(** The first transit with the initial sliders: the axial velocity is set in
    the first call and the electron passes the vertical plates in one step. *)
Example first_update_from_reset :
  Simul.update 2e-9 2000 0 0 reset
  = {| x := 0; y := 0; z := 0.054046397602530702;
       vx := 0; vy := 0; vz := 26523198.801265348;
       path := [(0, 0, 0.054046397602530702)];
       initial_acceleration_done := true |}.
Proof. vm_compute. reflexivity. Qed.

(** Witness of C2: a call without acceleration voltage, the call at 2000 V,
    then calls at 5000 V and 0 V. *)
Lemma vz_assigned_once_witness :
  vz (updates [(2e-9, 0, 0, 0)] reset) = vz (@reset float _)
  /\ vz (updates ([(2e-9, 0, 0, 0)] ++ [(2e-9, 2000, 100, -50)]) reset)
     = sqrt (of_Z 2 * Simul.ELECTRON_CHARGE * abs 2000 / ELECTRON_MASS)%num
  /\ vz (updates ([(2e-9, 0, 0, 0)] ++ (2e-9, 2000, 100, -50)
                    :: [(2e-9, 5000, 0, 0); (2e-9, 0, 0, 0)]) reset)
     = sqrt (of_Z 2 * Simul.ELECTRON_CHARGE * abs 2000 / ELECTRON_MASS)%num.
Proof.
  apply (vz_assigned_once (F := float)).
  - reflexivity.
  - intros c [Hc | []]. rewrite <- Hc. reflexivity.
  - reflexivity.
Defined.

(** The velocity a later call would have given is another one. *)
Example later_voltage_not_used :
  vz (updates [(2e-9, 2000, 0, 0); (2e-9, 5000, 0, 0)] reset)
  <> sqrt (of_Z 2 * Simul.ELECTRON_CHARGE * abs 5000 / ELECTRON_MASS)%num.
Proof. intros H. float_differ H 26523198.801265348. Qed.

(** C7 and C8 at work.  After one step the electron is between the vertical
    plates, so the second call changes [vy] and moves [y] by the new [vy];
    [vx] is not touched there. *)
Example second_update_deflects :
  let e1 := Simul.update 2e-9 2000 150 100 reset in
  let e2 := Simul.update 2e-9 2000 150 100 e1 in
  in_vertical_plates e1 = true
  /\ in_horizontal_plates e1 = false
  /\ vy e1 = 0 /\ vy e2 = -2638050.2799429134
  /\ vx e2 = vx e1
  /\ y e2 = -0.0052761005598858275
  /\ y e2 <> y e1 + vy e1 * 2e-9.
Proof.
  vm_compute. repeat split; try reflexivity.
  intros H. float_differ H 0.
Qed.

(** Beside the plates nothing acts: with [|y| >= d/2] between the vertical
    plates [vy] stays. *)
Example beside_the_plates :
  let e := {| x := 0; y := 0.01; z := 0.07; vx := 0; vy := 3; vz := 1000;
              path := []; initial_acceleration_done := true |} in
  in_vertical_plates e = false
  /\ vy (Simul.update 2e-9 2000 150 100 e) = 3.
Proof. vm_compute. split; reflexivity. Qed.

(** Witness of C6: the seventh sub-step of the first transit reaches the
    screen at the centre, and the hit is the one entry of the buffer. *)
Lemma trace_recorded_iff_within_bounds_witness :
  screen_traces
    (Simul.substep 2e-9 0 0 (Nat.iter 6 (Simul.substep 2e-9 0 0) init))
  = [{| trace_x := 0; trace_y := 0; trace_time := 0; trace_brightness := 0.5 |}]
  /\ electron
       (Simul.substep 2e-9 0 0 (Nat.iter 6 (Simul.substep 2e-9 0 0) init))
     = reset.
Proof.
  assert (Hhit : has_hit_screen
                   (moved 2e-9 0 0 (Nat.iter 6 (Simul.substep 2e-9 0 0) init))
                 = true) by (vm_compute; reflexivity).
  exact (trace_recorded_iff_within_bounds (F := float) 2e-9 0 0
           (Nat.iter 6 (Simul.substep 2e-9 0 0) init) Hhit).
Defined.

(** The boundary is inclusive: a hit at exactly [SCREEN_SIZE/2] is recorded,
    the next binary64 value beyond it is not. *)
Example hit_on_the_boundary :
  screen_traces (Simul.substep 2e-9 0 0 (arriving 0.1 (-0.1)))
  = [{| trace_x := 0.1; trace_y := -0.1; trace_time := 0;
        trace_brightness := 0.5 |}].
Proof. vm_compute. reflexivity. Qed.

Example hit_beyond_the_boundary :
  screen_traces (Simul.substep 2e-9 0 0 (arriving 0.10000000000000002 0)) = []
  /\ screen_traces (Simul.substep 2e-9 0 0 (arriving 0 (-0.10000000000000002))) = []
  /\ electron (Simul.substep 2e-9 0 0 (arriving 0.10000000000000002 0)) = reset.
Proof. vm_compute. repeat split; reflexivity. Qed.

(** Witness of C7: the electron beside the vertical plates keeps [vy]. *)
Lemma field_acts_between_plates_only_witness :
  vy (Simul.update 2e-9 2000 150 100
        {| x := 0; y := 0.01; z := 0.07; vx := 0; vy := 3; vz := 1000;
           path := []; initial_acceleration_done := true |})
  = 3.
Proof.
  apply (proj1 (proj2 (proj2
           (field_acts_between_plates_only (F := float) 2e-9 2000 150 100
              {| x := 0; y := 0.01; z := 0.07; vx := 0; vy := 3; vz := 1000;
                 path := []; initial_acceleration_done := true |})))).
  right. right. reflexivity.
Defined.

(** Witness of C9: 5001 appends leave the last 5000, and the append to the
    full buffer dropped the oldest entry. *)
Lemma trace_buffer_capacity_fifo_witness :
  fold_left screen_traces_append (numbered 5001) [] = tl (numbered 5001)
  /\ screen_traces_append (fold_left screen_traces_append (numbered 5000) [])
       {| trace_x := 0%Z; trace_y := 0%Z; trace_time := 5000%Z;
          trace_brightness := 1%Z |}
     = tl (fold_left screen_traces_append (numbered 5000) [])
       ++ [{| trace_x := 0%Z; trace_y := 0%Z; trace_time := 5000%Z;
              trace_brightness := 1%Z |}].
Proof.
  split.
  - exact (proj1 (proj2 (trace_buffer_capacity_fifo (numbered 5001)))).
  - apply (proj2 (proj2 (trace_buffer_capacity_fifo (numbered 5000)))).
    vm_compute. reflexivity.
Defined.

(** The bounded buffer on a small capacity. *)
Example deque_append_evicts_oldest :
  deque_append 3 [1%Z; 2%Z; 3%Z] 4%Z = [2%Z; 3%Z; 4%Z]
  /\ deque_append 3 [1%Z; 2%Z] 3%Z = [1%Z; 2%Z; 3%Z].
Proof. split; reflexivity. Qed.

End FloatRuns.

(** ** The frame clock on binary64 *)

Section FloatClock.

(** Witness of C1, amended: two frames from the initial state.  Clocks that
    read 16 ms in both frames give the same run; a clock that reads 17 ms
    gives the same electron and the same trace entries up to the time
    stamps. *)
Lemma run_determined_by_clock_readings_witness :
  Simul.run (F := R) (fun _ => 16%Z) 2 init
  = Simul.run (fun i => if (i <? 2)%nat then 16%Z else 0%Z) 2 init
  /\ electron (Simul.run (F := R) (fun _ => 16%Z) 2 init)
     = electron (Simul.run (fun _ => 17%Z) 2 init)
  /\ map untimed (screen_traces (Simul.run (F := R) (fun _ => 16%Z) 2 init))
     = map untimed (screen_traces (Simul.run (fun _ => 17%Z) 2 init)).
Proof.
  split.
  - apply (proj1 (run_determined_by_clock_readings
                    (fun _ => 16%Z)
                    (fun i => if (i <? 2)%nat then 16%Z else 0%Z) 2 init)).
    right. intros i Hi.
    destruct (Nat.ltb_spec i 2) as [_ | Hge]; [reflexivity | lia].
  - apply (proj2 (run_determined_by_clock_readings
                    (fun _ => 16%Z) (fun _ => 17%Z) 2 init)).
    reflexivity.
Defined.

(** In manual mode the electron is the same under both clock readings. *)
Lemma manual_trajectory_ignores_clock_witness :
  electron (Simul.run (F := R) (fun _ => 16%Z) 1 init)
  = electron (Simul.run (fun _ => 17%Z) 1 init).
Proof.
  apply manual_trajectory_ignores_clock. reflexivity.
Defined.

(** The trace entries of one frame from the initial state carry the clock
    reading as their time. *)
Lemma first_frame_trace_times (libm_sin : float -> float) :
  map (@trace_time float)
      (screen_traces
         (Simul.run (trig := float_trig libm_sin) (fun _ => 16%Z) 1 init))
  = repeat 16%float 14
  /\ map (@trace_time float)
       (screen_traces
          (Simul.run (trig := float_trig libm_sin) (fun _ => 17%Z) 1 init))
     = repeat 17%float 14.
Proof. split; vm_compute; reflexivity. Qed.

(** Counterexample to C1 as stated: from the initial state (manual mode,
    initial sliders, the same [dt], 100 sub-steps), one frame with the clock
    reading 16 ms and one frame with the clock reading 17 ms record trace
    entries with different time stamps. *)
Lemma clock_reading_reaches_traces :
  ~ (forall libm_sin : float -> float,
       screen_traces
         (Simul.run (trig := float_trig libm_sin) (fun _ => 16%Z) 1 init)
       = screen_traces
           (Simul.run (trig := float_trig libm_sin) (fun _ => 17%Z) 1 init)).
Proof.
  intros Hsame.
  destruct (first_frame_trace_times (fun v => v)) as [H16 H17].
  rewrite (Hsame (fun v => v)) in H16. rewrite H17 in H16.
  apply (f_equal (fun l => match l with
                           | t :: _ => PrimFloat.eqb t 17%float
                           | [] => false
                           end)) in H16.
  vm_compute in H16. discriminate H16.
Qed.

End FloatClock.

(** ** Signs on binary64

    Two facts of real arithmetic used above hold on the running data type as
    they are, because rounding to nearest is symmetric and a square root is
    never negative. *)

Section SpecFloatSigns.
Variables prec emax : Z.

Lemma binary_round_aux_negb (s : bool) (m e : Z) (l : location) :
  binary_round_aux prec emax (negb s) m e l
  = SFopp (binary_round_aux prec emax s m e l).
Proof.
  unfold binary_round_aux.
  destruct (shr_fexp prec emax m e l) as [mrs' e'].
  destruct (shr_fexp prec emax _ e' loc_Exact) as [mrs'' e''].
  destruct (shr_m mrs''); [reflexivity | | reflexivity].
  destruct (Z.leb e'' (Z.sub emax prec)); reflexivity.
Qed.

Lemma SFmul_opp_r (a b : spec_float) :
  SFmul prec emax a (SFopp b) = SFopp (SFmul prec emax a b).
Proof.
  destruct a as [sa | sa | | sa ma ea], b as [sb | sb | | sb mb eb];
    cbn [SFmul SFopp]; rewrite <- ?negb_xorb_r; try reflexivity.
  apply binary_round_aux_negb.
Qed.

Lemma SFdiv_opp_l (a b : spec_float) :
  SFdiv prec emax (SFopp a) b = SFopp (SFdiv prec emax a b).
Proof.
  destruct a as [sa | sa | | sa ma ea], b as [sb | sb | | sb mb eb];
    cbn [SFdiv SFopp]; rewrite <- ?negb_xorb_l; try reflexivity.
  destruct (SFdiv_core_binary prec emax (Zpos ma) ea (Zpos mb) eb)
    as [[mz ez] lz].
  apply binary_round_aux_negb.
Qed.

End SpecFloatSigns.

Section FloatSigns.

Lemma float_mul_opp_r (a b : float) : (a * - b = - (a * b))%float.
Proof.
  apply Prim2SF_inj.
  rewrite FloatAxioms.opp_spec, !FloatAxioms.mul_spec, FloatAxioms.opp_spec.
  apply SFmul_opp_r.
Qed.

Lemma float_div_opp_l (a b : float) : (- a / b = - (a / b))%float.
Proof.
  apply Prim2SF_inj.
  rewrite FloatAxioms.opp_spec, !FloatAxioms.div_spec, FloatAxioms.opp_spec.
  apply SFdiv_opp_l.
Qed.

(** X2.  On binary64 the accelerations of the two variants are exact negations of
    each other, for every plate voltage (infinite or NaN included). *)
Lemma float_accelerations_negated (V : float) :
  Prueba.ay V = (- Simul.acceleration_y V)%float
  /\ Prueba.ax V = (- Simul.acceleration_x V)%float.
Proof.
  unfold Prueba.ay, Prueba.ax, Simul.acceleration_y, Simul.acceleration_x,
    Prueba.ELECTRON_CHARGE, Simul.ELECTRON_CHARGE.
  cbn [add sub mul div opp float_num].
  rewrite !float_div_opp_l, !float_mul_opp_r, !float_div_opp_l.
  split; reflexivity.
Qed.

Example float_accelerations_at_150 :
  Simul.acceleration_y 150%float = (-1319025139971456.8)%float
  /\ Prueba.ay 150%float = 1319025139971456.8%float.
Proof. vm_compute. split; reflexivity. Qed.

Lemma float_sqrt_not_negative (a : float) :
  (PrimFloat.sqrt a <? 0)%float = false.
Proof.
  rewrite FloatAxioms.ltb_spec, FloatAxioms.sqrt_spec.
  change (Prim2SF 0%float) with (S754_zero false).
  unfold SF64sqrt, SFsqrt.
  destruct (Prim2SF a) as [s | [|] | | [|] m e]; try reflexivity.
  destruct (SFsqrt_core_binary prec emax (Zpos m) e) as [[mz ez] lz].
  unfold binary_round_aux.
  destruct (shr_fexp prec emax mz ez lz) as [mrs' e'].
  destruct (shr_fexp prec emax _ e' loc_Exact) as [mrs'' e''].
  destruct (shr_m mrs''); [reflexivity | | reflexivity].
  destruct (Z.leb e'' (Z.sub emax prec)); reflexivity.
Qed.

(** X4.  On binary64, too, the axial velocity of a transit is never negative. *)
Lemma float_reachable_vz_not_negative (e : Electron float) :
  reachable e -> (vz e <? 0)%float = false.
Proof.
  induction 1 as [| dt Va Vv Vh e He IH Hdt].
  - reflexivity.
  - rewrite update_vz.
    destruct (negb (initial_acceleration_done e) && accelerates Va).
    + apply float_sqrt_not_negative.
    + exact IH.
Qed.

Lemma float_reachable_vz_not_negative_witness :
  (vz (Simul.update 2e-9 2000 0 0 reset) <? 0)%float = false.
Proof.
  apply float_reachable_vz_not_negative.
  apply reachable_update; [apply reachable_reset | reflexivity].
Defined.

End FloatSigns.

(** ** Invariants of the sub-step loop and of a run *)

Section EngineInvariants.
Context {F : Type} {num : Num F} {trig : Trig F}.
Local Open Scope num_scope.

Lemma substeps_frame (k : nat) (dt Vv Vh : F) (s : CRTSimulation F) :
  mode (Nat.iter k (Simul.substep dt Vv Vh) s) = mode s
  /\ time (Nat.iter k (Simul.substep dt Vv Vh) s) = time s
  /\ simulation_speed (Nat.iter k (Simul.substep dt Vv Vh) s) = simulation_speed s
  /\ sliders (Nat.iter k (Simul.substep dt Vv Vh) s) = sliders s.
Proof.
  induction k as [| k [IHm [IHt [IHv IHs]]]]; [repeat split |].
  rewrite Nat.iter_succ.
  destruct (substep_frame dt Vv Vh (Nat.iter k (Simul.substep dt Vv Vh) s))
    as [Hm [Ht [Hv Hs]]].
  rewrite Hm, Ht, Hv, Hs. auto.
Qed.

(** [update_physics] assigns the time, the electron and the trace buffer;
    the mode, the pause state and the sliders are as they were. *)
Lemma update_physics_frame (c : Z) (s : CRTSimulation F) :
  mode (Simul.update_physics c s) = mode s
  /\ simulation_speed (Simul.update_physics c s) = simulation_speed s
  /\ sliders (Simul.update_physics c s) = sliders s
  /\ time (Simul.update_physics c s)
     = if (simulation_speed s =? 0)%Z then time s
       else time s + of_Z (c * simulation_speed s).
Proof.
  unfold Simul.update_physics.
  destruct (simulation_speed s =? 0)%Z; [repeat split |].
  destruct (Simul.get_voltages _) as [Vv Vh].
  destruct (substeps_frame 100 lit_2e_9 Vv Vh
              (set_time (time s + of_Z (c * simulation_speed s)) s))
    as [Hm [Ht [Hv Hs]]].
  rewrite Hm, Ht, Hv, Hs. repeat split.
Qed.

Lemma frame_frame (c : Z) (s : CRTSimulation F) :
  mode (Simul.frame c s) = mode s
  /\ simulation_speed (Simul.frame c s) = simulation_speed s
  /\ sliders (Simul.frame c s) = sliders s.
Proof.
  destruct (update_physics_frame c s) as [Hm [Hv [Hs _]]].
  unfold Simul.frame.
  destruct (0 <? simulation_speed (Simul.update_physics c s))%Z;
    cbn [mode simulation_speed sliders set_time]; auto.
Qed.

(** *** A hit is consumed by the sub-step that detects it *)

Lemma substep_short_of_screen (dt Vv Vh : F) (s : CRTSimulation F) :
  has_hit_screen (@reset F num) = false ->
  has_hit_screen (electron (Simul.substep dt Vv Vh s)) = false.
Proof.
  intros Hreset. rewrite substep_electron.
  destruct (has_hit_screen (moved dt Vv Vh s)) eqn:Hhit; assumption.
Qed.

Lemma substeps_short_of_screen (k : nat) (dt Vv Vh : F) (s : CRTSimulation F) :
  has_hit_screen (@reset F num) = false ->
  has_hit_screen (electron s) = false ->
  has_hit_screen (electron (Nat.iter k (Simul.substep dt Vv Vh) s)) = false.
Proof.
  intros Hreset Hs. destruct k as [| k]; [exact Hs |].
  cbn [Nat.iter nat_rect]. apply substep_short_of_screen, Hreset.
Qed.

Lemma frame_short_of_screen (c : Z) (s : CRTSimulation F) :
  has_hit_screen (@reset F num) = false ->
  has_hit_screen (electron s) = false ->
  has_hit_screen (electron (Simul.frame c s)) = false.
Proof.
  intros Hreset Hs.
  assert (Hup : has_hit_screen (electron (Simul.update_physics c s)) = false).
  { unfold Simul.update_physics.
    destruct (simulation_speed s =? 0)%Z; [exact Hs |].
    destruct (Simul.get_voltages _) as [Vv Vh].
    apply substeps_short_of_screen; assumption. }
  unfold Simul.frame.
  destruct (0 <? simulation_speed (Simul.update_physics c s))%Z; exact Hup.
Qed.

(** X5.  Between frames the stored electron is always short of the screen plane:
    whenever a sub-step moves it to the plane or beyond, the same sub-step
    replaces it by a fresh one.  (The gun position must itself be short of
    the plane, as it is for the constants of the source.) *)
Theorem electron_short_of_screen
  (clock : nat -> Z) (n : nat) (s : CRTSimulation F) :
  has_hit_screen (@reset F num) = false ->
  has_hit_screen (electron s) = false ->
  has_hit_screen (electron (Simul.run clock n s)) = false.
Proof.
  intros Hreset. unfold Simul.run. generalize 0%nat as i. revert s.
  induction n as [| n IH]; intros s i Hs; [exact Hs |].
  cbn [Simul.run_from]. apply IH, frame_short_of_screen; assumption.
Qed.

(** *** Only hits within the screen bounds are stored *)

Lemma Forall_deque_append {A : Type} (P : A -> Prop) (maxlen : nat)
  (d : list A) (a : A) :
  Forall P d -> P a -> Forall P (deque_append maxlen d a).
Proof.
  intros Hd Ha. unfold deque_append.
  assert (Hall : Forall P (d ++ [a])).
  { apply Forall_app. split; [exact Hd | constructor; [exact Ha | constructor]]. }
  destruct (maxlen <? length (d ++ [a]))%nat; [| exact Hall].
  destruct (d ++ [a]) as [| b l]; [constructor |].
  cbn [tl]. inversion Hall; assumption.
Qed.

Lemma substep_traces_on_screen (dt Vv Vh : F) (s : CRTSimulation F) :
  Forall (fun t => trace_on_screen t = true) (screen_traces s) ->
  Forall (fun t => trace_on_screen t = true)
         (screen_traces (Simul.substep dt Vv Vh s)).
Proof.
  intros Hs. rewrite substep_screen_traces.
  destruct (has_hit_screen (moved dt Vv Vh s)); [| exact Hs].
  destruct (is_within_screen_bounds (moved dt Vv Vh s)) eqn:Hin; [| exact Hs].
  apply Forall_deque_append; [exact Hs | exact Hin].
Qed.

Lemma frame_traces_on_screen (c : Z) (s : CRTSimulation F) :
  Forall (fun t => trace_on_screen t = true) (screen_traces s) ->
  Forall (fun t => trace_on_screen t = true) (screen_traces (Simul.frame c s)).
Proof.
  intros Hs.
  assert (Hup : Forall (fun t => trace_on_screen t = true)
                       (screen_traces (Simul.update_physics c s))).
  { unfold Simul.update_physics.
    destruct (simulation_speed s =? 0)%Z; [exact Hs |].
    destruct (Simul.get_voltages _) as [Vv Vh].
    generalize 100%nat as k. intros k.
    induction k as [| k IH]; [exact Hs |].
    cbn [Nat.iter nat_rect]. apply substep_traces_on_screen, IH. }
  unfold Simul.frame.
  destruct (0 <? simulation_speed (Simul.update_physics c s))%Z; exact Hup.
Qed.

(** X6.  Every entry of the trace buffer of a run lies within the screen bounds
    ([|x| <= SCREEN_SIZE/2] and [|y| <= SCREEN_SIZE/2]), whatever the
    voltages and the clock were: an out-of-bounds hit never enters the
    buffer, and eviction only removes entries. *)
Theorem stored_traces_on_screen (clock : nat -> Z) (n : nat) :
  Forall (fun t => trace_on_screen t = true)
         (screen_traces (Simul.run (F := F) clock n init)).
Proof.
  unfold Simul.run.
  assert (H0 : Forall (fun t : Trace F => trace_on_screen t = true)
                      (screen_traces (@init F num))) by constructor.
  revert H0. generalize (@init F num) as s. generalize 0%nat as i.
  induction n as [| n IH]; intros i s Hs; [exact Hs |].
  cbn [Simul.run_from]. apply IH, frame_traces_on_screen, Hs.
Qed.

End EngineInvariants.

(** ** The recorded path *)

Section PathFacts.
Context {F : Type} {num : Num F}.
Local Open Scope num_scope.

Lemma update_path (dt Va Vv Vh : F) (e : Electron F) :
  path (Simul.update dt Va Vv Vh e)
  = deque_append 1000 (path e) (position (Simul.update dt Va Vv Vh e)).
Proof. rewrite update_unfold at 1. reflexivity. Qed.

Lemma deque_append_last {A : Type} (maxlen : nat) (d : list A) (a b : A) :
  (0 < maxlen)%nat -> last (deque_append maxlen d a) b = a.
Proof.
  intros Hpos. unfold deque_append.
  destruct (Nat.ltb_spec maxlen (length (d ++ [a]))) as [Hlt | Hge].
  - destruct d as [| c d].
    + cbn in Hlt. lia.
    + cbn [app tl]. apply last_last.
  - apply last_last.
Qed.

Lemma deque_append_length_eq {A : Type} (maxlen : nat) (d : list A) (a : A) :
  (length d <= maxlen)%nat ->
  length (deque_append maxlen d a) = Nat.min (S (length d)) maxlen.
Proof.
  intros Hd. unfold deque_append.
  assert (Hlen : length (d ++ [a]) = S (length d))
    by (rewrite length_app; cbn [length]; lia).
  destruct (Nat.ltb_spec maxlen (length (d ++ [a]))) as [Hlt | Hge].
  - destruct d as [| c d]; cbn [app tl length] in *; [lia |].
    injection Hlen as Hlen. lia.
  - lia.
Qed.

(** X7.  The path of an electron holds the positions of its last 1000 [update]
    calls since [reset]: its length is the number of calls, capped at 1000,
    and, once a call was made, its last entry is the current position, which
    is what the views draw as the electron. *)
Theorem path_follows_electron (calls : list Call) (c : Call) :
  length (path (updates calls (@reset F num))) = Nat.min (length calls) 1000
  /\ last (path (updates (calls ++ [c]) (@reset F num))) (position reset)
     = position (updates (calls ++ [c]) (@reset F num)).
Proof.
  split.
  - induction calls as [| [[[dt Va] Vv] Vh] calls IH] using rev_ind.
    + reflexivity.
    + rewrite updates_app.
      change (updates [(dt, Va, Vv, Vh)] ?e) with (Simul.update dt Va Vv Vh e).
      rewrite update_path, deque_append_length_eq by (rewrite IH; lia).
      rewrite IH, length_app. cbn [length]. lia.
  - destruct c as [[[dt Va] Vv] Vh]. rewrite updates_app.
    change (updates [(dt, Va, Vv, Vh)] ?e) with (Simul.update dt Va Vv Vh e).
    rewrite update_path. apply deque_append_last. lia.
Qed.

End PathFacts.

(** ** Pausing and the simulated time *)

Section TimeFacts.
Context {F : Type} {num : Num F} {trig : Trig F}.
Local Open Scope num_scope.

Lemma prueba_frame_paused (s : CRTSimulation F) :
  simulation_speed s = 0%Z -> Prueba.frame s = s.
Proof.
  intros Hp. unfold Prueba.frame, Prueba.update_physics.
  rewrite Hp. cbn [Z.eqb]. rewrite Hp. reflexivity.
Qed.

(** X8.  While the simulation is paused ([simulation_speed = 0]) the frames of
    either variant change nothing: not the electron, not the traces, not the
    simulated time, whatever the clock reads. *)
Theorem paused_run_unchanged
  (clock : nat -> Z) (n : nat) (s : CRTSimulation F) :
  simulation_speed s = 0%Z ->
  Simul.run clock n s = s /\ Prueba.run n s = s.
Proof.
  intros Hp. split.
  - unfold Simul.run. generalize 0%nat as i.
    induction n as [| n IH]; intros i; [reflexivity |].
    cbn [Simul.run_from]. rewrite simul_frame_paused by exact Hp. apply IH.
  - unfold Prueba.run. induction n as [| n IH]; [reflexivity |].
    rewrite Nat.iter_succ, IH. apply prueba_frame_paused, Hp.
Qed.

(** One running frame of [Simul.py] advances the simulated time twice: by
    the clock reading in [update_physics] and by the fixed 16 ms in [run]. *)
Lemma simul_frame_time (c : Z) (s : CRTSimulation F) :
  simulation_speed s = 1%Z ->
  time (Simul.frame c s) = time s + of_Z c + of_Z 16
  /\ simulation_speed (Simul.frame c s) = 1%Z.
Proof.
  intros Hv.
  destruct (update_physics_frame c s) as [_ [Hspeed [_ Htime]]].
  destruct (frame_frame c s) as [_ [Hspeed' _]].
  split; [| rewrite Hspeed'; exact Hv].
  unfold Simul.frame. rewrite Hspeed, Hv. cbn [Z.ltb Z.compare time set_time].
  rewrite Htime, Hv. cbn [Z.eqb]. rewrite Z.mul_1_r. reflexivity.
Qed.

End TimeFacts.

(** ** The simulated time of a run, in real arithmetic *)

Section RealTime.
Local Open Scope R_scope.

Lemma run_from_snoc {F : Type} {num : Num F} {trig : Trig F}
  (clock : nat -> Z) (n : nat) :
  forall (i : nat) (s : CRTSimulation F),
    Simul.run_from clock i (S n) s
    = Simul.frame (clock (i + n)%nat) (Simul.run_from clock i n s).
Proof.
  induction n as [| n IH]; intros i s.
  - cbn [Simul.run_from]. rewrite Nat.add_0_r. reflexivity.
  - change (Simul.run_from clock i (S (S n)) s)
      with (Simul.run_from clock (S i) (S n) (Simul.frame (clock i) s)).
    rewrite IH. cbn [Simul.run_from].
    replace (S i + n)%nat with (i + S n)%nat by lia. reflexivity.
Qed.

Lemma prueba_substeps_frame {F : Type} {num : Num F}
  (k : nat) (dt Va Vv Vh : F) (s : CRTSimulation F) :
  time (Nat.iter k (Prueba.substep dt Va Vv Vh) s) = time s
  /\ simulation_speed (Nat.iter k (Prueba.substep dt Va Vv Vh) s)
     = simulation_speed s.
Proof.
  induction k as [| k [IHt IHv]]; [split; reflexivity |].
  rewrite Nat.iter_succ. unfold Prueba.substep at 1 3.
  destruct (has_hit_screen _); cbn [time simulation_speed set_electron
                                    set_screen_traces]; auto.
Qed.

Lemma prueba_frame_time (s : CRTSimulation R) :
  simulation_speed s = 1%Z ->
  time (Prueba.frame s) = time s + 16
  /\ simulation_speed (Prueba.frame s) = 1%Z.
Proof.
  intros Hv.
  assert (Hup : time (Prueba.update_physics s) = time s
                /\ simulation_speed (Prueba.update_physics s) = 1%Z).
  { unfold Prueba.update_physics. rewrite Hv. cbn [Z.eqb].
    destruct (Prueba.get_voltages s) as [Vv Vh].
    destruct (prueba_substeps_frame 100 lit_2e_9
                (acceleration_voltage (sliders s)) Vv Vh s) as [Ht Hs].
    rewrite Ht, Hs. split; [reflexivity | exact Hv]. }
  destruct Hup as [Ht Hs].
  unfold Prueba.frame. rewrite Hs. cbn [Z.ltb Z.compare time simulation_speed set_time].
  rewrite Ht. split; [reflexivity | exact Hs].
Qed.

(** X9.  After [n] running frames ([simulation_speed = 1]) the simulated time of
    [Simul.py] has advanced by the sum of the clock readings plus 16 ms per
    frame, that of [simul_prueba.py] by 16 ms per frame: [Simul.py] counts
    every frame twice, once by the clock and once by the fixed step. *)
Theorem run_time_accounting
  (clock : nat -> Z) (n : nat) (s : CRTSimulation R) :
  simulation_speed s = 1%Z ->
  time (Simul.run clock n s)
  = time s + IZR (clock_total clock n) + 16 * IZR (Z.of_nat n)
  /\ time (Prueba.run n s) = time s + 16 * IZR (Z.of_nat n).
Proof.
  intros Hv. split.
  - unfold Simul.run.
    assert (H : time (Simul.run_from clock 0 n s)
                = time s + IZR (clock_total clock n) + 16 * IZR (Z.of_nat n)
                /\ simulation_speed (Simul.run_from clock 0 n s) = 1%Z).
    { induction n as [| n [IHt IHs]].
      - cbn [Simul.run_from clock_total Z.of_nat]. split; [lra | exact Hv].
      - rewrite run_from_snoc. cbn [Nat.add].
        destruct (simul_frame_time (clock n) (Simul.run_from clock 0 n s) IHs)
          as [Ht Hs].
        split; [| exact Hs].
        change (time (Simul.frame (clock n) (Simul.run_from clock 0 n s))
                = time (Simul.run_from clock 0 n s) + IZR (clock n) + 16) in Ht.
        rewrite Ht, IHt. cbn [clock_total].
        rewrite Nat2Z.inj_succ, succ_IZR, plus_IZR. lra. }
    exact (proj1 H).
  - unfold Prueba.run.
    assert (H : time (Nat.iter n Prueba.frame s) = time s + 16 * IZR (Z.of_nat n)
                /\ simulation_speed (Nat.iter n Prueba.frame s) = 1%Z).
    { induction n as [| n [IHt IHs]].
      - cbn [Nat.iter nat_rect Z.of_nat]. split; [lra | exact Hv].
      - rewrite Nat.iter_succ.
        destruct (prueba_frame_time (Nat.iter n Prueba.frame s) IHs) as [Ht Hs].
        split; [| exact Hs].
        rewrite Ht, IHt, Nat2Z.inj_succ, succ_IZR. lra. }
    exact (proj1 H).
Qed.

End RealTime.

(** ** Flight without deflection, in real arithmetic *)

Section RealFlight.
Local Open Scope R_scope.

Lemma simul_acceleration_zero :
  Simul.acceleration_y (F := R) 0 = 0 /\ Simul.acceleration_x (F := R) 0 = 0.
Proof.
  pose proof (simul_acceleration_y_real 0) as H.
  assert (H0 : Simul.acceleration_y (F := R) 0 = 0) by (rewrite H; field; lra).
  split; exact H0.
Qed.

Lemma update_keeps_y (dt Va Vh : R) (e : Electron R) :
  y e = 0 -> vy e = 0 ->
  y (Simul.update dt Va 0 Vh e) = 0 /\ vy (Simul.update dt Va 0 Vh e) = 0.
Proof.
  intros Hy Hvy.
  assert (Hv : vy (Simul.update dt Va 0 Vh e) = 0).
  { rewrite update_vy, Hvy. destruct (in_vertical_plates e); [| reflexivity].
    rewrite (proj1 simul_acceleration_zero).
    change (0 + 0 * dt = 0). ring. }
  split; [| exact Hv].
  rewrite update_y, Hv, Hy. change (0 + 0 * dt = 0). ring.
Qed.

Lemma update_keeps_x (dt Va Vv : R) (e : Electron R) :
  x e = 0 -> vx e = 0 ->
  x (Simul.update dt Va Vv 0 e) = 0 /\ vx (Simul.update dt Va Vv 0 e) = 0.
Proof.
  intros Hx Hvx.
  assert (Hv : vx (Simul.update dt Va Vv 0 e) = 0).
  { rewrite update_vx, Hvx. destruct (in_horizontal_plates e); [| reflexivity].
    rewrite (proj2 simul_acceleration_zero).
    change (0 + 0 * dt = 0). ring. }
  split; [| exact Hv].
  rewrite update_x, Hv, Hx. change (0 + 0 * dt = 0). ring.
Qed.

(** X10.  The two axes do not interact: as long as the vertical plate voltage is 0
    in every call since [reset], [y] and [vy] stay 0 whatever the horizontal
    plates, the acceleration voltage and the time steps do; and the same for
    [x] and [vx] with the horizontal plate voltage. *)
Theorem axes_independent (calls : list Call) :
  ((forall c, In c calls -> call_vertical c = 0) ->
     y (updates calls reset) = 0 /\ vy (updates calls reset) = 0)
  /\ ((forall c, In c calls -> call_horizontal c = 0) ->
     x (updates calls reset) = 0 /\ vx (updates calls reset) = 0).
Proof.
  split; intros Hc.
  - induction calls as [| [[[dt Va] Vv] Vh] calls IH] using rev_ind.
    + split; reflexivity.
    + rewrite updates_app.
      change (updates [(dt, Va, Vv, Vh)] ?e) with (Simul.update dt Va Vv Vh e).
      assert (HV : Vv = 0).
      { apply (Hc (dt, Va, Vv, Vh)). apply in_or_app. right. left. reflexivity. }
      rewrite HV.
      destruct IH as [IHy IHv].
      { intros c Hin. apply Hc. apply in_or_app. left. exact Hin. }
      apply update_keeps_y; assumption.
  - induction calls as [| [[[dt Va] Vv] Vh] calls IH] using rev_ind.
    + split; reflexivity.
    + rewrite updates_app.
      change (updates [(dt, Va, Vv, Vh)] ?e) with (Simul.update dt Va Vv Vh e).
      assert (HV : Vh = 0).
      { apply (Hc (dt, Va, Vv, Vh)). apply in_or_app. right. left. reflexivity. }
      rewrite HV.
      destruct IH as [IHx IHv].
      { intros c Hin. apply Hc. apply in_or_app. left. exact Hin. }
      apply update_keeps_x; assumption.
Qed.

Lemma substep_centred (dt : R) (s : CRTSimulation R) :
  centred s -> centred (Simul.substep dt 0 0 s).
Proof.
  intros [Hm [Hvv [Hvh [Hx [Hy [Hvx [Hvy Htr]]]]]]].
  destruct (substep_frame dt 0 0 s) as [Hmode [_ [_ Hsl]]].
  destruct (update_keeps_x dt (acceleration_voltage (sliders s)) 0 (electron s) Hx Hvx)
    as [Hx' Hvx'].
  destruct (update_keeps_y dt (acceleration_voltage (sliders s)) 0 (electron s) Hy Hvy)
    as [Hy' Hvy'].
  fold (moved dt 0 0 s) in Hx', Hvx', Hy', Hvy'.
  unfold centred. rewrite Hmode, Hsl, substep_electron, substep_screen_traces.
  split; [exact Hm |]. split; [exact Hvv |]. split; [exact Hvh |].
  destruct (has_hit_screen (moved dt 0 0 s)).
  - repeat split; try reflexivity.
    destruct (is_within_screen_bounds (moved dt 0 0 s)); [| exact Htr].
    apply Forall_deque_append; [exact Htr |].
    cbn [hit_trace trace_x trace_y]. split; assumption.
  - repeat split; assumption.
Qed.

Lemma frame_centred (c : Z) (s : CRTSimulation R) :
  centred s -> centred (Simul.frame c s).
Proof.
  intros Hs.
  assert (Hup : centred (Simul.update_physics c s)).
  { unfold Simul.update_physics.
    destruct (simulation_speed s =? 0)%Z; [exact Hs |].
    pose proof Hs as [Hm [Hvv [Hvh _]]].
    unfold Simul.get_voltages. cbn [mode sliders set_time].
    rewrite Hm, Hvv, Hvh.
    generalize 100%nat as k. intros k.
    induction k as [| k IH]; [exact Hs |].
    rewrite Nat.iter_succ. apply substep_centred, IH. }
  unfold Simul.frame.
  destruct (0 <? simulation_speed (Simul.update_physics c s))%Z; exact Hup.
Qed.

(** X11.  With both plate sliders at 0 V in manual mode the beam stays on the axis
    and every hit is recorded at the centre [(0, 0)] of the screen, for any
    acceleration voltage and any clock. *)
Theorem undeflected_beam_hits_centre
  (clock : nat -> Z) (n : nat) (s : CRTSimulation R) :
  centred s ->
  Forall (fun t => trace_x t = 0 /\ trace_y t = 0)
         (screen_traces (Simul.run clock n s))
  /\ x (electron (Simul.run clock n s)) = 0
  /\ y (electron (Simul.run clock n s)) = 0.
Proof.
  intros Hs.
  assert (H : centred (Simul.run clock n s)).
  { unfold Simul.run. generalize 0%nat as i. revert s Hs.
    induction n as [| n IH]; intros s Hs i; [exact Hs |].
    cbn [Simul.run_from]. apply IH, frame_centred, Hs. }
  destruct H as [_ [_ [_ [Hx [Hy [_ [_ Htr]]]]]]]. auto.
Qed.

End RealFlight.

(** ** The screen view, in real arithmetic *)

Section RealScreenView.
Local Open Scope R_scope.

Lemma Rtrunc_bounds (r : R) (lo hi : Z) :
  (0 <= lo)%Z -> IZR lo <= r <= IZR hi -> (lo <= Rtrunc r <= hi)%Z.
Proof.
  intros Hlo [Hl Hh].
  assert (H0 : 0 <= r) by (apply IZR_le in Hlo; lra).
  unfold Rtrunc. destruct (Rle_dec 0 r) as [_ | Hn]; [| contradiction].
  destruct (base_Int_part r) as [Hb1 Hb2].
  split.
  - assert (Hlt : IZR (lo - 1) < IZR (Int_part r)) by (rewrite minus_IZR; lra).
    apply lt_IZR in Hlt. lia.
  - apply le_IZR. lra.
Qed.

Lemma Rabs_le_both (v a : R) : Rabs v <= a -> - a <= v <= a.
Proof. unfold Rabs. destruct (Rcase_abs v); lra. Qed.

Lemma py_min_Rmin (a b : R) : py_min a b = Rmin a b.
Proof.
  unfold py_min. cbn [ltb real_num].
  destruct (Rltb b a) eqn:H.
  - apply Rltb_true in H. rewrite Rmin_right by lra. reflexivity.
  - apply Rltb_false in H. rewrite Rmin_left by lra. reflexivity.
Qed.

Lemma trace_on_screen_real (t : Trace R) :
  trace_on_screen t = true <-> Rabs (trace_x t) <= 0.1 /\ Rabs (trace_y t) <= 0.1.
Proof.
  unfold trace_on_screen, SCREEN_SIZE. cbn [abs leb div of_Z lit_0_20 real_num].
  rewrite andb_true_iff, !Rleb_true.
  replace (0.20 / 2) with 0.1 by lra. reflexivity.
Qed.

Lemma screen_scales_real :
  screen_scale_x (F := R) = 3050 /\ screen_scale_y (F := R) = 1800.
Proof.
  unfold screen_scale_x, screen_scale_y, SCREEN_SIZE.
  cbn [div of_Z lit_0_20 real_num screen_view_rect rect_width rect_height Z.sub
       Z.add Z.opp Z.pos_sub Pos.add Pos.succ Pos.pred_double Z.succ_double
       Z.pred_double Z.double].
  split; lra.
Qed.

(** A trace entry that lies within the screen bounds, is not younger than
    the current time and has a brightness between 0 and 1 is drawn without an
    exception under any persistence above 0: it is skipped when its age has
    reached twice the persistence, and otherwise drawn as a circle centred
    inside the view rectangle, of radius 2 to 7, in the colour
    [(0, intensity, blue)] with [0 <= blue <= intensity <= 255]. *)
Lemma draw_screen_trace_cases (p now : R) (t : Trace R) :
  0 < p ->
  trace_on_screen t = true ->
  trace_time t <= now ->
  0 <= trace_brightness t <= 1 ->
  (2 * p <= now - trace_time t /\ draw_screen_trace p now t = Skipped)
  \/ (now - trace_time t < 2 * p
      /\ exists (intensity blue : Z) (centre : Z * Z) (radius : Z),
           draw_screen_trace p now t = Circle (0%Z, intensity, blue) centre radius
           /\ (0 <= blue <= intensity)%Z /\ (intensity <= 255)%Z
           /\ (2 <= radius <= 7)%Z
           /\ collidepoint screen_view_rect centre = true).
Proof.
  intros Hp Hon Hage [Hb0 Hb1].
  apply trace_on_screen_real in Hon. destruct Hon as [Hx Hy].
  apply Rabs_le_both in Hx. apply Rabs_le_both in Hy.
  destruct screen_scales_real as [Hsx Hsy].
  set (age := now - trace_time t).
  assert (Hage0 : 0 <= age) by (unfold age; lra).
  assert (Hswap : p * 2 = 2 * p) by ring.
  unfold draw_screen_trace.
  cbn [to_int real_display sub mul add div ltb of_Z lit_0_8 real_num].
  fold age. rewrite py_max_Rmax, Hsx, Hsy, Hswap.
  destruct (Rltb age (2 * p)) eqn:Hlt.
  2:{ left. apply Rltb_false in Hlt. split; [exact Hlt | reflexivity]. }
  apply Rltb_true in Hlt. right. split; [exact Hlt |].
  assert (Hz : is_zero (2 * p) = false).
  { unfold is_zero. cbn [leb of_Z real_num].
    assert (Hle : Rleb (2 * p) 0 = false) by (apply Rleb_false; lra).
    rewrite Hle. reflexivity. }
  rewrite Hz.
  set (alpha := Rmax (lit_0_1 (F := R)) (1 - age / (2 * p))).
  assert (Hfrac : 0 <= age / (2 * p) < 1).
  { assert (Hinv : 0 < / (2 * p)) by (apply Rinv_0_lt_compat; lra).
    assert (Hone : 2 * p * / (2 * p) = 1) by (apply Rinv_r; lra).
    unfold Rdiv. split; nra. }
  assert (Halpha : 0.1 <= alpha <= 1).
  { unfold alpha. cbn [lit_0_1 real_num]. split.
    - apply Rmax_l.
    - apply Rmax_lub; lra. }
  (* the centre *)
  assert (Hpx : (260 <= Rtrunc (IZR screen_center_x + trace_x t * 3050) <= 870)%Z).
  { apply Rtrunc_bounds; [lia |].
    change (IZR screen_center_x) with 565. lra. }
  assert (Hpy : (405 <= Rtrunc (IZR screen_center_y - trace_y t * 1800) <= 765)%Z).
  { apply Rtrunc_bounds; [lia |].
    change (IZR screen_center_y) with 585. lra. }
  assert (Hcol : collidepoint screen_view_rect
                   (Rtrunc (IZR screen_center_x + trace_x t * 3050),
                    Rtrunc (IZR screen_center_y - trace_y t * 1800)) = true).
  { unfold collidepoint.
    cbn [fst snd screen_view_rect rect_x rect_y rect_width rect_height].
    rewrite !andb_true_iff.
    repeat split; (apply Z.leb_le || apply Z.ltb_lt); lia. }
  rewrite Hcol.
  (* the colour *)
  assert (Hab : 0 <= alpha * trace_brightness t <= 1) by nra.
  assert (Hi : (0 <= Rtrunc (255 * alpha * trace_brightness t) <= 255)%Z).
  { apply Rtrunc_bounds; [lia |]. nra. }
  set (intensity := Rtrunc (255 * alpha * trace_brightness t)) in *.
  assert (HiR : 0 <= IZR intensity <= 255).
  { destruct Hi as [Hi0 Hi1]. apply IZR_le in Hi0, Hi1. lra. }
  assert (Hblue : (0 <= Rtrunc (IZR intensity * 0.8) <= intensity)%Z).
  { apply Rtrunc_bounds; [lia |]. lra. }
  assert (Hseven : (0 <= Rtrunc (7 * alpha * trace_brightness t) <= 7)%Z).
  { apply Rtrunc_bounds; [lia |]. nra. }
  assert (Hvalid : valid_colour (0%Z, intensity, Rtrunc (IZR intensity * 0.8)) = true).
  { unfold valid_colour. rewrite !andb_true_iff.
    repeat split; apply Z.leb_le; lia. }
  unfold draw_circle. rewrite Hvalid.
  eexists _, _, _, _. split; [reflexivity |].
  repeat split; try lia. exact Hcol.
Qed.

Lemma draw_screen_trace_well_drawn (p now : R) (t : Trace R) :
  0 < p ->
  trace_on_screen t = true ->
  trace_time t <= now ->
  0 <= trace_brightness t <= 1 ->
  well_drawn (draw_screen_trace p now t).
Proof.
  intros Hp Hon Hage Hb.
  destruct (draw_screen_trace_cases p now t Hp Hon Hage Hb)
    as [[_ Hskip] | [_ [i [b [c [r [Hdraw [Hb' [Hi [Hr Hc]]]]]]]]]].
  - rewrite Hskip. exact I.
  - rewrite Hdraw. cbn [well_drawn]. repeat split; try lia; try exact Hc.
    unfold valid_colour. rewrite !andb_true_iff.
    repeat split; apply Z.leb_le; lia.
Qed.

(** *** The buffer of a run is always drawable *)

Lemma drawable_later (t' : R) (s : CRTSimulation R) :
  drawable s -> time s <= t' -> drawable (set_time t' s).
Proof.
  unfold drawable. cbn [screen_traces time set_time]. intros Hs Ht.
  apply Forall_impl with (2 := Hs).
  intros t [Hon [Htime Hb]]. repeat split; try tauto. lra.
Qed.

Lemma substep_drawable (dt Vv Vh : R) (s : CRTSimulation R) :
  0 <= acceleration_voltage (sliders s) ->
  drawable s -> drawable (Simul.substep dt Vv Vh s).
Proof.
  intros HVa Hs.
  destruct (substep_frame dt Vv Vh s) as [_ [Htime _]].
  unfold drawable. rewrite Htime, substep_screen_traces.
  destruct (has_hit_screen (moved dt Vv Vh s)); [| exact Hs].
  destruct (is_within_screen_bounds (moved dt Vv Vh s)) eqn:Hin; [| exact Hs].
  apply Forall_deque_append; [exact Hs |].
  split; [exact Hin |]. cbn [hit_trace trace_time trace_brightness].
  split; [lra |].
  rewrite py_min_Rmin. cbn [of_Z div real_num].
  split.
  - apply Rmin_glb; [lra |]. unfold Rdiv. nra.
  - apply Rmin_l.
Qed.

Lemma substeps_drawable (k : nat) (dt Vv Vh : R) (s : CRTSimulation R) :
  0 <= acceleration_voltage (sliders s) ->
  drawable s -> drawable (Nat.iter k (Simul.substep dt Vv Vh) s).
Proof.
  intros HVa Hs. induction k as [| k IH]; [exact Hs |].
  rewrite Nat.iter_succ. apply substep_drawable; [| exact IH].
  destruct (substeps_frame k dt Vv Vh s) as [_ [_ [_ Hsl]]].
  rewrite Hsl. exact HVa.
Qed.

Lemma update_physics_drawable (c : Z) (s : CRTSimulation R) :
  (0 <= c)%Z -> (0 <= simulation_speed s)%Z ->
  0 <= acceleration_voltage (sliders s) ->
  drawable s -> drawable (Simul.update_physics c s).
Proof.
  intros Hc Hv HVa Hs. unfold Simul.update_physics.
  destruct (simulation_speed s =? 0)%Z; [exact Hs |].
  destruct (Simul.get_voltages _) as [Vv Vh].
  apply substeps_drawable; [exact HVa |].
  apply drawable_later; [exact Hs |].
  cbn [add of_Z real_num].
  assert (H : (0 <= c * simulation_speed s)%Z) by (apply Z.mul_nonneg_nonneg; assumption).
  apply IZR_le in H. lra.
Qed.

Lemma frame_drawable (c : Z) (s : CRTSimulation R) :
  (0 <= c)%Z -> (0 <= simulation_speed s)%Z ->
  0 <= acceleration_voltage (sliders s) ->
  drawable s -> drawable (Simul.frame c s).
Proof.
  intros Hc Hv HVa Hs.
  pose proof (update_physics_drawable c s Hc Hv HVa Hs) as Hup.
  unfold Simul.frame.
  destruct (0 <? simulation_speed (Simul.update_physics c s))%Z; [| exact Hup].
  apply drawable_later; [exact Hup |].
  cbn [add of_Z real_num]. lra.
Qed.

Lemma run_drawable (clock : nat -> Z) (n : nat) (s : CRTSimulation R) :
  (forall i, (0 <= clock i)%Z) -> (0 <= simulation_speed s)%Z ->
  0 <= acceleration_voltage (sliders s) ->
  drawable s ->
  drawable (Simul.run clock n s)
  /\ simulation_speed (Simul.run clock n s) = simulation_speed s
  /\ sliders (Simul.run clock n s) = sliders s.
Proof.
  intros Hclock. unfold Simul.run.
  induction n as [| n IH]; intros Hv HVa Hs.
  - repeat split. exact Hs.
  - rewrite run_from_snoc.
    destruct (IH Hv HVa Hs) as [IHd [IHv IHs]].
    destruct (frame_frame (trig := real_trig)
                (clock (0 + n)%nat) (Simul.run_from clock 0 n s))
      as [_ [Hv' Hs']].
    rewrite Hv', Hs', IHv, IHs. repeat split.
    apply frame_drawable; [apply Hclock | | | exact IHd].
    + rewrite IHv. exact Hv.
    + rewrite IHs. exact HVa.
Qed.

(** X12.  In any run without pause-state or slider changes in which the clock
    never reads a negative value, with an acceleration voltage that is not
    negative and a persistence above 0, the persistence loop of
    [draw_screen_view] never raises when it draws the frame: each stored
    entry is either skipped or drawn as a circle with a valid colour, centred
    inside the view rectangle, of radius 2 to 7. *)
Theorem screen_view_never_raises
  (clock : nat -> Z) (n : nat) (s : CRTSimulation R) :
  (forall i, (0 <= clock i)%Z) ->
  (0 <= simulation_speed s)%Z ->
  0 <= acceleration_voltage (sliders s) ->
  0 < persistence (sliders s) ->
  drawable s ->
  Forall well_drawn
    (draw_screen_traces (Simul.update_physics (clock n) (Simul.run clock n s))).
Proof.
  intros Hclock Hv HVa Hp Hs.
  destruct (run_drawable clock n s Hclock Hv HVa Hs) as [Hd [Hv' Hs']].
  assert (Hup : drawable (Simul.update_physics (clock n) (Simul.run clock n s))).
  { apply update_physics_drawable; [apply Hclock | | | exact Hd].
    - rewrite Hv'. exact Hv.
    - rewrite Hs'. exact HVa. }
  destruct (update_physics_frame (trig := real_trig)
              (clock n) (Simul.run clock n s)) as [_ [_ [Hsl _]]].
  unfold draw_screen_traces. rewrite Hsl, Hs'.
  apply Forall_map. apply Forall_impl with (2 := Hup).
  intros t [Hon [Htime Hb]].
  apply draw_screen_trace_well_drawn; assumption.
Qed.

(** The first frame drawn from the initial state. *)
Lemma screen_view_never_raises_witness :
  Forall well_drawn
    (draw_screen_traces
       (Simul.update_physics 16 (Simul.run (F := R) (fun _ => 16%Z) 0 init))).
Proof.
  apply (screen_view_never_raises (fun _ => 16%Z) 0 init).
  - intros i. lia.
  - cbn [simulation_speed init]. lia.
  - cbn [acceleration_voltage sliders init initial_sliders of_Z real_num]. lra.
  - cbn [persistence sliders init initial_sliders of_Z real_num]. lra.
  - constructor.
Defined.

End RealScreenView.

(** ** [Slider]: dragging, range and handle *)

Section SliderFacts.
Context {F : Type} {num : Num F} {display : Display F}.
Local Open Scope num_scope.

Lemma slider_handle_event_track (event : Event) (sl sl' : Slider F) :
  slider_handle_event event sl = Some sl' -> track sl' = track sl.
Proof.
  unfold slider_handle_event, track.
  destruct event as [| key | pos | pos | pos |]; intros H.
  - injection H as <-. reflexivity.
  - injection H as <-. reflexivity.
  - destruct (collidepoint (slider_rect sl) pos); injection H as <-; reflexivity.
  - injection H as <-. reflexivity.
  - destruct (dragging sl).
    + destruct (rect_width (slider_rect sl) =? 0)%Z; [discriminate |].
      injection H as <-. reflexivity.
    + injection H as <-. reflexivity.
  - injection H as <-. reflexivity.
Qed.

(** What one event does to a slider, case by case. *)
Lemma slider_handle_event_cases (event : Event) (sl : Slider F) :
  (exists pos, event = MOUSEMOTION pos /\ dragging sl = true
               /\ rect_width (slider_rect sl) = 0%Z
               /\ slider_handle_event event sl = None)
  \/ (exists pos, event = MOUSEMOTION pos /\ dragging sl = true
                  /\ rect_width (slider_rect sl) <> 0%Z
                  /\ slider_handle_event event sl
                     = Some (set_val (value_at sl (clamped_rel_x sl pos)) sl))
  \/ (slider_handle_event event sl
      = Some (set_dragging
                (match event with
                 | MOUSEBUTTONUP _ => false
                 | _ => dragging sl || grabs sl event
                 end) sl)).
Proof.
  destruct sl as [r lo hi v d].
  destruct event as [| key | pos | pos | pos |];
    cbn [slider_handle_event grabs dragging slider_rect set_dragging].
  - right. right. rewrite orb_false_r. reflexivity.
  - right. right. rewrite orb_false_r. reflexivity.
  - right. right. destruct (collidepoint r pos); destruct d; reflexivity.
  - right. right. reflexivity.
  - destruct d.
    + destruct (rect_width r =? 0)%Z eqn:Hw.
      * left. exists pos. apply Z.eqb_eq in Hw. repeat split. exact Hw.
      * right. left. exists pos. apply Z.eqb_neq in Hw. repeat split. exact Hw.
    + right. right. reflexivity.
  - right. right. rewrite orb_false_r. reflexivity.
Qed.

Lemma grabs_width (sl : Slider F) (event : Event) :
  grabs sl event = true -> (0 < rect_width (slider_rect sl))%Z.
Proof.
  destruct event as [| key | pos | pos | pos |]; cbn [grabs]; try discriminate.
  unfold collidepoint. rewrite !andb_true_iff.
  intros [[[H1 H2] _] _]. apply Z.leb_le in H1. apply Z.ltb_lt in H2. lia.
Qed.

(** A slider that is being dragged has a track of positive width, if that
    held before the event. *)
Lemma slider_handle_event_grabbed (event : Event) (sl sl' : Slider F) :
  (dragging sl = true -> (0 < rect_width (slider_rect sl))%Z) ->
  slider_handle_event event sl = Some sl' ->
  dragging sl' = true -> (0 < rect_width (slider_rect sl'))%Z.
Proof.
  intros Hinv H Hd.
  destruct (slider_handle_event_cases event sl)
    as [[pos [_ [_ [_ Hn]]]] | [[pos [_ [Hdr [_ Hs]]]] | Hs]].
  - rewrite Hn in H. discriminate.
  - rewrite Hs in H. injection H as <-. cbn [set_val slider_rect]. auto.
  - rewrite Hs in H. injection H as <-.
    cbn [set_dragging slider_rect dragging] in Hd |- *.
    assert (Hor : dragging sl || grabs sl event = true)
      by (destruct event; try exact Hd; discriminate).
    apply orb_true_iff in Hor. destruct Hor as [Hor | Hor].
    + exact (Hinv Hor).
    + exact (grabs_width sl event Hor).
Qed.

Lemma slider_handle_event_returns (event : Event) (sl : Slider F) :
  (dragging sl = true -> (0 < rect_width (slider_rect sl))%Z) ->
  exists sl', slider_handle_event event sl = Some sl'.
Proof.
  intros Hinv.
  destruct (slider_handle_event_cases event sl)
    as [[pos [_ [Hd [Hw _]]]] | [[pos [_ [_ [_ Hs]]]] | Hs]].
  - specialize (Hinv Hd). lia.
  - eexists. exact Hs.
  - eexists. exact Hs.
Qed.

Lemma slider_handle_events_returns (events : list Event) (sl : Slider F) :
  (dragging sl = true -> (0 < rect_width (slider_rect sl))%Z) ->
  exists sl', slider_handle_events events sl = Some sl'.
Proof.
  revert sl. induction events as [| event events IH]; intros sl Hinv.
  - eexists. reflexivity.
  - destruct (slider_handle_event_returns event sl Hinv) as [sl1 H1].
    cbn [slider_handle_events]. rewrite H1. apply IH.
    exact (slider_handle_event_grabbed event sl sl1 Hinv H1).
Qed.

(** X13.  The division by the width of the track in [Slider.handle_event] never
    raises on a slider made by the constructor, whatever its geometry and
    whatever events arrive: a track of width 0 contains no point, so such a
    slider is never grabbed and the division is never reached. *)
Theorem slider_events_never_raise
  (x y width height : Z) (lo hi initial : F) (events : list Event) :
  exists sl',
    slider_handle_events events (new_slider x y width height lo hi initial)
    = Some sl'.
Proof.
  apply slider_handle_events_returns.
  cbn [new_slider dragging]. discriminate.
Qed.

(** X14.  A slider that is not being dragged keeps its value through any events
    among which there is no press inside its track. *)
Theorem slider_moves_only_when_grabbed
  (events : list Event) (sl sl' : Slider F) :
  dragging sl = false ->
  forallb (fun event => negb (grabs sl event)) events = true ->
  slider_handle_events events sl = Some sl' ->
  val sl' = val sl /\ dragging sl' = false.
Proof.
  revert sl. induction events as [| event events IH]; intros sl Hd Hno H.
  - injection H as <-. auto.
  - cbn [forallb] in Hno. apply andb_true_iff in Hno. destruct Hno as [Hg Hno].
    apply negb_true_iff in Hg.
    cbn [slider_handle_events] in H.
    destruct (slider_handle_event_cases event sl)
      as [[pos [_ [Hdr _]]] | [[pos [_ [Hdr _]]] | Hs]];
      try (rewrite Hd in Hdr; discriminate).
    rewrite Hs in H.
    assert (Hsame : set_dragging
                      match event with
                      | MOUSEBUTTONUP _ => false
                      | _ => dragging sl || grabs sl event
                      end sl = sl).
    { rewrite Hd, Hg. destruct sl as [r lo hi v d]. cbn in Hd. subst d.
      destruct event; reflexivity. }
    rewrite Hsame in H. exact (IH sl Hd Hno H).
Qed.

End SliderFacts.

(** A press outside the track followed by mouse motion leaves the value of
    the acceleration slider as it was. *)
Lemma slider_moves_only_when_grabbed_witness :
  val (F := float)
    (set_dragging false (sl_acceleration_voltage initial_controls))
  = 2000%float
  /\ dragging (F := float)
       (set_dragging false (sl_acceleration_voltage initial_controls)) = false.
Proof.
  exact (slider_moves_only_when_grabbed
           [MOUSEBUTTONDOWN (10, 10)%Z; MOUSEMOTION (1300, 95)%Z;
            MOUSEBUTTONUP (1300, 95)%Z]
           (sl_acceleration_voltage initial_controls)
           (set_dragging false (sl_acceleration_voltage initial_controls))
           eq_refl eq_refl eq_refl).
Defined.

(** ** [Slider] in real arithmetic *)

Section RealSliders.
Local Open Scope R_scope.

Lemma clamped_rel_x_bounds {F : Type} (sl : Slider F) (pos : Z * Z) :
  (0 <= rect_width (slider_rect sl))%Z ->
  (0 <= clamped_rel_x sl pos <= rect_width (slider_rect sl))%Z.
Proof. unfold clamped_rel_x. lia. Qed.

Lemma value_at_real (sl : Slider R) (rel_x : Z) :
  value_at sl rel_x
  = min_val sl
    + IZR rel_x / IZR (rect_width (slider_rect sl)) * (max_val sl - min_val sl).
Proof. reflexivity. Qed.

Lemma value_at_in_range (sl : Slider R) (rel_x : Z) :
  (0 < rect_width (slider_rect sl))%Z ->
  (0 <= rel_x <= rect_width (slider_rect sl))%Z ->
  min_val sl <= max_val sl ->
  min_val sl <= value_at sl rel_x <= max_val sl.
Proof.
  intros Hw [H0 H1] Hr. rewrite value_at_real.
  apply IZR_lt in Hw. apply IZR_le in H0. apply IZR_le in H1.
  set (w := IZR (rect_width (slider_rect sl))) in *.
  set (r := IZR rel_x) in *.
  assert (Hq0 : 0 <= r / w).
  { unfold Rdiv. apply Rmult_le_pos; [lra |].
    apply Rlt_le, Rinv_0_lt_compat. lra. }
  assert (Hq1 : r / w <= 1).
  { apply Rmult_le_reg_r with (r := w); [lra |].
    unfold Rdiv. rewrite Rmult_assoc, Rinv_l by lra. lra. }
  split; nra.
Qed.

Lemma slider_handle_event_in_range (event : Event) (sl sl' : Slider R) :
  (dragging sl = true -> (0 < rect_width (slider_rect sl))%Z) ->
  min_val sl <= max_val sl ->
  slider_in_range sl ->
  slider_handle_event event sl = Some sl' ->
  slider_in_range sl'.
Proof.
  intros Hinv Hr Hin H.
  destruct (slider_handle_event_cases event sl)
    as [[pos [_ [_ [_ Hn]]]] | [[pos [_ [Hd [_ Hs]]]] | Hs]].
  - rewrite Hn in H. discriminate.
  - rewrite Hs in H. injection H as <-.
    unfold slider_in_range. cbn [set_val min_val max_val val].
    specialize (Hinv Hd).
    apply value_at_in_range; [exact Hinv | | exact Hr].
    apply clamped_rel_x_bounds. lia.
  - rewrite Hs in H. injection H as <-. exact Hin.
Qed.

(** X15.  In real arithmetic the value of a slider never leaves its range: made by
    the constructor with a range [lo <= hi] and an initial value inside it,
    it holds a value from [lo] to [hi] after any events. *)
Theorem slider_value_stays_in_range
  (x y width height : Z) (lo hi initial : R) (events : list Event)
  (sl' : Slider R) :
  lo <= initial <= hi ->
  slider_handle_events events (new_slider x y width height lo hi initial)
  = Some sl' ->
  lo <= val sl' <= hi.
Proof.
  intros Hin H.
  assert (Hgen : forall sl : Slider R,
             (dragging sl = true -> (0 < rect_width (slider_rect sl))%Z) ->
             min_val sl <= max_val sl -> slider_in_range sl ->
             slider_handle_events events sl = Some sl' ->
             slider_in_range sl' /\ track sl' = track sl).
  { clear. induction events as [| event events IH]; intros sl Hinv Hr Hs H.
    - injection H as <-. auto.
    - cbn [slider_handle_events] in H.
      destruct (slider_handle_event event sl) as [sl1 |] eqn:H1; [| discriminate].
      pose proof (slider_handle_event_track event sl sl1 H1) as Ht.
      assert (Ht' := Ht). unfold track in Ht'. injection Ht' as Hrect Hlo Hhi.
      destruct (IH sl1) as [Hin' Htr'].
      + exact (slider_handle_event_grabbed event sl sl1 Hinv H1).
      + rewrite Hlo, Hhi. exact Hr.
      + exact (slider_handle_event_in_range event sl sl1 Hinv Hr Hs H1).
      + exact H.
      + split; [exact Hin' | congruence]. }
  destruct (Hgen (new_slider x y width height lo hi initial)) as [Hr Ht].
  - cbn [new_slider dragging]. discriminate.
  - cbn [new_slider min_val max_val]. lra.
  - exact Hin.
  - exact H.
  - unfold track in Ht. cbn [new_slider slider_rect min_val max_val] in Ht.
    injection Ht as _ Hlo Hhi. unfold slider_in_range in Hr.
    rewrite Hlo, Hhi in Hr. exact Hr.
Qed.

Lemma Rtrunc_IZR (k : Z) : (0 <= k)%Z -> Rtrunc (IZR k) = k.
Proof.
  intros Hk.
  assert (H : (k <= Rtrunc (IZR k) <= k)%Z)
    by (apply Rtrunc_bounds; [exact Hk | lra]).
  lia.
Qed.

Lemma is_zero_real (d : R) : d <> 0 -> is_zero d = false.
Proof.
  intros Hd. unfold is_zero. cbn [leb of_Z real_num].
  destruct (Rleb d 0) eqn:H1; [| reflexivity].
  destruct (Rleb 0 d) eqn:H2; [| reflexivity].
  apply Rleb_true in H1. apply Rleb_true in H2. exfalso. apply Hd. lra.
Qed.

(** X16.  In real arithmetic the handle is drawn where the drag left it: after a
    mouse motion on a dragged slider whose range is not empty, [Slider.draw]
    computes the handle position as the mouse position relative to the track,
    clamped to the track. *)
Theorem handle_follows_mouse (pos : Z * Z) (sl sl' : Slider R) :
  dragging sl = true ->
  min_val sl <> max_val sl ->
  slider_handle_event (MOUSEMOTION pos) sl = Some sl' ->
  handle_pos sl' = Some (clamped_rel_x sl pos).
Proof.
  intros Hd Hr H.
  cbn [slider_handle_event] in H. rewrite Hd in H.
  destruct (rect_width (slider_rect sl) =? 0)%Z eqn:Hw; [discriminate |].
  apply Z.eqb_neq in Hw. injection H as <-.
  unfold handle_pos. cbn [set_val min_val max_val val slider_rect].
  rewrite is_zero_real by (cbn [sub real_num]; lra).
  cbn [to_int real_display]. f_equal.
  fold (clamped_rel_x sl pos).
  cbn [add sub mul div of_Z real_num].
  assert (Hw' : IZR (rect_width (slider_rect sl)) <> 0)
    by (intros Hc; apply eq_IZR in Hc; contradiction).
  replace ((min_val sl
            + IZR (clamped_rel_x sl pos) / IZR (rect_width (slider_rect sl))
              * (max_val sl - min_val sl) - min_val sl)
           / (max_val sl - min_val sl) * IZR (rect_width (slider_rect sl)))
    with (IZR (clamped_rel_x sl pos)) by (field; split; lra).
  apply Rtrunc_IZR. unfold clamped_rel_x. lia.
Qed.

End RealSliders.

(** ** The sliders of the panel on binary64 *)

Section FloatSliders.

Lemma Z_range_forallb (P : Z -> bool) (n : nat) :
  forallb P (map Z.of_nat (seq 0 (S n))) = true ->
  forall k : Z, (0 <= k <= Z.of_nat n)%Z -> P k = true.
Proof.
  intros H k Hk. rewrite forallb_forall in H. apply H.
  apply in_map_iff. exists (Z.to_nat k). split; [lia |].
  apply in_seq. lia.
Qed.

Lemma panel_track_checks (r : Rect) (lo hi v : float) (d : bool) (rel_x : Z) :
  In (r, lo, hi) (tracks (F := float) initial_controls) ->
  (0 <= rel_x <= 250)%Z ->
  rect_width r = 250%Z
  /\ drag_in_range (mkSlider r lo hi v d) rel_x = true
  /\ handle_near (mkSlider r lo hi v d) rel_x = true.
Proof.
  intros Hin Hrel.
  assert (Hall : forall k, (0 <= k <= Z.of_nat 250)%Z ->
            (rect_width r =? 250)%Z
            && drag_in_range (mkSlider r lo hi 0%float false) k
            && handle_near (mkSlider r lo hi 0%float false) k = true).
  { apply Z_range_forallb.
    cbn [tracks sliders_list initial_controls map] in Hin.
    repeat (destruct Hin as [Hin | Hin];
            [injection Hin as <- <- <-; vm_compute; reflexivity |]).
    contradiction. }
  specialize (Hall rel_x Hrel).
  rewrite !andb_true_iff in Hall. destruct Hall as [[Hw Hr] Hn].
  apply Z.eqb_eq in Hw. repeat split; assumption.
Qed.

(** X17.  On binary64, for each of the ten sliders of [setup_controls]: a drag
    assigns a value inside the range of the slider, and [Slider.draw] then
    puts the handle at the mouse position (relative to the track, clamped to
    it) or one pixel to its left. *)
Theorem panel_slider_drag_on_floats (pos : Z * Z) (sl sl' : Slider float) :
  In (track sl) (tracks (F := float) initial_controls) ->
  dragging sl = true ->
  slider_handle_event (MOUSEMOTION pos) sl = Some sl' ->
  PrimFloat.leb (min_val sl') (val sl') = true
  /\ PrimFloat.leb (val sl') (max_val sl') = true
  /\ exists p : Z,
       handle_pos sl' = Some p
       /\ (clamped_rel_x sl pos - 1 <= p <= clamped_rel_x sl pos)%Z.
Proof.
  intros Hin Hd H. destruct sl as [r lo hi v d].
  cbn [dragging] in Hd. subst d. unfold track in Hin.
  cbn [slider_rect min_val max_val] in Hin.
  assert (Hw : rect_width r = 250%Z)
    by (destruct (panel_track_checks r lo hi v true 0 Hin) as [Hw _];
        [lia | exact Hw]).
  assert (Hrel : (0 <= clamped_rel_x (mkSlider r lo hi v true) pos <= 250)%Z).
  { rewrite <- Hw. apply (clamped_rel_x_bounds (mkSlider r lo hi v true)).
    cbn [slider_rect]. lia. }
  destruct (panel_track_checks r lo hi v true _ Hin Hrel) as [_ [Hr Hn]].
  cbn [slider_handle_event dragging slider_rect] in H.
  rewrite Hw in H. cbn [Z.eqb] in H. injection H as <-.
  cbn [set_val min_val max_val val].
  unfold drag_in_range in Hr. apply andb_true_iff in Hr. destruct Hr as [Hr1 Hr2].
  unfold value_at in Hr1, Hr2.
  cbn [min_val max_val slider_rect] in Hr1, Hr2.
  unfold clamped_rel_x in Hr1, Hr2, Hn |- *.
  cbn [slider_rect] in Hr1, Hr2, Hn |- *. rewrite ?Hw in Hr1, Hr2, Hn |- *.
  split; [exact Hr1 |]. split; [exact Hr2 |].
  unfold handle_near, value_at in Hn.
  cbn [set_val min_val max_val val slider_rect] in Hn. rewrite ?Hw in Hn.
  unfold handle_pos. cbn [min_val max_val val slider_rect]. rewrite ?Hw.
  match type of Hn with
  | match ?h with _ => _ end = true => destruct h as [p |] eqn:Hp
  end; [| discriminate].
  exists p. split; [exact Hp |].
  apply andb_true_iff in Hn. destruct Hn as [H1 H2].
  apply Z.leb_le in H1. apply Z.leb_le in H2. lia.
Qed.

(** The vertical-frequency slider dragged one pixel into its track: the
    handle is drawn at the left end. *)
Lemma panel_slider_drag_on_floats_witness :
  PrimFloat.leb
    (min_val (set_val (value_at (sl_vert_frequency initial_controls) 1)
                (set_dragging true (sl_vert_frequency initial_controls))))
    (val (set_val (value_at (sl_vert_frequency initial_controls) 1)
            (set_dragging true (sl_vert_frequency initial_controls)))) = true
  /\ PrimFloat.leb
       (val (set_val (value_at (sl_vert_frequency initial_controls) 1)
               (set_dragging true (sl_vert_frequency initial_controls))))
       (max_val (set_val (value_at (sl_vert_frequency initial_controls) 1)
                   (set_dragging true (sl_vert_frequency initial_controls))))
     = true
  /\ exists p : Z,
       handle_pos (F := float)
         (set_val (value_at (sl_vert_frequency initial_controls) 1)
            (set_dragging true (sl_vert_frequency initial_controls))) = Some p
       /\ (clamped_rel_x (F := float) (set_dragging true (sl_vert_frequency initial_controls))
             (1171, 312) - 1 <= p
           <= clamped_rel_x (F := float) (set_dragging true (sl_vert_frequency initial_controls))
                (1171, 312))%Z.
Proof.
  assert (Hin : In (track (set_dragging true
                             (sl_vert_frequency
                                (initial_controls (num := float_num)))))
                   (tracks (F := float) initial_controls))
    by (vm_compute; auto 10).
  exact (panel_slider_drag_on_floats (1171, 312)%Z
           (set_dragging true (sl_vert_frequency initial_controls))
           (set_val (value_at (sl_vert_frequency initial_controls) 1)
              (set_dragging true (sl_vert_frequency initial_controls)))
           Hin eq_refl eq_refl).
Defined.

Example float_handle_left_of_mouse :
  handle_pos (F := float)
    (set_val (value_at (sl_vert_frequency initial_controls) 1)
       (set_dragging true (sl_vert_frequency initial_controls))) = Some 0%Z.
Proof. vm_compute. reflexivity. Qed.

End FloatSliders.

(** ** The window: [handle_events] *)

Section WindowFacts.
Context {F : Type} {num : Num F} {trig : Trig F} {display : Display F}.

(** *** The sliders under [handle_events] *)

Lemma controls_handle_event_sliders (event : Event) (c c' : Controls F) :
  controls_handle_event event c = Some c' ->
  Forall2 (fun sl sl' => slider_handle_event event sl = Some sl')
    (sliders_list c) (sliders_list c').
Proof.
  unfold controls_handle_event. intros H.
  destruct (slider_handle_event event (sl_acceleration_voltage c)) eqn:H1;
    [| discriminate].
  destruct (slider_handle_event event (sl_persistence c)) eqn:H2; [| discriminate].
  destruct (slider_handle_event event (sl_vertical_voltage c)) eqn:H3;
    [| discriminate].
  destruct (slider_handle_event event (sl_horizontal_voltage c)) eqn:H4;
    [| discriminate].
  destruct (slider_handle_event event (sl_vert_amplitude c)) eqn:H5;
    [| discriminate].
  destruct (slider_handle_event event (sl_vert_frequency c)) eqn:H6;
    [| discriminate].
  destruct (slider_handle_event event (sl_vert_phase c)) eqn:H7; [| discriminate].
  destruct (slider_handle_event event (sl_horiz_amplitude c)) eqn:H8;
    [| discriminate].
  destruct (slider_handle_event event (sl_horiz_frequency c)) eqn:H9;
    [| discriminate].
  destruct (slider_handle_event event (sl_horiz_phase c)) eqn:H10;
    [| discriminate].
  injection H as <-. cbn [sliders_list sl_acceleration_voltage sl_persistence
    sl_vertical_voltage sl_horizontal_voltage sl_vert_amplitude sl_vert_frequency
    sl_vert_phase sl_horiz_amplitude sl_horiz_frequency sl_horiz_phase].
  repeat constructor; assumption.
Qed.

Lemma controls_handle_event_returns (event : Event) (c : Controls F) :
  Forall (fun sl => rect_width (slider_rect sl) <> 0%Z) (sliders_list c) ->
  exists c', controls_handle_event event c = Some c'.
Proof.
  intros Hw.
  assert (Hs : forall sl, In sl (sliders_list c) ->
                 exists sl', slider_handle_event event sl = Some sl').
  { intros sl Hin. rewrite Forall_forall in Hw. specialize (Hw sl Hin).
    destruct (slider_handle_event_cases event sl)
      as [[pos [_ [_ [Hz _]]]] | [[pos [_ [_ [_ H]]]] | H]].
    - contradiction.
    - eexists. exact H.
    - eexists. exact H. }
  unfold controls_handle_event.
  destruct (Hs (sl_acceleration_voltage c)) as [s1 ->]; [cbn; auto 12 |].
  destruct (Hs (sl_persistence c)) as [s2 ->]; [cbn; auto 12 |].
  destruct (Hs (sl_vertical_voltage c)) as [s3 ->]; [cbn; auto 12 |].
  destruct (Hs (sl_horizontal_voltage c)) as [s4 ->]; [cbn; auto 12 |].
  destruct (Hs (sl_vert_amplitude c)) as [s5 ->]; [cbn; auto 12 |].
  destruct (Hs (sl_vert_frequency c)) as [s6 ->]; [cbn; auto 12 |].
  destruct (Hs (sl_vert_phase c)) as [s7 ->]; [cbn; auto 12 |].
  destruct (Hs (sl_horiz_amplitude c)) as [s8 ->]; [cbn; auto 12 |].
  destruct (Hs (sl_horiz_frequency c)) as [s9 ->]; [cbn; auto 12 |].
  destruct (Hs (sl_horiz_phase c)) as [s10 ->]; [cbn; auto 12 |].
  eexists. reflexivity.
Qed.

Lemma controls_handle_event_tracks (event : Event) (c c' : Controls F) :
  controls_handle_event event c = Some c' -> tracks c' = tracks c.
Proof.
  intros H. apply controls_handle_event_sliders in H. unfold tracks.
  induction H as [| sl sl' l l' Hs _ IH]; [reflexivity |].
  cbn [map]. rewrite IH. f_equal.
  exact (slider_handle_event_track event sl sl' Hs).
Qed.

(** *** Every statement of the loop body keeps an invariant *)

Lemma handle_event_steps (P : Window F -> Prop) (event : Event) :
  (forall w, P w -> P (set_running false w)) ->
  (forall w, P w -> P (toggle_pause w)) ->
  (forall w, P w -> P (clear_traces w)) ->
  (forall w, P w -> P (reset_electron w)) ->
  (forall w, P w -> P (toggle_beam w)) ->
  (forall c w, P w -> controls_handle_event event (controls w) = Some c ->
               P (set_controls c w)) ->
  (forall m w, P w -> P (select_mode m w)) ->
  (forall w, P w -> P (set_show_presets (negb (show_presets w)) w)) ->
  (forall b p w, P w -> In (b, p) (preset_buttons w) -> P (apply_preset p w)) ->
  forall w w', P w -> handle_event event w = Some w' -> P w'.
Proof.
  intros Hquit Hpause Hclear Hreset Hbeam Hsliders Hmode Hmenu Hpreset w w' Hw H.
  unfold handle_event in H. cbv zeta in H.
  assert (H1 : P (on_quit event w))
    by (unfold on_quit; destruct event; auto).
  assert (H2 : P (on_keydown event (on_quit event w))).
  { unfold on_keydown at 1. destruct event as [| key | pos | pos | pos |]; auto.
    destruct key; cbn [handle_key]; auto. }
  destruct (controls_handle_event event
              (controls (on_keydown event (on_quit event w)))) as [c |] eqn:Hc;
    [| discriminate].
  injection H as <-.
  pose proof (Hsliders c _ H2 Hc) as H3.
  set (w3 := set_controls c (on_keydown event (on_quit event w))) in *.
  assert (H4 : P (on_manual event w3))
    by (unfold on_manual; destruct (button_handle_event _ _); auto).
  set (w4 := on_manual event w3) in *.
  assert (H5 : P (on_lissajous event w4))
    by (unfold on_lissajous; destruct (button_handle_event _ _); auto).
  set (w5 := on_lissajous event w4) in *.
  assert (H6 : P (on_preset_lissajous event w5))
    by (unfold on_preset_lissajous; destruct (_ && _); auto).
  set (w6 := on_preset_lissajous event w5) in *.
  assert (H7 : P (on_preset_buttons event w6)).
  { unfold on_preset_buttons. destruct (_ && _); [| exact H6].
    unfold handle_preset_buttons.
    destruct (find _ (preset_buttons w6)) as [[b p] |] eqn:Hf; [| exact H6].
    apply find_some in Hf. destruct Hf as [Hin _]. exact (Hpreset b p w6 H6 Hin). }
  set (w7 := on_preset_buttons event w6) in *.
  assert (H8 : P (on_clear event w7))
    by (unfold on_clear; destruct (button_handle_event _ _); auto).
  set (w8 := on_clear event w7) in *.
  assert (H9 : P (on_pause event w8))
    by (unfold on_pause; destruct (button_handle_event _ _); auto).
  set (w9 := on_pause event w8) in *.
  unfold on_beam_toggle. destruct (button_handle_event _ _); auto.
Qed.

Lemma handle_events_steps (P : Window F -> Prop) :
  (forall event w w', P w -> handle_event event w = Some w' -> P w') ->
  forall events w w', P w -> handle_events events w = Some w' -> P w'.
Proof.
  intros Hstep events. induction events as [| event events IH]; intros w w' Hw H.
  - injection H as <-. exact Hw.
  - cbn [handle_events] in H.
    destruct (handle_event event w) as [w1 |] eqn:H1; [| discriminate].
    exact (IH w1 w' (Hstep event w w1 Hw H1) H).
Qed.

(** The loop of [run] keeps what [handle_event], the physics, the menu
    rebuilt by [draw_controls] and the 16 ms keep. *)
Lemma window_run_steps (P : Window F -> Prop) :
  (forall event w w', P w -> handle_event event w = Some w' -> P w') ->
  (forall c w, P w -> P (window_update_physics c w)) ->
  (forall w, P w -> P (set_preset_buttons preset_table w)) ->
  (forall w, P w ->
             P (set_engine (set_time (add (time (engine w)) (of_Z 16)) (engine w)) w)) ->
  forall turns w w', P w -> window_run turns w = Some w' -> P w'.
Proof.
  intros Hevent Hphysics Hmenu Htick turns.
  induction turns as [| [events c] turns IH]; intros w w' Hw H.
  - injection H as <-. exact Hw.
  - cbn [window_run] in H. destruct (running w).
    2:{ injection H as <-. exact Hw. }
    destruct (turn events c w) as [w1 |] eqn:Ht; [| discriminate].
    apply (IH w1 w'); [| exact H].
    unfold turn in Ht.
    destruct (handle_events events w) as [w2 |] eqn:He; [| discriminate].
    pose proof (handle_events_steps P Hevent events w w2 Hw He) as H2.
    pose proof (Hphysics c w2 H2) as H3.
    cbv zeta in Ht.
    destruct (draw (window_update_physics c w2)) as [w4 |] eqn:Hd; [| discriminate].
    assert (H4 : P w4).
    { unfold draw in Hd. destruct (forallb _ _); [| discriminate].
      unfold draw_controls in Hd. destruct (forallb _ _); [| discriminate].
      injection Hd as <-. destruct (_ && _); auto. }
    injection Ht as <-. destruct (0 <? simulation_speed (engine w4))%Z; auto.
Qed.

(** *** What the buttons show *)

Lemma handle_event_labels (event : Event) (w w' : Window F) :
  labels_consistent w -> handle_event event w = Some w' -> labels_consistent w'.
Proof.
  apply handle_event_steps; clear; unfold labels_consistent, is_lissajous.
  - intros w H. exact H.
  - intros w [H1 [H2 [H3 [H4 [H5 H6]]]]].
    cbn. destruct (0 <? simulation_speed (engine w))%Z; cbn;
      repeat split; auto.
  - intros w H. exact H.
  - intros w H. exact H.
  - intros w [H1 [H2 [H3 [H4 [H5 H6]]]]].
    cbn. repeat split; assumption.
  - intros c w H _. exact H.
  - intros m w [H1 [H2 [H3 [H4 [H5 H6]]]]].
    cbn. destruct m; repeat split; assumption.
  - intros w H. exact H.
  - intros b p w H _. exact H.
Qed.

Lemma window_update_physics_engine (c : Z) (w : Window F) :
  mode (engine (window_update_physics c w)) = mode (engine w)
  /\ simulation_speed (engine (window_update_physics c w))
     = simulation_speed (engine w).
Proof.
  unfold window_update_physics. cbn [engine set_engine].
  destruct (update_physics_frame (trig := trig) c (engine_view w)) as [Hm [Hv _]].
  rewrite Hm, Hv. split; reflexivity.
Qed.

Lemma window_run_labels (turns : list (list Event * Z)) (w w' : Window F) :
  labels_consistent w -> window_run turns w = Some w' -> labels_consistent w'.
Proof.
  apply window_run_steps.
  - exact handle_event_labels.
  - intros c w0 H. unfold labels_consistent, is_lissajous in *.
    destruct (window_update_physics_engine c w0) as [Hm Hv].
    rewrite Hm, Hv. exact H.
  - intros w0 H. exact H.
  - intros w0 H. exact H.
Qed.

End WindowFacts.

(** ** The window: layout and sliders along a run *)

Section WindowLayout.
Context {F : Type} {num : Num F} {trig : Trig F} {display : Display F}.
Local Open Scope num_scope.

Lemma apply_preset_tracks (p : Preset F) (w : Window F) :
  tracks (controls (apply_preset p w)) = tracks (controls w).
Proof. reflexivity. Qed.

Lemma handle_event_layout (event : Event) (w w' : Window F) :
  layout_kept w -> handle_event event w = Some w' -> layout_kept w'.
Proof.
  apply handle_event_steps; clear; unfold layout_kept;
    try (intros w H; exact H).
  - intros c w [H1 [H2 H3]] Hc. cbn [controls buttons preset_buttons set_controls].
    repeat split; try assumption.
    rewrite (controls_handle_event_tracks event _ _ Hc). exact H1.
  - intros m w H. exact H.
  - intros b p w H _. exact H.
Qed.

Lemma window_run_layout (turns : list (list Event * Z)) (w w' : Window F) :
  layout_kept w -> window_run turns w = Some w' -> layout_kept w'.
Proof.
  apply window_run_steps; unfold layout_kept.
  - exact handle_event_layout.
  - intros c w0 H. exact H.
  - intros w0 [H1 [H2 _]]. cbn [controls buttons preset_buttons set_preset_buttons].
    auto.
  - intros w0 H. exact H.
Qed.

Lemma initial_window_layout : layout_kept (F := F) initial_window.
Proof. unfold layout_kept. cbn. auto. Qed.

Lemma layout_widths (c : Controls F) :
  tracks c = tracks initial_controls ->
  Forall (fun sl => rect_width (slider_rect sl) = 250%Z) (sliders_list c).
Proof.
  intros H.
  assert (Hw : map (fun sl => rect_width (slider_rect sl)) (sliders_list c)
               = map (fun sl => rect_width (slider_rect sl))
                   (sliders_list (initial_controls (F := F)))).
  { unfold tracks in H.
    apply (f_equal (map (fun t : Rect * F * F => rect_width (fst (fst t))))) in H.
    rewrite !map_map in H. exact H. }
  cbn [sliders_list initial_controls map] in Hw.
  cbn [sl_acceleration_voltage sl_persistence sl_vertical_voltage
       sl_horizontal_voltage sl_vert_amplitude sl_vert_frequency sl_vert_phase
       sl_horiz_amplitude sl_horiz_frequency sl_horiz_phase new_slider
       slider_rect rect_width] in Hw.
  injection Hw as H1 H2 H3 H4 H5 H6 H7 H8 H9 H10.
  unfold sliders_list. repeat constructor; assumption.
Qed.

Lemma keys_keep_controls (event : Event) (w : Window F) :
  controls (on_keydown event (on_quit event w)) = controls w.
Proof.
  destruct event as [| key | pos | pos | pos |]; try reflexivity.
  destruct key; reflexivity.
Qed.

Lemma handle_event_returns (event : Event) (w : Window F) :
  layout_kept w -> exists w', handle_event event w = Some w'.
Proof.
  intros [Ht _]. unfold handle_event. cbv zeta.
  rewrite keys_keep_controls.
  destruct (controls_handle_event_returns event (controls w)) as [c Hc].
  - apply Forall_impl with (2 := layout_widths _ Ht). intros sl H. lia.
  - rewrite Hc. eexists. reflexivity.
Qed.

Lemma handle_events_returns (events : list Event) (w : Window F) :
  layout_kept w -> exists w', handle_events events w = Some w'.
Proof.
  revert w. induction events as [| event events IH]; intros w Hw.
  - eexists. reflexivity.
  - destruct (handle_event_returns event w Hw) as [w1 H1].
    cbn [handle_events]. rewrite H1. apply IH.
    exact (handle_event_layout event w w1 Hw H1).
Qed.

(** X18.  [handle_events] never raises in the running program: in any state the
    loop of [run] reaches from the initial window, every list of events is
    handled without an exception of a slider. *)
Theorem handle_events_never_raises
  (turns : list (list Event * Z)) (events : list Event) (w : Window F) :
  window_run turns initial_window = Some w ->
  exists w', handle_events events w = Some w'.
Proof.
  intros H. apply handle_events_returns.
  exact (window_run_layout turns initial_window w initial_window_layout H).
Qed.

(** X19.  What the buttons show is true of the state, in every state the loop of
    [run] reaches from the initial window: the highlighted mode button is
    the one of the current mode, the pause button reads Reanudar exactly when
    the simulation is paused, the beam button reads and highlights the beam
    state, and [simulation_speed] is 0 or 1. *)
Theorem buttons_show_the_state (turns : list (list Event * Z)) (w : Window F) :
  window_run turns initial_window = Some w -> labels_consistent w.
Proof.
  apply window_run_labels. unfold labels_consistent. cbn. auto 10.
Qed.

(** *** Two sliders on one track *)

Lemma value_at_track (sl sl' : Slider F) (rel_x : Z) :
  track sl' = track sl -> value_at sl' rel_x = value_at sl rel_x.
Proof.
  unfold track, value_at. intros H. injection H as -> -> ->. reflexivity.
Qed.

Lemma slider_handle_event_together (event : Event) (v1 v2 : F)
  (sl1 sl2 sl1' sl2' : Slider F) :
  slider_rect sl1 = slider_rect sl2 ->
  (0 <= rect_width (slider_rect sl1))%Z ->
  moved_together v1 v2 sl1 sl2 ->
  slider_handle_event event sl1 = Some sl1' ->
  slider_handle_event event sl2 = Some sl2' ->
  moved_together v1 v2 sl1' sl2'.
Proof.
  destruct sl1 as [r lo1 hi1 val1 d], sl2 as [r2 lo2 hi2 val2 d2].
  unfold moved_together. cbn [slider_rect dragging val].
  intros <- Hw [<- Hv] H1 H2.
  destruct event as [| key | pos | pos | pos |];
    cbn [slider_handle_event slider_rect dragging] in H1, H2.
  - injection H1 as <-. injection H2 as <-. auto.
  - injection H1 as <-. injection H2 as <-. auto.
  - destruct (collidepoint r pos); injection H1 as <-; injection H2 as <-;
      cbn [set_dragging dragging val slider_rect]; auto.
  - injection H1 as <-. injection H2 as <-.
    cbn [set_dragging dragging val slider_rect]. auto.
  - destruct d.
    + destruct (rect_width r =? 0)%Z; [discriminate |].
      injection H1 as <-. injection H2 as <-.
      cbn [set_val dragging val slider_rect min_val max_val].
      split; [reflexivity |]. right.
      exists (Z.max 0 (Z.min (fst pos - rect_x r) (rect_width r))).
      split; [lia |]. split; reflexivity.
    + injection H1 as <-. injection H2 as <-. auto.
  - injection H1 as <-. injection H2 as <-. auto.
Qed.

Lemma layout_vertical_pair (w : Window F) :
  layout_kept w ->
  track (sl_vertical_voltage (controls w))
  = (mkRect control_x 265 250 15, of_Z (-300), of_Z 300)
  /\ track (sl_vert_amplitude (controls w))
     = (mkRect control_x 265 250 15, of_Z 50, of_Z 300).
Proof.
  intros [Ht _]. unfold tracks, sliders_list in Ht. cbn [map] in Ht.
  pose proof (f_equal (fun l => nth_error l 2) Ht) as H3.
  pose proof (f_equal (fun l => nth_error l 4) Ht) as H5.
  cbn [nth_error] in H3, H5.
  injection H3 as Hr1 Hl1 Hh1. injection H5 as Hr2 Hl2 Hh2.
  unfold track. rewrite Hr1, Hl1, Hh1, Hr2, Hl2, Hh2. split; reflexivity.
Qed.

Lemma handle_event_vertical_pair (event : Event) (w w' : Window F) :
  layout_kept w /\ vertical_pair_together w ->
  handle_event event w = Some w' ->
  layout_kept w' /\ vertical_pair_together w'.
Proof.
  apply (handle_event_steps
           (fun w => layout_kept w /\ vertical_pair_together w) event);
    clear w w'; intros;
    try match goal with H : _ /\ _ |- _ => exact H end.
  destruct H as [Hl Hp]. split.
  - destruct Hl as [H1 [H2 H3]]. unfold layout_kept.
    cbn [controls buttons preset_buttons set_controls].
    rewrite (controls_handle_event_tracks event _ _ H0). auto.
  - destruct (layout_vertical_pair w Hl) as [Ht1 Ht2].
    pose proof (controls_handle_event_sliders event _ _ H0) as Hs.
    unfold sliders_list in Hs.
    inversion Hs as [| ? ? ? ? _ Hs1]; subst.
    inversion Hs1 as [| ? ? ? ? _ Hs2]; subst.
    inversion Hs2 as [| ? ? ? ? Hvv Hs3]; subst.
    inversion Hs3 as [| ? ? ? ? _ Hs4]; subst.
    inversion Hs4 as [| ? ? ? ? Hva _]; subst.
    unfold vertical_pair_together. cbn [controls set_controls].
    unfold track in Ht1, Ht2. injection Ht1 as Hr1 _ _. injection Ht2 as Hr2 _ _.
    apply (slider_handle_event_together event (of_Z 0) (of_Z 150)
             (sl_vertical_voltage (controls w)) (sl_vert_amplitude (controls w)));
      try assumption.
    + congruence.
    + rewrite Hr1. cbn [rect_width]. lia.
Qed.

(** X20.  In every state the loop of [run] reaches from the initial window, the
    vertical plate voltage of manual mode and the vertical amplitude of
    Lissajous mode are tied: their sliders lie on the same track and every
    event goes to all sliders, so both values are the initial ones (0 V and
    150 V) or both are the values of one handle position [rel_x] from 0 to
    250, whichever of the two sliders is on display. *)
Theorem overlapping_sliders_move_together
  (turns : list (list Event * Z)) (w : Window F) :
  window_run turns initial_window = Some w ->
  (vertical_voltage (slider_values (controls w)) = of_Z 0
   /\ vert_amplitude (slider_values (controls w)) = of_Z 150)
  \/ exists rel_x : Z,
       (0 <= rel_x <= 250)%Z
       /\ vertical_voltage (slider_values (controls w))
          = of_Z (-300) + of_Z rel_x / of_Z 250 * (of_Z 300 - of_Z (-300))
       /\ vert_amplitude (slider_values (controls w))
          = of_Z 50 + of_Z rel_x / of_Z 250 * (of_Z 300 - of_Z 50).
Proof.
  intros H.
  assert (Hinv : layout_kept w /\ vertical_pair_together w).
  { revert H. apply window_run_steps with (P := fun w => layout_kept w /\ vertical_pair_together w).
    - exact handle_event_vertical_pair.
    - intros c w0 H. exact H.
    - intros w0 [[H1 [H2 _]] Hp]. split; [| exact Hp].
      unfold layout_kept. cbn [controls buttons preset_buttons set_preset_buttons].
      auto.
    - intros w0 H. exact H.
    - split; [exact initial_window_layout |].
      unfold vertical_pair_together, moved_together. cbn. auto. }
  destruct Hinv as [Hl [_ Hv]].
  destruct (layout_vertical_pair w Hl) as [Ht1 Ht2].
  cbn [vertical_voltage vert_amplitude slider_values].
  destruct Hv as [Hv | [rel_x [Hrel [Hv1 Hv2]]]]; [left; exact Hv |].
  right. exists rel_x.
  unfold value_at in Hv1, Hv2. unfold track in Ht1, Ht2.
  injection Ht1 as Hr1 Hlo1 Hhi1. injection Ht2 as Hr2 Hlo2 Hhi2.
  rewrite Hr1, Hlo1, Hhi1 in Hv1. rewrite Hr2, Hlo2, Hhi2 in Hv2.
  rewrite Hr1 in Hrel. cbn [rect_width] in Hrel, Hv1, Hv2.
  auto.
Qed.

End WindowLayout.

(** ** The window in real arithmetic: the loop of [run] never raises *)

Section RealWindow.
Local Open Scope R_scope.

Lemma tracks_Forall {F : Type} {num : Num F} (Q : Rect * F * F -> Prop)
  (c c0 : Controls F) :
  tracks c = tracks c0 ->
  Forall (fun sl => Q (track sl)) (sliders_list c0) ->
  Forall (fun sl => Q (track sl)) (sliders_list c).
Proof.
  unfold tracks. intros Ht H.
  apply (proj1 (Forall_map track Q (sliders_list c))).
  rewrite Ht. apply (proj2 (Forall_map track Q (sliders_list c0))). exact H.
Qed.

Lemma layout_panel_tracks (c : Controls R) :
  tracks c = tracks initial_controls ->
  Forall (fun sl => panel_track (track sl)) (sliders_list c).
Proof.
  intros Ht. apply (tracks_Forall panel_track c initial_controls Ht).
  unfold panel_track, sliders_list, track.
  cbn [initial_controls new_slider slider_rect min_val max_val rect_width fst snd
       sl_acceleration_voltage sl_persistence sl_vertical_voltage
       sl_horizontal_voltage sl_vert_amplitude sl_vert_frequency sl_vert_phase
       sl_horiz_amplitude sl_horiz_frequency sl_horiz_phase of_Z lit_0_1 real_num].
  repeat (apply Forall_cons;
          [split; [reflexivity | cbn [new_slider min_val max_val]; lra] |]).
  apply Forall_nil.
Qed.

Lemma sliders_step_in_range (event : Event) (l l' : list (Slider R)) :
  Forall2 (fun sl sl' => slider_handle_event event sl = Some sl') l l' ->
  Forall (fun sl => panel_track (track sl)) l ->
  Forall slider_in_range l ->
  Forall slider_in_range l'.
Proof.
  intros H. induction H as [| sl sl' l l' Hs _ IH]; intros Ht Hr.
  - constructor.
  - inversion Ht as [| ? ? [Hw Hlt] Ht']; subst.
    inversion Hr as [| ? ? Hin Hr']; subst.
    constructor; [| exact (IH Ht' Hr')].
    unfold track in Hw, Hlt. cbn [fst snd] in Hw, Hlt.
    apply (slider_handle_event_in_range event sl sl'); try assumption.
    + intros _. lia.
    + lra.
Qed.

Lemma preset_table_values (b : Button) (p : Preset R) :
  In (b, p) preset_table ->
  0.1 <= preset_fv p <= 10 /\ 0.1 <= preset_fh p <= 10
  /\ 0 <= preset_phase p <= 360.
Proof.
  unfold preset_table, preset_buttons_of, lissajous_presets, enumerate. intros Hin.
  cbn [enumerate_from flat_map map app fst snd] in Hin.
  repeat (destruct Hin as [Hin | Hin];
          [injection Hin as _ <-;
           cbn [preset_fv preset_fh preset_phase of_Z real_num]; lra |]).
  contradiction.
Qed.

Lemma layout_preset_sliders (c : Controls R) :
  tracks c = tracks initial_controls ->
  (min_val (sl_vert_frequency c) = 0.1 /\ max_val (sl_vert_frequency c) = 10)
  /\ (min_val (sl_vert_phase c) = 0 /\ max_val (sl_vert_phase c) = 360)
  /\ (min_val (sl_horiz_frequency c) = 0.1 /\ max_val (sl_horiz_frequency c) = 10)
  /\ (min_val (sl_horiz_phase c) = 0 /\ max_val (sl_horiz_phase c) = 360).
Proof.
  intros Ht. unfold tracks, sliders_list in Ht. cbn [map] in Ht.
  pose proof (f_equal (fun l => nth_error l 5) Ht) as H5.
  pose proof (f_equal (fun l => nth_error l 6) Ht) as H6.
  pose proof (f_equal (fun l => nth_error l 8) Ht) as H8.
  pose proof (f_equal (fun l => nth_error l 9) Ht) as H9.
  cbn [nth_error] in H5, H6, H8, H9.
  injection H5 as _ H5a H5b. injection H6 as _ H6a H6b.
  injection H8 as _ H8a H8b. injection H9 as _ H9a H9b.
  repeat split; assumption.
Qed.

Lemma layout_basic_sliders (c : Controls R) :
  tracks c = tracks initial_controls ->
  min_val (sl_acceleration_voltage c) = 500 /\ min_val (sl_persistence c) = 50.
Proof.
  intros Ht. unfold tracks, sliders_list in Ht. cbn [map] in Ht.
  pose proof (f_equal (fun l => nth_error l 0) Ht) as H0.
  pose proof (f_equal (fun l => nth_error l 1) Ht) as H1.
  cbn [nth_error] in H0, H1.
  injection H0 as _ H0a _. injection H1 as _ H1a _.
  split; assumption.
Qed.

Lemma window_sound_basics (w : Window R) :
  window_sound w ->
  500 <= acceleration_voltage (slider_values (controls w))
  /\ 50 <= persistence (slider_values (controls w)).
Proof.
  intros [[Ht _] [Hr _]].
  destruct (layout_basic_sliders _ Ht) as [Ha Hp].
  unfold sliders_list in Hr.
  inversion Hr as [| ? ? Hr0 Hr']; subst.
  inversion Hr' as [| ? ? Hr1 _]; subst.
  unfold slider_in_range in Hr0, Hr1.
  cbn [acceleration_voltage persistence slider_values]. lra.
Qed.

Lemma handle_event_sound (event : Event) (w w' : Window R) :
  window_sound w -> handle_event event w = Some w' -> window_sound w'.
Proof.
  apply (handle_event_steps window_sound event); clear w w';
    unfold window_sound, drawable.
  - intros w H. exact H.
  - intros w [H1 [H2 [H3 H4]]].
    split; [exact H1 |]. split; [exact H2 |]. split; [exact H3 |].
    cbn. destruct (0 <? simulation_speed (engine w))%Z; lia.
  - intros w [H1 [H2 [H3 H4]]].
    split; [exact H1 |]. split; [exact H2 |]. split; [constructor | exact H4].
  - intros w H. exact H.
  - intros w H. exact H.
  - intros c w [[H1 [H1b H1c]] [H2 [H3 H4]]] Hc.
    split; [| split; [| split; [exact H3 | exact H4]]].
    + unfold layout_kept. cbn [controls buttons preset_buttons set_controls].
      rewrite (controls_handle_event_tracks event _ _ Hc). auto.
    + cbn [controls set_controls].
      apply (sliders_step_in_range event (sliders_list (controls w))).
      * exact (controls_handle_event_sliders event _ _ Hc).
      * exact (layout_panel_tracks _ H1).
      * exact H2.
  - intros m w H. exact H.
  - intros w H. exact H.
  - intros b p w [[H1 [H1b H1c]] [H2 [H3 H4]]] Hin.
    assert (Hp : In (b, p) preset_table).
    { destruct H1c as [He | He]; rewrite He in Hin; [contradiction | exact Hin]. }
    destruct (preset_table_values b p Hp) as [Hfv [Hfh Hph]].
    destruct (layout_preset_sliders _ H1) as [[A1 A2] [[B1 B2] [[C1 C2] [D1 D2]]]].
    split; [unfold layout_kept; auto |].
    split; [| split; [constructor | exact H4]].
    + unfold sliders_list in H2 |- *.
      inversion H2 as [| ? ? I0 T0]; subst. inversion T0 as [| ? ? I1 T1]; subst.
      inversion T1 as [| ? ? I2 T2]; subst. inversion T2 as [| ? ? I3 T3]; subst.
      inversion T3 as [| ? ? I4 T4]; subst. inversion T4 as [| ? ? I5 T5]; subst.
      inversion T5 as [| ? ? I6 T6]; subst. inversion T6 as [| ? ? I7 T7]; subst.
      cbn [apply_preset controls set_controls set_active_preset reset_electron
           clear_traces set_engine set_show_presets
           set_sl_horiz_frequency set_sl_vert_frequency set_sl_horiz_phase
           set_sl_vert_phase sl_acceleration_voltage sl_persistence
           sl_vertical_voltage sl_horizontal_voltage sl_vert_amplitude
           sl_vert_frequency sl_vert_phase sl_horiz_amplitude sl_horiz_frequency
           sl_horiz_phase].
      assert (Hset : forall (v lo hi : R) (sl : Slider R),
                min_val sl = lo -> max_val sl = hi -> lo <= v <= hi ->
                slider_in_range (set_val v sl)).
      { intros v lo hi sl Hlo Hhi Hv. unfold slider_in_range.
        cbn [set_val min_val max_val val]. rewrite Hlo, Hhi. exact Hv. }
      apply Forall_cons; [exact I0 |]. apply Forall_cons; [exact I1 |].
      apply Forall_cons; [exact I2 |]. apply Forall_cons; [exact I3 |].
      apply Forall_cons; [exact I4 |].
      apply Forall_cons; [exact (Hset _ _ _ _ A1 A2 Hfv) |].
      apply Forall_cons; [exact (Hset _ _ _ _ B1 B2 Hph) |].
      apply Forall_cons; [exact I7 |].
      apply Forall_cons; [exact (Hset _ _ _ _ C1 C2 Hfh) |].
      apply Forall_cons; [| apply Forall_nil].
      apply (Hset _ _ _ _ D1 D2). cbn [of_Z real_num]. lra.
Qed.

Lemma handle_events_sound (events : list Event) (w w' : Window R) :
  window_sound w -> handle_events events w = Some w' -> window_sound w'.
Proof. apply handle_events_steps. exact handle_event_sound. Qed.

Lemma window_update_physics_sound (c : Z) (w : Window R) :
  (0 <= c)%Z -> window_sound w -> window_sound (window_update_physics c w).
Proof.
  intros Hc Hw. destruct (window_sound_basics w Hw) as [HVa _].
  destruct Hw as [H1 [H2 [H3 H4]]].
  destruct (update_physics_frame (trig := real_trig) c (engine_view w))
    as [_ [Hv _]].
  unfold window_sound. repeat split.
  - apply H1.
  - apply H1.
  - apply H1.
  - exact H2.
  - assert (Hd : drawable (Simul.update_physics c (engine_view w))).
    { apply update_physics_drawable; try assumption.
      cbn [engine_view set_sliders sliders]. lra. }
    exact Hd.
  - cbn [window_update_physics engine set_engine]. rewrite Hv. exact H4.
Qed.

Lemma draw_sound (w : Window R) :
  window_sound w -> exists w', draw w = Some w' /\ window_sound w'
                               /\ engine w' = engine w.
Proof.
  intros Hw. destruct (window_sound_basics w Hw) as [_ Hp].
  destruct Hw as [[H1 [H1b H1c]] [H2 [H3 H4]]].
  unfold draw.
  assert (Hscreen : forallb (fun o => match o with Raises => false | _ => true end)
                      (draw_screen_traces (engine_view w)) = true).
  { apply forallb_forall. intros o Ho. unfold draw_screen_traces in Ho.
    apply in_map_iff in Ho. destruct Ho as [t [<- Hin]].
    unfold drawable in H3. rewrite Forall_forall in H3.
    destruct (H3 t Hin) as [Hon [Htime Hb]].
    pose proof (draw_screen_trace_well_drawn
                  (persistence (sliders (engine_view w))) (time (engine_view w)) t)
      as Hwd.
    destruct (draw_screen_trace _ _ t); try reflexivity.
    exfalso. apply Hwd; try assumption.
    cbn [engine_view set_sliders sliders]. lra. }
  rewrite Hscreen. unfold draw_controls.
  assert (Hhandles : forallb
            (fun sl => match handle_rect sl with Some _ => true | None => false end)
            (drawn_sliders w) = true).
  { apply forallb_forall. intros sl Hin.
    assert (Hall : In sl (sliders_list (controls w))).
    { unfold drawn_sliders in Hin. unfold sliders_list.
      destruct (mode (engine w)); cbn [app In] in Hin |- *; tauto. }
    pose proof (layout_panel_tracks _ H1) as Ht. rewrite Forall_forall in Ht.
    destruct (Ht sl Hall) as [_ Hlt]. unfold track in Hlt. cbn [fst snd] in Hlt.
    unfold handle_rect, handle_pos.
    rewrite is_zero_real by (cbn [sub real_num]; intros Heq; lra).
    reflexivity. }
  rewrite Hhandles.
  eexists. split; [reflexivity |].
  destruct (is_lissajous w && show_presets w).
  - split; [| reflexivity]. unfold window_sound, layout_kept.
    cbn [controls buttons preset_buttons set_preset_buttons engine]. auto 10.
  - split; [| reflexivity]. unfold window_sound, layout_kept. auto 10.
Qed.

Lemma turn_sound (events : list Event) (c : Z) (w : Window R) :
  (0 <= c)%Z -> window_sound w ->
  exists w', turn events c w = Some w' /\ window_sound w'.
Proof.
  intros Hc Hw. unfold turn.
  destruct (handle_events_returns events w (proj1 Hw)) as [w1 H1].
  rewrite H1. pose proof (handle_events_sound events w w1 Hw H1) as Hw1.
  pose proof (window_update_physics_sound c w1 Hc Hw1) as Hw2.
  cbv zeta.
  destruct (draw_sound _ Hw2) as [w3 [Hd [Hw3 _]]]. rewrite Hd.
  eexists. split; [reflexivity |].
  destruct (0 <? simulation_speed (engine w3))%Z; [| exact Hw3].
  destruct Hw3 as [H1' [H2' [H3' H4']]].
  unfold window_sound. repeat split; try apply H1'; try assumption.
  apply (drawable_later (time (engine w3) + 16) (engine_view w3) H3').
  cbn [engine_view set_sliders time]. lra.
Qed.

Lemma initial_window_sound : window_sound initial_window.
Proof.
  unfold window_sound. repeat split.
  - left. reflexivity.
  - unfold sliders_list, slider_in_range.
    cbn [initial_window controls initial_controls new_slider min_val max_val val
         sl_acceleration_voltage sl_persistence sl_vertical_voltage
         sl_horizontal_voltage sl_vert_amplitude sl_vert_frequency sl_vert_phase
         sl_horiz_amplitude sl_horiz_frequency sl_horiz_phase of_Z lit_0_1 div
         real_num].
    repeat (apply Forall_cons;
            [cbn [new_slider min_val max_val val]; split; lra |]).
    apply Forall_nil.
  - apply Forall_nil.
  - cbn. lia.
Qed.

Lemma window_run_sound (turns : list (list Event * Z)) (w : Window R) :
  clock_forward turns -> window_sound w ->
  exists w', window_run turns w = Some w' /\ window_sound w'.
Proof.
  revert w. induction turns as [| [events c] turns IH]; intros w Hc Hw.
  - eexists. split; [reflexivity | exact Hw].
  - inversion Hc as [| ? ? Hc0 Hc']; subst. cbn [snd] in Hc0.
    cbn [window_run]. destruct (running w).
    2:{ eexists. split; [reflexivity | exact Hw]. }
    destruct (turn_sound events c w Hc0 Hw) as [w1 [H1 Hw1]].
    rewrite H1. exact (IH w1 Hc' Hw1).
Qed.

(** X21.  In real arithmetic the loop of [run] never raises in [handle_events],
    in the persistence loop of [draw_screen_view] or in the slider handles of
    [draw_controls], whatever events arrive, as long as the clock never reads
    a negative value; and in the state it reaches every slider value lies in
    the range of its slider, so that the acceleration voltage is at least
    500 V and the persistence at least 50 ms. *)
Theorem window_run_never_raises (turns : list (list Event * Z)) :
  clock_forward turns ->
  exists w,
    window_run turns initial_window = Some w
    /\ Forall slider_in_range (sliders_list (controls w))
    /\ 500 <= acceleration_voltage (slider_values (controls w))
    /\ 50 <= persistence (slider_values (controls w)).
Proof.
  intros Hc.
  destruct (window_run_sound turns initial_window Hc initial_window_sound)
    as [w [H Hw]].
  exists w. split; [exact H |]. split; [apply Hw |].
  exact (window_sound_basics w Hw).
Qed.

End RealWindow.

(** ** The preset menu *)



Section PresetMenu.
Context {F : Type} {num : Num F} {trig : Trig F} {display : Display F}.








End PresetMenu.

(** ** Instances *)

Section Instances.
Local Open Scope R_scope.

Lemma sample_turns_clock_forward : clock_forward sample_turns.
Proof.
  unfold clock_forward, sample_turns.
  apply Forall_cons; [cbn [snd]; lia |].
  apply Forall_cons; [cbn [snd]; lia |]. apply Forall_nil.
Qed.

Lemma reset_short_of_screen : has_hit_screen (@reset R real_num) = false.
Proof.
  unfold has_hit_screen, screen_distance, DISTANCE_GUN_TO_PLATES, PLATE_LENGTH,
    DISTANCE_BETWEEN_PLATES, DISTANCE_TO_SCREEN.
  cbn [reset z leb add real_num lit_0_05 lit_0_03 lit_0_15 lit_0_001].
  apply Rleb_false. lra.
Qed.

(** Two frames from the initial state. *)
Lemma electron_short_of_screen_witness :
  has_hit_screen (electron (Simul.run (F := R) (fun _ => 16%Z) 2 init)) = false.
Proof.
  apply (electron_short_of_screen (fun _ => 16%Z) 2 init).
  - exact reset_short_of_screen.
  - exact reset_short_of_screen.
Defined.

(** Five frames of the initial state with [simulation_speed] set to 0. *)
Lemma paused_run_unchanged_witness :
  Simul.run (F := R) (fun _ => 16%Z) 5 (set_simulation_speed 0 init)
  = set_simulation_speed 0 init
  /\ Prueba.run (F := R) 5 (set_simulation_speed 0 init)
     = set_simulation_speed 0 init.
Proof.
  apply (paused_run_unchanged (fun _ => 16%Z) 5 (set_simulation_speed 0 init)).
  reflexivity.
Defined.

(** Three running frames from the initial state, the clock reading 16 ms:
    96 ms in [Simul.py], 48 ms in [simul_prueba.py]. *)
Lemma run_time_accounting_witness :
  time (Simul.run (fun _ => 16%Z) 3 init)
  = time (@init R real_num) + IZR (clock_total (fun _ => 16%Z) 3)
    + 16 * IZR (Z.of_nat 3)
  /\ time (Prueba.run 3 init) = time (@init R real_num) + 16 * IZR (Z.of_nat 3).
Proof.
  apply (run_time_accounting (fun _ => 16%Z) 3 init). reflexivity.
Defined.

(** Two calls with the vertical plates at 0 V and the horizontal ones at
    100 V. *)
Lemma axes_independent_witness :
  y (updates [(2e-9, 2000, 0, 100); (2e-9, 2000, 0, 100)] reset) = 0
  /\ vy (updates [(2e-9, 2000, 0, 100); (2e-9, 2000, 0, 100)] reset) = 0.
Proof.
  apply (proj1 (axes_independent [(2e-9, 2000, 0, 100); (2e-9, 2000, 0, 100)])).
  intros c [Hc | [Hc | []]]; rewrite <- Hc; reflexivity.
Defined.

(** The initial state is centred. *)
Lemma undeflected_beam_hits_centre_witness :
  Forall (fun t => trace_x t = 0 /\ trace_y t = 0)
         (screen_traces (Simul.run (fun _ => 16%Z) 3 init))
  /\ x (electron (Simul.run (fun _ => 16%Z) 3 init)) = 0
  /\ y (electron (Simul.run (fun _ => 16%Z) 3 init)) = 0.
Proof.
  apply (undeflected_beam_hits_centre (fun _ => 16%Z) 3 init).
  unfold centred. repeat split; try reflexivity. apply Forall_nil.
Defined.

(** The acceleration slider grabbed, dragged 130 pixels into its track and
    released. *)
Lemma slider_value_stays_in_range_witness :
  500 <= val (mkSlider (mkRect 1170 90 250 15) 500 5000
                (500 + IZR 130 / IZR 250 * (5000 - 500)) false) <= 5000.
Proof.
  apply (slider_value_stays_in_range 1170 90 250 15 500 5000 2000
           [MOUSEBUTTONDOWN (1200, 95)%Z; MOUSEMOTION (1300, 95)%Z;
            MOUSEBUTTONUP (1300, 95)%Z]).
  - lra.
  - reflexivity.
Defined.

(** The same drag: the handle is drawn 130 pixels into the track. *)
Lemma handle_follows_mouse_witness :
  handle_pos (mkSlider (mkRect 1170 90 250 15) 500 5000
                (500 + IZR 130 / IZR 250 * (5000 - 500)) true)
  = Some (clamped_rel_x
            (mkSlider (mkRect 1170 90 250 15) 500 5000 2000 true) (1300, 95)%Z).
Proof.
  apply (handle_follows_mouse (1300, 95)%Z
           (mkSlider (mkRect 1170 90 250 15) 500 5000 2000 true)).
  - reflexivity.
  - cbn [min_val max_val]. lra.
  - reflexivity.
Defined.

(** The sample turns: the events of another turn are handled in the state
    reached. *)
Lemma handle_events_never_raises_witness :
  exists w : Window R,
    window_run sample_turns initial_window = Some w
    /\ exists w', handle_events [MOUSEMOTION (0, 0)%Z; QUIT] w = Some w'.
Proof.
  destruct (window_run_sound sample_turns initial_window
              sample_turns_clock_forward initial_window_sound) as [w [H _]].
  exists w. split; [exact H |].
  exact (handle_events_never_raises sample_turns [MOUSEMOTION (0, 0)%Z; QUIT] w H).
Defined.

Lemma buttons_show_the_state_witness :
  exists w : Window R,
    window_run sample_turns initial_window = Some w /\ labels_consistent w.
Proof.
  destruct (window_run_sound sample_turns initial_window
              sample_turns_clock_forward initial_window_sound) as [w [H _]].
  exists w. split; [exact H |].
  exact (buttons_show_the_state sample_turns w H).
Defined.

Lemma overlapping_sliders_move_together_witness :
  exists w : Window R,
    window_run sample_turns initial_window = Some w
    /\ ((vertical_voltage (slider_values (controls w)) = 0
         /\ vert_amplitude (slider_values (controls w)) = 150)
        \/ exists rel_x : Z,
             (0 <= rel_x <= 250)%Z
             /\ vertical_voltage (slider_values (controls w))
                = -300 + IZR rel_x / 250 * (300 - -300)
             /\ vert_amplitude (slider_values (controls w))
                = 50 + IZR rel_x / 250 * (300 - 50)).
Proof.
  destruct (window_run_sound sample_turns initial_window
              sample_turns_clock_forward initial_window_sound) as [w [H _]].
  exists w. split; [exact H |].
  exact (overlapping_sliders_move_together sample_turns w H).
Defined.

Lemma window_run_never_raises_witness :
  exists w : Window R,
    window_run sample_turns initial_window = Some w
    /\ Forall slider_in_range (sliders_list (controls w))
    /\ 500 <= acceleration_voltage (slider_values (controls w))
    /\ 50 <= persistence (slider_values (controls w)).
Proof.
  exact (window_run_never_raises sample_turns sample_turns_clock_forward).
Defined.


End Instances.

(** ** The window of [simul_prueba.py] *)

Section PruebaWindowFacts.
Context {F : Type} {num : Num F} {trig : Trig F} {display : Display F}.
Local Open Scope num_scope.

Lemma prueba_update_physics_frame (s : CRTSimulation F) :
  mode (Prueba.update_physics s) = mode s
  /\ simulation_speed (Prueba.update_physics s) = simulation_speed s
  /\ sliders (Prueba.update_physics s) = sliders s
  /\ time (Prueba.update_physics s) = time s.
Proof.
  unfold Prueba.update_physics.
  destruct (simulation_speed s =? 0)%Z; [repeat split |].
  destruct (Prueba.get_voltages s) as [Vv Vh].
  generalize 100%nat as k. intros k.
  induction k as [| k [IHm [IHv [IHs IHt]]]]; [repeat split |].
  rewrite Nat.iter_succ. unfold Prueba.substep at 1 3 5 7.
  destruct (has_hit_screen _);
    cbn [mode time simulation_speed sliders set_electron set_screen_traces]; auto.
Qed.

Lemma prueba_handle_event_steps (P : Window F -> Prop) (event : Event) :
  (forall w, P w -> P (set_running false w)) ->
  (forall w, P w -> P (toggle_pause w)) ->
  (forall w, P w -> P (clear_traces w)) ->
  (forall w, P w -> P (reset_electron w)) ->
  (forall w, P w -> P (toggle_beam w)) ->
  (forall c w, P w -> controls_handle_event event (controls w) = Some c ->
               P (set_controls c w)) ->
  (forall m w, P w -> P (select_mode m w)) ->
  (forall w, P w -> P (set_show_presets (negb (show_presets w)) w)) ->
  (forall b p w0 w, P w0 -> In (b, p) (preset_buttons w0) -> P w ->
                    P (PruebaWindow.apply_preset p w)) ->
  forall w w', P w -> PruebaWindow.handle_event event w = Some w' -> P w'.
Proof.
  intros Hquit Hpause Hclear Hreset Hbeam Hsliders Hmode Hmenu Hpreset w w' Hw H.
  unfold PruebaWindow.handle_event in H. cbv zeta in H.
  assert (H1 : P (on_quit event w))
    by (unfold on_quit; destruct event; auto).
  assert (H2 : P (on_keydown event (on_quit event w))).
  { unfold on_keydown at 1. destruct event as [| key | pos | pos | pos |]; auto.
    destruct key; cbn [handle_key]; auto. }
  destruct (controls_handle_event event
              (controls (on_keydown event (on_quit event w)))) as [c |] eqn:Hc;
    [| discriminate].
  injection H as <-.
  pose proof (Hsliders c _ H2 Hc) as H3.
  set (w3 := set_controls c (on_keydown event (on_quit event w))) in *.
  assert (H4 : P (on_manual event w3))
    by (unfold on_manual; destruct (button_handle_event _ _); auto).
  set (w4 := on_manual event w3) in *.
  assert (H5 : P (on_lissajous event w4))
    by (unfold on_lissajous; destruct (button_handle_event _ _); auto).
  set (w5 := on_lissajous event w4) in *.
  assert (H6 : P (on_preset_lissajous event w5))
    by (unfold on_preset_lissajous; destruct (_ && _); auto).
  set (w6 := on_preset_lissajous event w5) in *.
  assert (H7 : P (on_clear event w6))
    by (unfold on_clear; destruct (button_handle_event _ _); auto).
  set (w7 := on_clear event w6) in *.
  assert (H8 : P (on_pause event w7))
    by (unfold on_pause; destruct (button_handle_event _ _); auto).
  set (w8 := on_pause event w7) in *.
  assert (H9 : P (on_beam_toggle event w8))
    by (unfold on_beam_toggle; destruct (button_handle_event _ _); auto).
  set (w9 := on_beam_toggle event w8) in *.
  unfold PruebaWindow.on_preset_buttons. destruct (_ && _); [| exact H9].
  unfold PruebaWindow.handle_preset_buttons.
  assert (Hfold : forall l w0,
            (forall bp, In bp l -> In bp (preset_buttons w9)) -> P w0 ->
            P (fold_left
                 (fun (w : Window F) (bp : Button * Preset F) =>
                    if button_handle_event (fst bp) event
                    then PruebaWindow.apply_preset (snd bp) w else w) l w0)).
  { induction l as [| [b p] l IH]; intros w0 Hsub Hw0; [exact Hw0 |].
    cbn [fold_left fst snd]. apply IH.
    - intros bp Hin. apply Hsub. right. exact Hin.
    - destruct (button_handle_event b event); [| exact Hw0].
      apply (Hpreset b p w9 w0 H9); [| exact Hw0].
      apply Hsub. left. reflexivity. }
  apply Hfold; [auto | exact H9].
Qed.

Lemma prueba_handle_events_steps (P : Window F -> Prop) :
  (forall event w w', P w -> PruebaWindow.handle_event event w = Some w' -> P w') ->
  forall events w w', P w -> PruebaWindow.handle_events events w = Some w' -> P w'.
Proof.
  intros Hstep events. induction events as [| event events IH]; intros w w' Hw H.
  - injection H as <-. exact Hw.
  - cbn [PruebaWindow.handle_events] in H.
    destruct (PruebaWindow.handle_event event w) as [w1 |] eqn:H1; [| discriminate].
    exact (IH w1 w' (Hstep event w w1 Hw H1) H).
Qed.

Lemma prueba_window_run_steps (P : Window F -> Prop) :
  (forall event w w', P w -> PruebaWindow.handle_event event w = Some w' -> P w') ->
  (forall w, P w -> P (PruebaWindow.window_update_physics w)) ->
  (forall w, P w -> P (set_preset_buttons PruebaWindow.preset_table w)) ->
  (forall w, P w ->
             P (set_engine (set_time (time (engine w) + of_Z 16) (engine w)) w)) ->
  forall turns w w', P w -> PruebaWindow.window_run turns w = Some w' -> P w'.
Proof.
  intros Hevent Hphysics Hmenu Htick turns.
  induction turns as [| events turns IH]; intros w w' Hw H.
  - injection H as <-. exact Hw.
  - cbn [PruebaWindow.window_run] in H. destruct (running w).
    2:{ injection H as <-. exact Hw. }
    destruct (PruebaWindow.turn events w) as [w1 |] eqn:Ht; [| discriminate].
    apply (IH w1 w'); [| exact H].
    unfold PruebaWindow.turn in Ht.
    destruct (PruebaWindow.handle_events events w) as [w2 |] eqn:He;
      [| discriminate].
    pose proof (prueba_handle_events_steps P Hevent events w w2 Hw He) as H2.
    pose proof (Hphysics w2 H2) as H3.
    cbv zeta in Ht.
    destruct (PruebaWindow.draw (PruebaWindow.window_update_physics w2))
      as [w4 |] eqn:Hd; [| discriminate].
    assert (H4 : P w4).
    { unfold PruebaWindow.draw in Hd. destruct (forallb _ _); [| discriminate].
      unfold PruebaWindow.draw_controls in Hd.
      destruct (forallb _ _); [| discriminate].
      injection Hd as <-. destruct (_ && _); auto. }
    injection Ht as <-. destruct (0 <? simulation_speed (engine w4))%Z; auto.
Qed.

Lemma prueba_window_update_physics_engine (w : Window F) :
  mode (engine (PruebaWindow.window_update_physics w)) = mode (engine w)
  /\ simulation_speed (engine (PruebaWindow.window_update_physics w))
     = simulation_speed (engine w).
Proof.
  unfold PruebaWindow.window_update_physics. cbn [engine set_engine].
  destruct (prueba_update_physics_frame (engine_view w)) as [Hm [Hv _]].
  rewrite Hm, Hv. split; reflexivity.
Qed.

Lemma prueba_handle_event_labels (event : Event) (w w' : Window F) :
  labels_consistent w -> PruebaWindow.handle_event event w = Some w' ->
  labels_consistent w'.
Proof.
  apply prueba_handle_event_steps; clear; unfold labels_consistent, is_lissajous.
  - intros w H. exact H.
  - intros w [H1 [H2 [H3 [H4 [H5 H6]]]]].
    cbn. destruct (0 <? simulation_speed (engine w))%Z; cbn;
      repeat split; auto.
  - intros w H. exact H.
  - intros w H. exact H.
  - intros w [H1 [H2 [H3 [H4 [H5 H6]]]]].
    cbn. repeat split; assumption.
  - intros c w H _. exact H.
  - intros m w [H1 [H2 [H3 [H4 [H5 H6]]]]].
    cbn. destruct m; repeat split; assumption.
  - intros w H. exact H.
  - intros b p w0 w _ _ H. exact H.
Qed.

Lemma prueba_handle_event_vertical_pair (event : Event) (w w' : Window F) :
  PruebaWindow.layout_kept w /\ vertical_pair_together w ->
  PruebaWindow.handle_event event w = Some w' ->
  PruebaWindow.layout_kept w' /\ vertical_pair_together w'.
Proof.
  apply (prueba_handle_event_steps
           (fun w => PruebaWindow.layout_kept w /\ vertical_pair_together w) event);
    clear w w'; intros;
    try match goal with H : _ /\ _ |- _ => exact H end.
  destruct H as [Hl Hp]. split.
  - destruct Hl as [H1 [H2 H3]]. unfold PruebaWindow.layout_kept.
    cbn [controls buttons preset_buttons set_controls].
    rewrite (controls_handle_event_tracks event _ _ H0). auto.
  - assert (Hl' : layout_kept (set_preset_buttons [] w)).
    { destruct Hl as [H1 [H2 _]]. unfold layout_kept.
      cbn [controls buttons preset_buttons set_preset_buttons]. auto. }
    destruct (layout_vertical_pair _ Hl') as [Ht1 Ht2].
    cbn [controls set_preset_buttons] in Ht1, Ht2.
    pose proof (controls_handle_event_sliders event _ _ H0) as Hs.
    unfold sliders_list in Hs.
    inversion Hs as [| ? ? ? ? _ Hs1]; subst.
    inversion Hs1 as [| ? ? ? ? _ Hs2]; subst.
    inversion Hs2 as [| ? ? ? ? Hvv Hs3]; subst.
    inversion Hs3 as [| ? ? ? ? _ Hs4]; subst.
    inversion Hs4 as [| ? ? ? ? Hva _]; subst.
    unfold vertical_pair_together. cbn [controls set_controls].
    unfold track in Ht1, Ht2. injection Ht1 as Hr1 _ _. injection Ht2 as Hr2 _ _.
    apply (slider_handle_event_together event (of_Z 0) (of_Z 150)
             (sl_vertical_voltage (controls w)) (sl_vert_amplitude (controls w)));
      try assumption.
    + congruence.
    + rewrite Hr1. cbn [rect_width]. lia.
Qed.

Lemma prueba_window_run_layout (turns : list (list Event)) (w w' : Window F) :
  PruebaWindow.layout_kept w /\ vertical_pair_together w ->
  PruebaWindow.window_run turns w = Some w' ->
  PruebaWindow.layout_kept w' /\ vertical_pair_together w'.
Proof.
  apply prueba_window_run_steps
    with (P := fun w => PruebaWindow.layout_kept w /\ vertical_pair_together w).
  - exact prueba_handle_event_vertical_pair.
  - intros w0 H. exact H.
  - intros w0 [[H1 [H2 _]] Hp]. split; [| exact Hp].
    unfold PruebaWindow.layout_kept.
    cbn [controls buttons preset_buttons set_preset_buttons]. auto.
  - intros w0 H. exact H.
Qed.

Lemma prueba_initial_window_layout :
  PruebaWindow.layout_kept (F := F) initial_window
  /\ vertical_pair_together (F := F) initial_window.
Proof.
  split.
  - unfold PruebaWindow.layout_kept. cbn. auto.
  - unfold vertical_pair_together, moved_together. cbn. auto.
Qed.

Lemma prueba_handle_event_returns (event : Event) (w : Window F) :
  tracks (controls w) = tracks initial_controls ->
  exists w', PruebaWindow.handle_event event w = Some w'.
Proof.
  intros Ht. unfold PruebaWindow.handle_event. cbv zeta.
  rewrite keys_keep_controls.
  destruct (controls_handle_event_returns event (controls w)) as [c Hc].
  - apply Forall_impl with (2 := layout_widths _ Ht). intros sl H. lia.
  - rewrite Hc. eexists. reflexivity.
Qed.

Lemma prueba_handle_events_returns (events : list Event) (w : Window F) :
  PruebaWindow.layout_kept w /\ vertical_pair_together w ->
  exists w', PruebaWindow.handle_events events w = Some w'.
Proof.
  revert w. induction events as [| event events IH]; intros w Hw.
  - eexists. reflexivity.
  - destruct (prueba_handle_event_returns event w (proj1 (proj1 Hw))) as [w1 H1].
    cbn [PruebaWindow.handle_events]. rewrite H1. apply IH.
    exact (prueba_handle_event_vertical_pair event w w1 Hw H1).
Qed.

(** X23.  The three facts about the widgets hold in [simul_prueba.py] as well, in
    every state its loop of [run] reaches from the initial window: what the
    buttons show is true of the state; the vertical plate voltage and the
    vertical amplitude are tied by their common track; and [handle_events]
    handles any further events without an exception of a slider. *)
Theorem prueba_widgets_keep_their_state
  (turns : list (list Event)) (events : list Event) (w : Window F) :
  PruebaWindow.window_run turns initial_window = Some w ->
  labels_consistent w
  /\ ((vertical_voltage (slider_values (controls w)) = of_Z 0
       /\ vert_amplitude (slider_values (controls w)) = of_Z 150)
      \/ exists rel_x : Z,
           (0 <= rel_x <= 250)%Z
           /\ vertical_voltage (slider_values (controls w))
              = of_Z (-300) + of_Z rel_x / of_Z 250 * (of_Z 300 - of_Z (-300))
           /\ vert_amplitude (slider_values (controls w))
              = of_Z 50 + of_Z rel_x / of_Z 250 * (of_Z 300 - of_Z 50))
  /\ exists w', PruebaWindow.handle_events events w = Some w'.
Proof.
  intros H.
  pose proof (prueba_window_run_layout turns initial_window w
                prueba_initial_window_layout H) as Hinv.
  split; [| split].
  - revert H. apply prueba_window_run_steps with (P := labels_consistent).
    + exact prueba_handle_event_labels.
    + intros w0 H0. unfold labels_consistent, is_lissajous in *.
      destruct (prueba_window_update_physics_engine w0) as [Hm Hv].
      rewrite Hm, Hv. exact H0.
    + intros w0 H0. exact H0.
    + intros w0 H0. exact H0.
    + unfold labels_consistent. cbn. auto 10.
  - destruct Hinv as [[Ht [Hb _]] [_ Hv]].
    assert (Hl' : layout_kept (set_preset_buttons [] w)).
    { unfold layout_kept. cbn [controls buttons preset_buttons set_preset_buttons].
      auto. }
    destruct (layout_vertical_pair _ Hl') as [Ht1 Ht2].
    cbn [controls set_preset_buttons] in Ht1, Ht2.
    cbn [vertical_voltage vert_amplitude slider_values].
    destruct Hv as [Hv | [rel_x [Hrel [Hv1 Hv2]]]]; [left; exact Hv |].
    right. exists rel_x.
    unfold value_at in Hv1, Hv2. unfold track in Ht1, Ht2.
    injection Ht1 as Hr1 Hlo1 Hhi1. injection Ht2 as Hr2 Hlo2 Hhi2.
    rewrite Hr1, Hlo1, Hhi1 in Hv1. rewrite Hr2, Hlo2, Hhi2 in Hv2.
    rewrite Hr1 in Hrel. cbn [rect_width] in Hrel, Hv1, Hv2.
    auto.
  - exact (prueba_handle_events_returns events w Hinv).
Qed.

End PruebaWindowFacts.

(** ** The window of [simul_prueba.py] in real arithmetic *)

Section RealPruebaWindow.
Local Open Scope R_scope.

Lemma prueba_substep_drawable (dt Va Vv Vh : R) (s : CRTSimulation R) :
  0 <= Va -> drawable s -> drawable (Prueba.substep dt Va Vv Vh s).
Proof.
  intros HVa Hs. unfold Prueba.substep. cbv zeta.
  destruct (has_hit_screen _); [| exact Hs].
  destruct (is_within_screen_bounds _) eqn:Hin; [| exact Hs].
  unfold drawable.
  cbn [screen_traces time set_electron set_screen_traces get_screen_position].
  apply Forall_deque_append; [exact Hs |].
  split; [exact Hin |]. cbn [trace_time trace_brightness].
  split; [lra |].
  rewrite py_min_Rmin. cbn [of_Z div real_num].
  split.
  - apply Rmin_glb; [lra |]. unfold Rdiv. nra.
  - apply Rmin_l.
Qed.

Lemma prueba_update_physics_drawable (s : CRTSimulation R) :
  0 <= acceleration_voltage (sliders s) ->
  drawable s -> drawable (Prueba.update_physics s).
Proof.
  intros HVa Hs. unfold Prueba.update_physics.
  destruct (simulation_speed s =? 0)%Z; [exact Hs |].
  destruct (Prueba.get_voltages s) as [Vv Vh]. cbv zeta.
  generalize 100%nat as k. intros k.
  induction k as [| k IH]; [exact Hs |].
  rewrite Nat.iter_succ. apply prueba_substep_drawable; assumption.
Qed.

Lemma prueba_preset_table_values (b : Button) (p : Preset R) :
  In (b, p) PruebaWindow.preset_table ->
  0.1 <= preset_fv p <= 10 /\ 0.1 <= preset_fh p <= 10
  /\ 0 <= preset_phase p <= 360.
Proof.
  unfold PruebaWindow.preset_table, preset_buttons_of,
    PruebaWindow.lissajous_presets, enumerate. intros Hin.
  cbn [enumerate_from flat_map map app fst snd] in Hin.
  repeat (destruct Hin as [Hin | Hin];
          [injection Hin as _ <-;
           cbn [preset_fv preset_fh preset_phase of_Z real_num]; lra |]).
  contradiction.
Qed.

Lemma prueba_window_sound_basics (w : Window R) :
  PruebaWindow.window_sound w ->
  500 <= acceleration_voltage (slider_values (controls w))
  /\ 50 <= persistence (slider_values (controls w)).
Proof.
  intros [[Ht _] [Hr _]].
  destruct (layout_basic_sliders _ Ht) as [Ha Hp].
  unfold sliders_list in Hr.
  inversion Hr as [| ? ? Hr0 Hr']; subst.
  inversion Hr' as [| ? ? Hr1 _]; subst.
  unfold slider_in_range in Hr0, Hr1.
  cbn [acceleration_voltage persistence slider_values]. lra.
Qed.

Lemma prueba_handle_event_sound (event : Event) (w w' : Window R) :
  PruebaWindow.window_sound w -> PruebaWindow.handle_event event w = Some w' ->
  PruebaWindow.window_sound w'.
Proof.
  apply (prueba_handle_event_steps PruebaWindow.window_sound event); clear w w';
    unfold PruebaWindow.window_sound, drawable.
  - intros w H. exact H.
  - intros w [H1 [H2 [H3 H4]]].
    split; [exact H1 |]. split; [exact H2 |]. split; [exact H3 |].
    cbn. destruct (0 <? simulation_speed (engine w))%Z; lia.
  - intros w [H1 [H2 [H3 H4]]].
    split; [exact H1 |]. split; [exact H2 |]. split; [constructor | exact H4].
  - intros w H. exact H.
  - intros w H. exact H.
  - intros c w [[H1 [H1b H1c]] [H2 [H3 H4]]] Hc.
    split; [| split; [| split; [exact H3 | exact H4]]].
    + unfold PruebaWindow.layout_kept.
      cbn [controls buttons preset_buttons set_controls].
      rewrite (controls_handle_event_tracks event _ _ Hc). auto.
    + cbn [controls set_controls].
      apply (sliders_step_in_range event (sliders_list (controls w))).
      * exact (controls_handle_event_sliders event _ _ Hc).
      * exact (layout_panel_tracks _ H1).
      * exact H2.
  - intros m w H. exact H.
  - intros w H. exact H.
  - intros b p w0 w [[_ [_ H0c]] _] Hin [[H1 [H1b H1c]] [H2 [H3 H4]]].
    assert (Hp : In (b, p) PruebaWindow.preset_table).
    { destruct H0c as [He | He]; rewrite He in Hin; [contradiction | exact Hin]. }
    destruct (prueba_preset_table_values b p Hp) as [Hfv [Hfh Hph]].
    destruct (layout_preset_sliders _ H1) as [[A1 A2] [[B1 B2] [[C1 C2] [D1 D2]]]].
    split; [unfold PruebaWindow.layout_kept; auto |].
    split; [| split; [exact H3 | exact H4]].
    unfold sliders_list in H2 |- *.
    inversion H2 as [| ? ? I0 T0]; subst. inversion T0 as [| ? ? I1 T1]; subst.
    inversion T1 as [| ? ? I2 T2]; subst. inversion T2 as [| ? ? I3 T3]; subst.
    inversion T3 as [| ? ? I4 T4]; subst. inversion T4 as [| ? ? I5 T5]; subst.
    inversion T5 as [| ? ? I6 T6]; subst. inversion T6 as [| ? ? I7 T7]; subst.
    cbn [PruebaWindow.apply_preset controls set_controls set_show_presets
         set_sl_horiz_frequency set_sl_vert_frequency set_sl_horiz_phase
         sl_acceleration_voltage sl_persistence
         sl_vertical_voltage sl_horizontal_voltage sl_vert_amplitude
         sl_vert_frequency sl_vert_phase sl_horiz_amplitude sl_horiz_frequency
         sl_horiz_phase].
    assert (Hset : forall (v lo hi : R) (sl : Slider R),
              min_val sl = lo -> max_val sl = hi -> lo <= v <= hi ->
              slider_in_range (set_val v sl)).
    { intros v lo hi sl Hlo Hhi Hv. unfold slider_in_range.
      cbn [set_val min_val max_val val]. rewrite Hlo, Hhi. exact Hv. }
    apply Forall_cons; [exact I0 |]. apply Forall_cons; [exact I1 |].
    apply Forall_cons; [exact I2 |]. apply Forall_cons; [exact I3 |].
    apply Forall_cons; [exact I4 |].
    apply Forall_cons; [exact (Hset _ _ _ _ A1 A2 Hfv) |].
    apply Forall_cons; [exact I6 |].
    apply Forall_cons; [exact I7 |].
    apply Forall_cons; [exact (Hset _ _ _ _ C1 C2 Hfh) |].
    apply Forall_cons; [exact (Hset _ _ _ _ D1 D2 Hph) | apply Forall_nil].
Qed.

Lemma prueba_draw_sound (w : Window R) :
  PruebaWindow.window_sound w ->
  exists w', PruebaWindow.draw w = Some w' /\ PruebaWindow.window_sound w'.
Proof.
  intros Hw. destruct (prueba_window_sound_basics w Hw) as [_ Hp].
  destruct Hw as [[H1 [H1b H1c]] [H2 [H3 H4]]].
  unfold PruebaWindow.draw.
  assert (Hscreen : forallb (fun o => match o with Raises => false | _ => true end)
                      (draw_screen_traces (engine_view w)) = true).
  { apply forallb_forall. intros o Ho. unfold draw_screen_traces in Ho.
    apply in_map_iff in Ho. destruct Ho as [t [<- Hin]].
    unfold drawable in H3. rewrite Forall_forall in H3.
    destruct (H3 t Hin) as [Hon [Htime Hb]].
    pose proof (draw_screen_trace_well_drawn
                  (persistence (sliders (engine_view w))) (time (engine_view w)) t)
      as Hwd.
    destruct (draw_screen_trace _ _ t); try reflexivity.
    exfalso. apply Hwd; try assumption.
    cbn [engine_view set_sliders sliders]. lra. }
  rewrite Hscreen. unfold PruebaWindow.draw_controls.
  assert (Hhandles : forallb
            (fun sl => match handle_rect sl with Some _ => true | None => false end)
            (drawn_sliders w) = true).
  { apply forallb_forall. intros sl Hin.
    assert (Hall : In sl (sliders_list (controls w))).
    { unfold drawn_sliders in Hin. unfold sliders_list.
      destruct (mode (engine w)); cbn [app In] in Hin |- *; tauto. }
    pose proof (layout_panel_tracks _ H1) as Ht. rewrite Forall_forall in Ht.
    destruct (Ht sl Hall) as [_ Hlt]. unfold track in Hlt. cbn [fst snd] in Hlt.
    unfold handle_rect, handle_pos.
    rewrite is_zero_real by (cbn [sub real_num]; intros Heq; lra).
    reflexivity. }
  rewrite Hhandles.
  eexists. split; [reflexivity |].
  destruct (is_lissajous w && show_presets w).
  - unfold PruebaWindow.window_sound, PruebaWindow.layout_kept.
    cbn [controls buttons preset_buttons set_preset_buttons engine]. auto 10.
  - unfold PruebaWindow.window_sound, PruebaWindow.layout_kept. auto 10.
Qed.

Lemma prueba_turn_sound (events : list Event) (w : Window R) :
  PruebaWindow.window_sound w ->
  exists w', PruebaWindow.turn events w = Some w' /\ PruebaWindow.window_sound w'.
Proof.
  intros Hw. unfold PruebaWindow.turn.
  assert (Hret : exists w1, PruebaWindow.handle_events events w = Some w1
                            /\ PruebaWindow.window_sound w1).
  { clear - Hw. revert w Hw.
    induction events as [| event events IH]; intros w Hw.
    - eexists. split; [reflexivity | exact Hw].
    - destruct (prueba_handle_event_returns event w (proj1 (proj1 Hw)))
        as [w1 H1].
      cbn [PruebaWindow.handle_events]. rewrite H1. apply IH.
      exact (prueba_handle_event_sound event w w1 Hw H1). }
  destruct Hret as [w1 [H1 Hw1]]. rewrite H1. cbv zeta.
  assert (Hw2 : PruebaWindow.window_sound (PruebaWindow.window_update_physics w1)).
  { destruct (prueba_window_sound_basics w1 Hw1) as [HVa _].
    destruct Hw1 as [Ha [Hb [Hc Hd]]].
    destruct (prueba_update_physics_frame (trig := real_trig) (engine_view w1))
      as [_ [Hv _]].
    unfold PruebaWindow.window_sound.
    split; [exact Ha |]. split; [exact Hb |]. split.
    - assert (Hdr : drawable (Prueba.update_physics (engine_view w1))).
      { apply prueba_update_physics_drawable; [| exact Hc].
        cbn [engine_view set_sliders sliders]. lra. }
      exact Hdr.
    - cbn [PruebaWindow.window_update_physics engine set_engine].
      rewrite Hv. exact Hd. }
  destruct (prueba_draw_sound _ Hw2) as [w3 [Hd Hw3]]. rewrite Hd.
  eexists. split; [reflexivity |].
  destruct (0 <? simulation_speed (engine w3))%Z; [| exact Hw3].
  destruct Hw3 as [H1' [H2' [H3' H4']]].
  unfold PruebaWindow.window_sound.
  split; [exact H1' |]. split; [exact H2' |]. split; [| exact H4'].
  apply (drawable_later (time (engine w3) + 16) (engine_view w3) H3').
  cbn [engine_view set_sliders time]. lra.
Qed.

Lemma prueba_initial_window_sound : PruebaWindow.window_sound initial_window.
Proof.
  destruct initial_window_sound as [[H1 [H2 _]] [H3 [H4 H5]]].
  unfold PruebaWindow.window_sound, PruebaWindow.layout_kept.
  repeat split; try assumption. left. reflexivity.
Qed.

Lemma prueba_window_run_sound (turns : list (list Event)) (w : Window R) :
  PruebaWindow.window_sound w ->
  exists w', PruebaWindow.window_run turns w = Some w'
             /\ PruebaWindow.window_sound w'.
Proof.
  revert w. induction turns as [| events turns IH]; intros w Hw.
  - eexists. split; [reflexivity | exact Hw].
  - cbn [PruebaWindow.window_run]. destruct (running w).
    2:{ eexists. split; [reflexivity | exact Hw]. }
    destruct (prueba_turn_sound events w Hw) as [w1 [H1 Hw1]].
    rewrite H1. exact (IH w1 Hw1).
Qed.

(** X24.  In real arithmetic the loop of [run] of [simul_prueba.py] never raises
    in [handle_events], in the persistence loop of [draw_screen_view] or in
    the slider handles of [draw_controls], whatever events arrive; and in the
    state it reaches every slider value lies in the range of its slider. *)
Theorem prueba_window_run_never_raises (turns : list (list Event)) :
  exists w,
    PruebaWindow.window_run turns initial_window = Some w
    /\ Forall slider_in_range (sliders_list (controls w))
    /\ 500 <= acceleration_voltage (slider_values (controls w))
    /\ 50 <= persistence (slider_values (controls w)).
Proof.
  destruct (prueba_window_run_sound turns initial_window
              prueba_initial_window_sound) as [w [H Hw]].
  exists w. split; [exact H |]. split; [apply Hw |].
  exact (prueba_window_sound_basics w Hw).
Qed.

(** The sample turns in [simul_prueba.py]. *)
Lemma prueba_widgets_keep_their_state_witness :
  exists w : Window R,
    PruebaWindow.window_run PruebaWindow.sample_turns initial_window = Some w
    /\ labels_consistent w
    /\ ((vertical_voltage (slider_values (controls w)) = 0
         /\ vert_amplitude (slider_values (controls w)) = 150)
        \/ exists rel_x : Z,
             (0 <= rel_x <= 250)%Z
             /\ vertical_voltage (slider_values (controls w))
                = -300 + IZR rel_x / 250 * (300 - -300)
             /\ vert_amplitude (slider_values (controls w))
                = 50 + IZR rel_x / 250 * (300 - 50))
    /\ exists w', PruebaWindow.handle_events [MOUSEMOTION (0, 0)%Z; QUIT] w
                  = Some w'.
Proof.
  destruct (prueba_window_run_sound PruebaWindow.sample_turns initial_window
              prueba_initial_window_sound) as [w [H _]].
  exists w. split; [exact H |].
  exact (prueba_widgets_keep_their_state PruebaWindow.sample_turns
           [MOUSEMOTION (0, 0)%Z; QUIT] w H).
Defined.

End RealPruebaWindow.

(** ** The preset menu of [simul_prueba.py] *)

Section PruebaPresetMenu.
Context {F : Type} {num : Num F} {trig : Trig F} {display : Display F}.






End PruebaPresetMenu.


(** ** The flight to the screen, in real arithmetic *)

Section RealTransit.
Local Open Scope R_scope.

Lemma impulse_speed_real (Va : R) :
  0 <= Va -> impulse_speed Va = sqrt (2 * 1.602e-19 * Va / 9.109e-31).
Proof.
  intros HVa. unfold impulse_speed, Simul.ELECTRON_CHARGE, ELECTRON_MASS.
  cbn [sqrt mul div abs of_Z lit_1_602e_19 lit_9_109e_31 real_num].
  rewrite (Rabs_pos_eq Va HVa). reflexivity.
Qed.

Lemma slowest_impulse_bound : 12653847 <= slowest_impulse.
Proof.
  unfold slowest_impulse. rewrite impulse_speed_real by lra.
  rewrite <- (sqrt_Rsqr 12653847) by lra.
  apply sqrt_le_1_alt. unfold Rsqr. lra.
Qed.

Lemma impulse_speed_at_least (Va : R) :
  500 <= Va -> slowest_impulse <= impulse_speed Va.
Proof.
  intros HVa. unfold slowest_impulse. rewrite !impulse_speed_real by lra.
  apply sqrt_le_1_alt. lra.
Qed.

Lemma accelerates_real (Va : R) : 500 <= Va -> accelerates Va = true.
Proof.
  intros HVa. unfold accelerates. cbn [ltb abs of_Z real_num].
  apply Rltb_true. rewrite Rabs_pos_eq by lra. lra.
Qed.

(** One call of [update] with at least 500 V: the electron has its impulse
    and has advanced by at least the slowest step. *)
Lemma update_in_flight (Va Vv Vh : R) (e : Electron R) :
  500 <= Va -> in_flight e ->
  in_flight (Simul.update lit_2e_9 Va Vv Vh e)
  /\ z e + slowest_impulse * 2e-9 <= z (Simul.update lit_2e_9 Va Vv Vh e).
Proof.
  intros HVa [Hz Hv].
  pose proof slowest_impulse_bound as Hs.
  assert (Hvz : slowest_impulse <= vz (Simul.update lit_2e_9 Va Vv Vh e)).
  { rewrite update_vz, (accelerates_real Va HVa).
    destruct (initial_acceleration_done e) eqn:Hd; cbn [negb andb].
    - exact (Hv eq_refl).
    - exact (impulse_speed_at_least Va HVa). }
  assert (Hz' : z e + slowest_impulse * 2e-9
                <= z (Simul.update lit_2e_9 Va Vv Vh e)).
  { rewrite update_z.
    change (z e + slowest_impulse * 2e-9
            <= z e + vz (Simul.update lit_2e_9 Va Vv Vh e) * 2e-9).
    nra. }
  split; [| exact Hz'].
  split; [nra | intros _; exact Hvz].
Qed.

Lemma screen_distance_real : screen_distance (F := R) = 0.33.
Proof.
  unfold screen_distance, DISTANCE_GUN_TO_PLATES, PLATE_LENGTH,
    DISTANCE_BETWEEN_PLATES, DISTANCE_TO_SCREEN.
  cbn [add lit_0_05 lit_0_03 lit_0_15 real_num]. lra.
Qed.

Lemma substep_in_flight (Vv Vh : R) (s : CRTSimulation R) :
  500 <= acceleration_voltage (sliders s) ->
  in_flight (electron s) ->
  in_flight (electron (Simul.substep lit_2e_9 Vv Vh s)).
Proof.
  intros HVa He. rewrite substep_electron.
  destruct (has_hit_screen _).
  - split; [cbn [reset z lit_0_001 real_num]; lra | discriminate].
  - exact (proj1 (update_in_flight _ Vv Vh _ HVa He)).
Qed.

Lemma transit_within (n : nat) (Vv Vh : R) (s : CRTSimulation R) :
  500 <= acceleration_voltage (sliders s) ->
  in_flight (electron s) ->
  0.33 <= z (electron s) + INR (S n) * (slowest_impulse * 2e-9) ->
  exists k : nat,
    (k <= n)%nat
    /\ electron (Nat.iter (S k) (Simul.substep lit_2e_9 Vv Vh) s) = reset.
Proof.
  revert s. induction n as [| n IH]; intros s HVa He Hz.
  - exists 0%nat. split; [lia |].
    cbn [Nat.iter nat_rect]. rewrite substep_electron.
    destruct (update_in_flight _ Vv Vh _ HVa He) as [_ Hstep].
    assert (Hhit : has_hit_screen (moved lit_2e_9 Vv Vh s) = true).
    { unfold has_hit_screen. rewrite screen_distance_real.
      cbn [leb real_num]. apply Rleb_true. unfold moved.
      cbn [INR] in Hz. lra. }
    rewrite Hhit. reflexivity.
  - destruct (has_hit_screen (moved lit_2e_9 Vv Vh s)) eqn:Hhit.
    + exists 0%nat. split; [lia |].
      cbn [Nat.iter nat_rect]. rewrite substep_electron, Hhit. reflexivity.
    + destruct (update_in_flight _ Vv Vh _ HVa He) as [He' Hstep].
      destruct (substep_frame lit_2e_9 Vv Vh s) as [_ [_ [_ Hsl]]].
      destruct (IH (Simul.substep lit_2e_9 Vv Vh s)) as [k [Hk Hreset]].
      * rewrite Hsl. exact HVa.
      * rewrite substep_electron, Hhit. exact He'.
      * rewrite substep_electron, Hhit. unfold moved.
        rewrite S_INR in Hz. lra.
      * exists (S k). split; [lia |].
        rewrite Nat.iter_succ_r. exact Hreset.
Qed.

(** X26.  In real arithmetic the beam always reaches the screen: with an
    acceleration voltage of at least 500 V, the lowest the panel offers, an
    electron in flight is at the screen plane within 13 sub-steps of
    [update_physics], whatever the plate voltages; the sub-step that detects
    the hit replaces it by a fresh electron, and the electron after any
    sub-step is again in flight. *)
Theorem beam_reaches_screen (Vv Vh : R) (s : CRTSimulation R) :
  500 <= acceleration_voltage (sliders s) ->
  in_flight (electron s) ->
  in_flight (electron (Simul.substep lit_2e_9 Vv Vh s))
  /\ exists k : nat,
       (k < 13)%nat
       /\ electron (Nat.iter (S k) (Simul.substep lit_2e_9 Vv Vh) s) = reset.
Proof.
  intros HVa He. split; [exact (substep_in_flight Vv Vh s HVa He) |].
  destruct (transit_within 12 Vv Vh s HVa He) as [k [Hk Hreset]].
  - pose proof slowest_impulse_bound as Hs. destruct He as [Hz _].
    change (INR 13) with (IZR (Z.of_nat 13)) || rewrite INR_IZR_INZ.
    cbn [Z.of_nat Pos.of_succ_nat Pos.succ]. nra.
  - exists k. split; [lia | exact Hreset].
Qed.

(** The initial state. *)
Lemma beam_reaches_screen_witness :
  in_flight (electron (Simul.substep lit_2e_9 0 0 (@init R real_num)))
  /\ exists k : nat,
       (k < 13)%nat
       /\ electron (Nat.iter (S k) (Simul.substep lit_2e_9 0 0) init) = reset.
Proof.
  apply (beam_reaches_screen 0 0 init).
  - cbn [init sliders initial_sliders acceleration_voltage of_Z real_num]. lra.
  - split; [cbn [init electron reset z lit_0_001 real_num]; lra | discriminate].
Defined.

End RealTransit.

(** ** The two variants side by side, in real arithmetic *)

Section RealVariants.
Local Open Scope R_scope.

Lemma prueba_accelerations_negated (V : R) :
  Prueba.ay V = Simul.acceleration_y (- V)
  /\ Prueba.ax V = Simul.acceleration_x (- V).
Proof.
  unfold Prueba.ay, Prueba.ax, Simul.acceleration_y, Simul.acceleration_x,
    Prueba.ELECTRON_CHARGE, Simul.ELECTRON_CHARGE, PLATE_SEPARATION, ELECTRON_MASS.
  cbn [opp mul div lit_1_602e_19 lit_9_109e_31 lit_0_02 real_num].
  split; field; lra.
Qed.

Lemma prueba_update_negated (dt Va Vv Vh : R) (e : Electron R) :
  Prueba.update dt Va Vv Vh e = Simul.update dt Va (- Vv) (- Vh) e.
Proof.
  unfold Prueba.update, Simul.update, Prueba.vertical_deflection,
    Simul.vertical_deflection, Prueba.horizontal_deflection,
    Simul.horizontal_deflection.
  change (Prueba.initial_acceleration Va e) with (Simul.initial_acceleration Va e).
  rewrite (proj1 (prueba_accelerations_negated Vv)),
    (proj2 (prueba_accelerations_negated Vh)).
  reflexivity.
Qed.

Lemma prueba_substep_negated (dt Vv Vh : R) (s : CRTSimulation R) :
  Prueba.substep dt (acceleration_voltage (sliders s)) Vv Vh s
  = Simul.substep dt (- Vv) (- Vh) s.
Proof.
  unfold Prueba.substep, Simul.substep. cbv zeta.
  rewrite prueba_update_negated.
  destruct (has_hit_screen _); [| reflexivity].
  destruct (is_within_screen_bounds _); reflexivity.
Qed.

(** X27.  In real arithmetic the sub-step loop of [simul_prueba.py] under the
    plate voltages [(Vv, Vh)] goes through exactly the states the loop of
    [Simul.py] goes through under [(- Vv, - Vh)]: the same electron, the same
    recorded path and the same trace entries after any number of sub-steps.
    What one variant shows for a plate voltage, the other shows for the
    opposite voltage. *)
Theorem prueba_substeps_are_simul_negated
  (k : nat) (dt Vv Vh : R) (s : CRTSimulation R) :
  Nat.iter k (Prueba.substep dt (acceleration_voltage (sliders s)) Vv Vh) s
  = Nat.iter k (Simul.substep dt (- Vv) (- Vh)) s.
Proof.
  induction k as [| k IH]; [reflexivity |].
  rewrite !Nat.iter_succ, IH.
  destruct (substeps_frame k dt (- Vv) (- Vh) s) as [_ [_ [_ Hsl]]].
  rewrite <- Hsl. apply prueba_substep_negated.
Qed.

End RealVariants.

(** ** The symmetry of the deflection, in real arithmetic *)

Section RealSymmetry.
Local Open Scope R_scope.

Lemma mirror_reset : mirror_electron reset = reset.
Proof.
  unfold mirror_electron, reset. cbn [x y z vx vy vz path map
    initial_acceleration_done of_Z real_num].
  rewrite Ropp_0. reflexivity.
Qed.

Lemma simul_accelerations_odd (V : R) :
  Simul.acceleration_y (- V) = - Simul.acceleration_y V
  /\ Simul.acceleration_x (- V) = - Simul.acceleration_x V.
Proof.
  unfold Simul.acceleration_y, Simul.acceleration_x,
    Simul.ELECTRON_CHARGE, PLATE_SEPARATION, ELECTRON_MASS.
  cbn [opp mul div lit_1_602e_19 lit_9_109e_31 lit_0_02 real_num].
  split; field; lra.
Qed.

Lemma mirror_guards (e : Electron R) :
  in_vertical_plates (mirror_electron e) = in_vertical_plates e
  /\ in_horizontal_plates (mirror_electron e) = in_horizontal_plates e
  /\ has_hit_screen (mirror_electron e) = has_hit_screen e
  /\ is_within_screen_bounds (mirror_electron e) = is_within_screen_bounds e.
Proof.
  assert (Hx : abs (x (mirror_electron e)) = abs (x e))
    by (cbn [mirror_electron x]; exact (Rabs_Ropp (x e))).
  assert (Hy : abs (y (mirror_electron e)) = abs (y e))
    by (cbn [mirror_electron y]; exact (Rabs_Ropp (y e))).
  unfold in_vertical_plates, in_horizontal_plates, is_within_screen_bounds.
  rewrite Hx, Hy. repeat split.
Qed.

Lemma electron_ext (e1 e2 : Electron R) :
  x e1 = x e2 -> y e1 = y e2 -> z e1 = z e2 ->
  vx e1 = vx e2 -> vy e1 = vy e2 -> vz e1 = vz e2 ->
  path e1 = path e2 ->
  initial_acceleration_done e1 = initial_acceleration_done e2 ->
  e1 = e2.
Proof.
  destruct e1, e2. cbn. intros. subst. reflexivity.
Qed.

(** [update] commutes with the reflection when both plate voltages change
    sign. *)
Lemma update_mirror (dt Va Vv Vh : R) (e : Electron R) :
  Simul.update dt Va (- Vv) (- Vh) (mirror_electron e)
  = mirror_electron (Simul.update dt Va Vv Vh e).
Proof.
  destruct (mirror_guards e) as [Hgv [Hgh _]].
  destruct (simul_accelerations_odd Vv) as [Hay _].
  destruct (simul_accelerations_odd Vh) as [_ Hax].
  assert (Hvx : vx (Simul.update dt Va (- Vv) (- Vh) (mirror_electron e))
                = - vx (Simul.update dt Va Vv Vh e)).
  { rewrite !update_vx, Hgh.
    change (Simul.acceleration_x (- Vh)%num) with (Simul.acceleration_x (- Vh)).
    rewrite Hax. cbn [mirror_electron vx add mul real_num].
    destruct (in_horizontal_plates e); ring. }
  assert (Hvy : vy (Simul.update dt Va (- Vv) (- Vh) (mirror_electron e))
                = - vy (Simul.update dt Va Vv Vh e)).
  { rewrite !update_vy, Hgv.
    change (Simul.acceleration_y (- Vv)%num) with (Simul.acceleration_y (- Vv)).
    rewrite Hay. cbn [mirror_electron vy add mul real_num].
    destruct (in_vertical_plates e); ring. }
  assert (Hvz : vz (Simul.update dt Va (- Vv) (- Vh) (mirror_electron e))
                = vz (Simul.update dt Va Vv Vh e)).
  { rewrite !update_vz. reflexivity. }
  assert (Hx : x (Simul.update dt Va (- Vv) (- Vh) (mirror_electron e))
               = - x (Simul.update dt Va Vv Vh e)).
  { rewrite !update_x, Hvx. cbn [mirror_electron x add mul real_num]. ring. }
  assert (Hy : y (Simul.update dt Va (- Vv) (- Vh) (mirror_electron e))
               = - y (Simul.update dt Va Vv Vh e)).
  { rewrite !update_y, Hvy. cbn [mirror_electron y add mul real_num]. ring. }
  assert (Hz : z (Simul.update dt Va (- Vv) (- Vh) (mirror_electron e))
               = z (Simul.update dt Va Vv Vh e)).
  { rewrite !update_z, Hvz. reflexivity. }
  apply electron_ext; cbn [mirror_electron x y z vx vy vz path
                           initial_acceleration_done]; try assumption.
  - rewrite !update_path, deque_append_map. unfold position.
    rewrite Hx, Hy, Hz. reflexivity.
  - rewrite !update_done. reflexivity.
Qed.

Lemma substep_mirror (dt Vv Vh : R) (s : CRTSimulation R) :
  Simul.substep dt (- Vv) (- Vh) (mirror_state s)
  = mirror_state (Simul.substep dt Vv Vh s).
Proof.
  unfold Simul.substep. cbv zeta.
  cbn [mirror_state electron sliders screen_traces time].
  rewrite update_mirror.
  set (e' := Simul.update dt (acceleration_voltage (sliders s)) Vv Vh (electron s)).
  destruct (mirror_guards e') as [_ [_ [Hhit Hin]]].
  rewrite Hhit, Hin. clear Hhit Hin.
  destruct (has_hit_screen e'); [| reflexivity].
  unfold mirror_state, set_electron, set_screen_traces.
  cbn [mode time electron screen_traces simulation_speed sliders].
  rewrite mirror_reset.
  destruct (is_within_screen_bounds e'); [| reflexivity].
  unfold screen_traces_append. rewrite deque_append_map. reflexivity.
Qed.

(** X28.  In real arithmetic the deflection of [Simul.py] is symmetric under the
    point reflection through the axis: from the reflected state and with
    both plate voltages of opposite sign, the sub-step loop goes through the
    reflected states; every position, path entry and trace entry has [x] and
    [y] negated, and the same hits are recorded at the same times with the
    same brightness. *)
Theorem deflection_point_symmetric
  (k : nat) (dt Vv Vh : R) (s : CRTSimulation R) :
  Nat.iter k (Simul.substep dt (- Vv) (- Vh)) (mirror_state s)
  = mirror_state (Nat.iter k (Simul.substep dt Vv Vh) s).
Proof.
  induction k as [| k IH]; [reflexivity |].
  rewrite !Nat.iter_succ, IH. apply substep_mirror.
Qed.

End RealSymmetry.

(** ** The plate voltages, in real arithmetic *)

Section RealVoltages.
Local Open Scope R_scope.

Lemma preset_in_range (fv fh ph0 ph1 : R) (c : Controls R) :
  tracks c = tracks initial_controls ->
  Forall slider_in_range (sliders_list c) ->
  0.1 <= fv <= 10 -> 0.1 <= fh <= 10 -> 0 <= ph0 <= 360 -> 0 <= ph1 <= 360 ->
  Forall slider_in_range
    [sl_acceleration_voltage c; sl_persistence c; sl_vertical_voltage c;
     sl_horizontal_voltage c; sl_vert_amplitude c;
     set_val fv (sl_vert_frequency c); set_val ph1 (sl_vert_phase c);
     sl_horiz_amplitude c; set_val fh (sl_horiz_frequency c);
     set_val ph0 (sl_horiz_phase c)].
Proof.
  intros Ht H2 Hfv Hfh Hph0 Hph1.
  destruct (layout_preset_sliders _ Ht) as [[A1 A2] [[B1 B2] [[C1 C2] [D1 D2]]]].
  unfold sliders_list in H2.
  inversion H2 as [| ? ? I0 T0]; subst. inversion T0 as [| ? ? I1 T1]; subst.
  inversion T1 as [| ? ? I2 T2]; subst. inversion T2 as [| ? ? I3 T3]; subst.
  inversion T3 as [| ? ? I4 T4]; subst. inversion T4 as [| ? ? I5 T5]; subst.
  inversion T5 as [| ? ? I6 T6]; subst. inversion T6 as [| ? ? I7 T7]; subst.
  assert (Hset : forall (v lo hi : R) (sl : Slider R),
            min_val sl = lo -> max_val sl = hi -> lo <= v <= hi ->
            slider_in_range (set_val v sl)).
  { intros v lo hi sl Hlo Hhi Hv. unfold slider_in_range.
    cbn [set_val min_val max_val val]. rewrite Hlo, Hhi. exact Hv. }
  apply Forall_cons; [exact I0 |]. apply Forall_cons; [exact I1 |].
  apply Forall_cons; [exact I2 |]. apply Forall_cons; [exact I3 |].
  apply Forall_cons; [exact I4 |].
  apply Forall_cons; [exact (Hset _ _ _ _ A1 A2 Hfv) |].
  apply Forall_cons; [exact (Hset _ _ _ _ B1 B2 Hph1) |].
  apply Forall_cons; [exact I7 |].
  apply Forall_cons; [exact (Hset _ _ _ _ C1 C2 Hfh) |].
  apply Forall_cons; [exact (Hset _ _ _ _ D1 D2 Hph0) | apply Forall_nil].
Qed.

Lemma handle_event_ranges (event : Event) (w w' : Window R) :
  ranges_kept w -> handle_event event w = Some w' -> ranges_kept w'.
Proof.
  apply (handle_event_steps ranges_kept event); clear w w'; unfold ranges_kept;
    try (intros w H; exact H).
  - intros c w [[H1 [H1b H1c]] H2] Hc. split.
    + unfold layout_kept. cbn [controls buttons preset_buttons set_controls].
      rewrite (controls_handle_event_tracks event _ _ Hc). auto.
    + cbn [controls set_controls].
      apply (sliders_step_in_range event (sliders_list (controls w))).
      * exact (controls_handle_event_sliders event _ _ Hc).
      * exact (layout_panel_tracks _ H1).
      * exact H2.
  - intros m w H. exact H.
  - intros b p w [[H1 [H1b H1c]] H2] Hin.
    assert (Hp : In (b, p) preset_table).
    { destruct H1c as [He | He]; rewrite He in Hin; [contradiction | exact Hin]. }
    destruct (preset_table_values b p Hp) as [Hfv [Hfh Hph]].
    split; [unfold layout_kept; auto |].
    apply (preset_in_range (preset_fv p) (preset_fh p) 0 (preset_phase p)
             (controls w) H1 H2 Hfv Hfh); [lra | exact Hph].
Qed.

Lemma prueba_handle_event_ranges (event : Event) (w w' : Window R) :
  prueba_ranges_kept w -> PruebaWindow.handle_event event w = Some w' ->
  prueba_ranges_kept w'.
Proof.
  apply (prueba_handle_event_steps prueba_ranges_kept event); clear w w';
    unfold prueba_ranges_kept; try (intros w H; exact H).
  - intros c w [[H1 [H1b H1c]] H2] Hc. split.
    + unfold PruebaWindow.layout_kept.
      cbn [controls buttons preset_buttons set_controls].
      rewrite (controls_handle_event_tracks event _ _ Hc). auto.
    + cbn [controls set_controls].
      apply (sliders_step_in_range event (sliders_list (controls w))).
      * exact (controls_handle_event_sliders event _ _ Hc).
      * exact (layout_panel_tracks _ H1).
      * exact H2.
  - intros m w H. exact H.
  - intros b p w0 w [[_ [_ H0c]] _] Hin [[H1 [H1b H1c]] H2].
    assert (Hp : In (b, p) PruebaWindow.preset_table).
    { destruct H0c as [He | He]; rewrite He in Hin; [contradiction | exact Hin]. }
    destruct (prueba_preset_table_values b p Hp) as [Hfv [Hfh Hph]].
    split; [unfold PruebaWindow.layout_kept; auto |].
    assert (Hvp : 0 <= val (sl_vert_phase (controls w)) <= 360).
    { destruct (layout_preset_sliders _ H1) as [_ [[B1 B2] _]].
      unfold sliders_list in H2. rewrite Forall_forall in H2.
      assert (Hr : slider_in_range (sl_vert_phase (controls w)))
        by (apply H2; cbn [In]; auto 12).
      unfold slider_in_range in Hr. rewrite B1, B2 in Hr. exact Hr. }
    pose proof (preset_in_range (preset_fv p) (preset_fh p) (preset_phase p)
                  (val (sl_vert_phase (controls w)))
                  (controls w) H1 H2 Hfv Hfh Hph Hvp) as Hall.
    assert (Hsame : set_val (val (sl_vert_phase (controls w)))
                      (sl_vert_phase (controls w))
                    = sl_vert_phase (controls w))
      by (destruct (sl_vert_phase (controls w)); reflexivity).
    rewrite Hsame in Hall. exact Hall.
Qed.

Lemma ranges_within_300 (c : Controls R) :
  tracks c = tracks initial_controls ->
  Forall slider_in_range (sliders_list c) ->
  (-300 <= val (sl_vertical_voltage c) <= 300)
  /\ (-300 <= val (sl_horizontal_voltage c) <= 300)
  /\ (50 <= val (sl_vert_amplitude c) <= 300)
  /\ (50 <= val (sl_horiz_amplitude c) <= 300).
Proof.
  intros Ht Hr. unfold tracks, sliders_list in Ht. cbn [map] in Ht.
  pose proof (f_equal (fun l => nth_error l 2) Ht) as H2.
  pose proof (f_equal (fun l => nth_error l 3) Ht) as H3.
  pose proof (f_equal (fun l => nth_error l 4) Ht) as H4.
  pose proof (f_equal (fun l => nth_error l 7) Ht) as H7.
  cbn [nth_error] in H2, H3, H4, H7.
  injection H2 as _ H2a H2b. injection H3 as _ H3a H3b.
  injection H4 as _ H4a H4b. injection H7 as _ H7a H7b.
  unfold sliders_list in Hr. rewrite Forall_forall in Hr.
  assert (R2 : slider_in_range (sl_vertical_voltage c)) by (apply Hr; cbn [In]; auto 12).
  assert (R3 : slider_in_range (sl_horizontal_voltage c)) by (apply Hr; cbn [In]; auto 12).
  assert (R4 : slider_in_range (sl_vert_amplitude c)) by (apply Hr; cbn [In]; auto 12).
  assert (R7 : slider_in_range (sl_horiz_amplitude c)) by (apply Hr; cbn [In]; auto 12).
  unfold slider_in_range in R2, R3, R4, R7.
  rewrite H2a, H2b in R2. rewrite H3a, H3b in R3.
  rewrite H4a, H4b in R4. rewrite H7a, H7b in R7.
  cbn [of_Z real_num] in R2, R3, R4, R7.
  repeat split; lra.
Qed.

Lemma sinusoid_within (A u : R) :
  0 <= A <= 300 -> -300 <= A * Rtrigo_def.sin u <= 300.
Proof.
  intros HA. destruct (SIN_bound u) as [Hlo Hhi]. split; nra.
Qed.

Lemma voltages_within_300 (c : Controls R) (s : CRTSimulation R) :
  tracks c = tracks initial_controls ->
  Forall slider_in_range (sliders_list c) ->
  within_300 (Simul.get_voltages (set_sliders (slider_values c) s))
  /\ within_300 (Prueba.get_voltages (set_sliders (slider_values c) s)).
Proof.
  intros Ht Hr.
  destruct (ranges_within_300 c Ht Hr) as [Hvv [Hhv [Hva Hha]]].
  unfold within_300, Simul.get_voltages, Prueba.get_voltages.
  cbn [mode set_sliders sliders]. destruct (mode s); cbv zeta; cbn [fst snd].
  - cbn [slider_values vertical_voltage horizontal_voltage]. auto.
  - cbn [slider_values vert_amplitude horiz_amplitude].
    repeat split; apply sinusoid_within || apply sinusoid_within; lra.
Qed.

(** X29.  In real arithmetic the plate voltages that [get_voltages] returns lie
    between -300 V and 300 V in every state the loop of [run] reaches from
    the initial window, in both modes and in both variants: in manual mode
    they are slider values, in Lissajous mode sinusoids whose amplitudes are
    slider values, and no event or preset takes a slider out of its range. *)
Theorem plate_voltages_within_300
  (turns : list (list Event * Z)) (prueba_turns : list (list Event))
  (w w' : Window R) :
  (window_run turns initial_window = Some w ->
   within_300 (Simul.get_voltages (engine_view w)))
  /\ (PruebaWindow.window_run prueba_turns initial_window = Some w' ->
      within_300 (Prueba.get_voltages (engine_view w'))).
Proof.
  split; intros H.
  - assert (Hk : ranges_kept w).
    { revert H. apply window_run_steps with (P := ranges_kept).
      - exact handle_event_ranges.
      - intros c w0 H0. exact H0.
      - intros w0 [[H1 [H2 _]] H3]. split; [| exact H3].
        unfold layout_kept. cbn [controls buttons preset_buttons set_preset_buttons].
        auto.
      - intros w0 H0. exact H0.
      - split; [exact initial_window_layout | apply initial_window_sound]. }
    destruct Hk as [[Ht _] Hr].
    exact (proj1 (voltages_within_300 (controls w) (engine w) Ht Hr)).
  - assert (Hk : prueba_ranges_kept w').
    { revert H. apply prueba_window_run_steps with (P := prueba_ranges_kept).
      - exact prueba_handle_event_ranges.
      - intros w0 H0. exact H0.
      - intros w0 [[H1 [H2 _]] H3]. split; [| exact H3].
        unfold PruebaWindow.layout_kept.
        cbn [controls buttons preset_buttons set_preset_buttons]. auto.
      - intros w0 H0. exact H0.
      - split; [apply prueba_initial_window_layout | apply initial_window_sound]. }
    destruct Hk as [[Ht _] Hr].
    exact (proj2 (voltages_within_300 (controls w') (engine w') Ht Hr)).
Qed.

(** The sample turns in both variants. *)
Lemma plate_voltages_within_300_witness :
  exists w w' : Window R,
    window_run sample_turns initial_window = Some w
    /\ PruebaWindow.window_run PruebaWindow.sample_turns initial_window = Some w'
    /\ within_300 (Simul.get_voltages (engine_view w))
    /\ within_300 (Prueba.get_voltages (engine_view w')).
Proof.
  destruct (window_run_sound sample_turns initial_window
              sample_turns_clock_forward initial_window_sound) as [w [H _]].
  destruct (prueba_window_run_sound PruebaWindow.sample_turns initial_window
              prueba_initial_window_sound) as [w' [H' _]].
  exists w, w'. split; [exact H |]. split; [exact H' |].
  destruct (plate_voltages_within_300 sample_turns PruebaWindow.sample_turns w w')
    as [Hs Hp].
  split; [exact (Hs H) | exact (Hp H')].
Defined.

End RealVoltages.

(** ** [simulacionChatGPT.py], on binary64 *)

Section FloatOrder.

Lemma SFcompare_antisym (a b : spec_float) :
  SFcompare b a = option_map CompOpp (SFcompare a b).
Proof.
  destruct a as [sa | sa | | sa ma ea], b as [sb | sb | | sb mb eb];
    cbn [SFcompare option_map]; try reflexivity;
    try (destruct sa; reflexivity); try (destruct sb; reflexivity);
    try (destruct sa, sb; reflexivity).
  rewrite (Z.compare_antisym ea eb).
  change (Pos.compare_cont Eq mb ma) with (Pos.compare mb ma).
  change (Pos.compare_cont Eq ma mb) with (Pos.compare ma mb).
  rewrite (Pos.compare_antisym ma mb).
  destruct sa, sb; cbn [CompOpp]; try reflexivity;
    destruct (ea ?= eb)%Z; cbn [CompOpp]; try reflexivity;
    destruct (ma ?= mb)%positive; reflexivity.
Qed.

Lemma SFcompare_None (a b : spec_float) :
  SFcompare a b = None -> a = S754_nan \/ b = S754_nan.
Proof.
  destruct a as [sa | sa | | sa ma ea], b as [sb | sb | | sb mb eb];
    cbn [SFcompare]; try discriminate; auto.
Qed.

Lemma SFcompare_nan_l (b : spec_float) : SFcompare S754_nan b = None.
Proof. reflexivity. Qed.

Lemma SFcompare_nan_r (a : spec_float) : SFcompare a S754_nan = None.
Proof. destruct a; reflexivity. Qed.

Lemma float_ltb_fcmp (a b : float) :
  (a <? b)%float = match fcmp a b with Some Lt => true | _ => false end.
Proof. rewrite FloatAxioms.ltb_spec. reflexivity. Qed.

Lemma float_leb_fcmp (a b : float) :
  (a <=? b)%float
  = match fcmp a b with Some Lt | Some Eq => true | _ => false end.
Proof. rewrite FloatAxioms.leb_spec. reflexivity. Qed.

Lemma fcmp_antisym (a b : float) : fcmp b a = option_map CompOpp (fcmp a b).
Proof. apply SFcompare_antisym. Qed.

Lemma fcmp_add_nan_l (a b c : float) :
  Prim2SF a = S754_nan -> fcmp (a + b) c = None /\ fcmp c (a + b) = None.
Proof.
  intros Ha. unfold fcmp. rewrite FloatAxioms.add_spec, Ha.
  unfold SF64add. cbn [SFadd].
  split; [apply SFcompare_nan_l | apply SFcompare_nan_r].
Qed.

Lemma fcmp_add_nan_r (a b c : float) :
  Prim2SF b = S754_nan -> fcmp (a + b) c = None /\ fcmp c (a + b) = None.
Proof.
  intros Hb. unfold fcmp. rewrite FloatAxioms.add_spec, Hb.
  unfold SF64add.
  assert (Hn : SFadd prec emax (Prim2SF a) S754_nan = S754_nan)
    by (destruct (Prim2SF a); reflexivity).
  rewrite Hn. split; [apply SFcompare_nan_l | apply SFcompare_nan_r].
Qed.

Lemma fcmp_nan (a b : float) :
  fcmp a b = None -> Prim2SF a = S754_nan \/ Prim2SF b = S754_nan.
Proof. apply SFcompare_None. Qed.

Lemma fcmp_of_nan_l (a b : float) : Prim2SF a = S754_nan -> fcmp a b = None.
Proof. intros Ha. unfold fcmp. rewrite Ha. reflexivity. Qed.

Lemma fcmp_of_nan_r (a b : float) : Prim2SF b = S754_nan -> fcmp a b = None.
Proof. intros Hb. unfold fcmp. rewrite Hb. apply SFcompare_nan_r. Qed.

Lemma fcmp_refl_not_Lt (a : float) : fcmp a a <> Some Lt.
Proof.
  pose proof (fcmp_antisym a a) as H. intros Hlt.
  rewrite Hlt in H. discriminate H.
Qed.

(** [np.clip] on binary64 never returns a value beyond the bounds: the
    result lies between them, or is NaN. *)
Lemma float_np_clip_within (a lo hi : float) :
  (lo <=? hi)%float = true ->
  (SimulacionChatGPT.np_clip a lo hi <? lo)%float = false
  /\ (hi <? SimulacionChatGPT.np_clip a lo hi)%float = false.
Proof.
  intros Hle. rewrite float_leb_fcmp in Hle.
  pose proof (fcmp_antisym lo hi) as Hhl.
  pose proof (fcmp_refl_not_Lt lo) as Hll.
  pose proof (fcmp_refl_not_Lt hi) as Hhh.
  assert (Hlo : (lo <? lo)%float = false).
  { rewrite float_ltb_fcmp. destruct (fcmp lo lo) as [[| |] |]; congruence. }
  assert (Hhi : (hi <? hi)%float = false).
  { rewrite float_ltb_fcmp. destruct (fcmp hi hi) as [[| |] |]; congruence. }
  assert (Hhilo : (hi <? lo)%float = false).
  { rewrite float_ltb_fcmp, Hhl.
    destruct (fcmp lo hi) as [[| |] |]; try discriminate; reflexivity. }
  unfold SimulacionChatGPT.np_clip, SimulacionChatGPT.np_maximum.
  cbn [ltb leb add float_num].
  rewrite (float_ltb_fcmp a lo), (float_leb_fcmp lo a), (fcmp_antisym a lo).
  destruct (fcmp a lo) as [[| |] |] eqn:Hal; cbn [option_map CompOpp].
  - (* a = lo: the maximum is a *)
    unfold SimulacionChatGPT.np_minimum. cbn [ltb leb add float_num].
    rewrite (float_ltb_fcmp a hi), (float_leb_fcmp hi a), (fcmp_antisym a hi).
    destruct (fcmp a hi) as [[| |] |] eqn:Hah; cbn [option_map CompOpp].
    + split; [exact Hhilo | exact Hhi].
    + split; rewrite float_ltb_fcmp.
      * rewrite Hal. reflexivity.
      * rewrite (fcmp_antisym a hi), Hah. reflexivity.
    + split; [exact Hhilo | exact Hhi].
    + exfalso. destruct (fcmp_nan a hi Hah) as [Hn | Hn].
      * rewrite (fcmp_of_nan_l a lo Hn) in Hal. discriminate Hal.
      * rewrite (fcmp_of_nan_r lo hi Hn) in Hle. discriminate Hle.
  - (* a < lo: the maximum is lo *)
    unfold SimulacionChatGPT.np_minimum. cbn [ltb leb add float_num].
    rewrite (float_ltb_fcmp lo hi), (float_leb_fcmp hi lo), Hhl.
    destruct (fcmp lo hi) as [[| |] |]; try discriminate; cbn [option_map CompOpp].
    + split; [exact Hhilo | exact Hhi].
    + split; [exact Hlo | exact Hhilo].
  - (* lo < a: the maximum is a *)
    unfold SimulacionChatGPT.np_minimum. cbn [ltb leb add float_num].
    rewrite (float_ltb_fcmp a hi), (float_leb_fcmp hi a), (fcmp_antisym a hi).
    destruct (fcmp a hi) as [[| |] |] eqn:Hah; cbn [option_map CompOpp].
    + split; [exact Hhilo | exact Hhi].
    + split; rewrite float_ltb_fcmp.
      * rewrite Hal. reflexivity.
      * rewrite (fcmp_antisym a hi), Hah. reflexivity.
    + split; [exact Hhilo | exact Hhi].
    + exfalso. destruct (fcmp_nan a hi Hah) as [Hn | Hn].
      * rewrite (fcmp_of_nan_l a lo Hn) in Hal. discriminate Hal.
      * rewrite (fcmp_of_nan_r lo hi Hn) in Hle. discriminate Hle.
  - (* a does not compare: a is NaN, and so is the result *)
    assert (Ha : Prim2SF a = S754_nan).
    { destruct (fcmp_nan a lo Hal) as [Hn | Hn]; [exact Hn |].
      rewrite (fcmp_of_nan_l lo hi Hn) in Hle. discriminate Hle. }
    destruct (fcmp_add_nan_l a lo hi Ha) as [Hm1 Hm2].
    unfold SimulacionChatGPT.np_minimum. cbn [ltb leb add float_num].
    rewrite (float_ltb_fcmp (a + lo) hi), (float_leb_fcmp hi (a + lo)), Hm1, Hm2.
    assert (Hsum : Prim2SF (a + lo) = S754_nan).
    { rewrite FloatAxioms.add_spec, Ha. reflexivity. }
    destruct (fcmp_add_nan_r hi (a + lo) lo Hsum) as [Hc1 _].
    destruct (fcmp_add_nan_r hi (a + lo) hi Hsum) as [_ Hc2].
    rewrite !float_ltb_fcmp, Hc1, Hc2. split; reflexivity.
Qed.

(** The gain at the floor of the acceleration voltage, on binary64. *)
Example float_gain_at_floor :
  SimulacionChatGPT.deflection_gain 0.05%float = 187.50000000000003%float
  /\ (187.5 <? SimulacionChatGPT.deflection_gain 0.05)%float = true.
Proof. vm_compute. split; reflexivity. Qed.

(** The spot of the default controls in Lissajous mode at [t = 0.1575]: with
    the sine values of the C library there, the uniform scaling rounds the
    larger coordinate one binary64 step beyond the margin. *)
Example float_spot_beyond_margin (libm_sin : float -> float) :
  libm_sin 1.9792033717615696%float = 0.9177546256839813%float ->
  libm_sin 4.539601384437251%float = (-0.9851093261547739)%float ->
  SimulacionChatGPT.compute_xy (trig := float_trig libm_sin)
    (SimulacionChatGPT.mkControls
       0.8%float 3%float 3%float 2%float 3%float 0%float
       0x1.921fb54442d18p+0%float)
    true 0.1575%float
  = (8.850458230894874%float, (-9.500000000000002)%float).
Proof.
  intros Hx Hy. vm_compute. rewrite Hx, Hy. vm_compute. reflexivity.
Qed.

(** In manual mode the clip keeps both coordinates of the spot within the
    margin on binary64 as well (or makes them NaN, when a control is). *)
Lemma float_manual_spot_within_margin
  (libm_sin : float -> float) (C : SimulacionChatGPT.Controls) (t : float) :
  let p := SimulacionChatGPT.compute_xy (trig := float_trig libm_sin) C false t in
  (fst p <? -9.5)%float = false /\ (9.5 <? fst p)%float = false
  /\ (snd p <? -9.5)%float = false /\ (9.5 <? snd p)%float = false.
Proof.
  cbv zeta. unfold SimulacionChatGPT.compute_xy. cbv zeta. cbn [fst snd].
  assert (Hm : (SimulacionChatGPT.SCREEN_SCALE * lit_0_95)%num = 9.5%float)
    by (vm_compute; reflexivity).
  rewrite Hm. cbn [opp float_num].
  change (PrimFloat.opp 9.5%float) with (-9.5)%float.
  assert (Hle : (-9.5 <=? 9.5)%float = true) by (vm_compute; reflexivity).
  split; [| split; [| split]]; apply float_np_clip_within; exact Hle.
Qed.

End FloatOrder.

(** ** [simulacionChatGPT.py], in real arithmetic *)

Section RealScope.
Local Open Scope R_scope.

Lemma deflection_gain_real (Va : R) :
  SimulacionChatGPT.deflection_gain Va
  = 10 * (0.05 * (0.20 + 0.05 / 2) / (2 * 0.006)) / Rmax Va 0.05.
Proof.
  unfold SimulacionChatGPT.deflection_gain, SimulacionChatGPT.plate_len,
    SimulacionChatGPT.plate_gap, SimulacionChatGPT.drift,
    SimulacionChatGPT.SCREEN_SCALE.
  cbv zeta. rewrite py_max_Rmax. reflexivity.
Qed.

Lemma deflection_gain_positive (Va : R) :
  0 < SimulacionChatGPT.deflection_gain Va <= 187.5.
Proof.
  rewrite deflection_gain_real.
  assert (Hm : 0.05 <= Rmax Va 0.05) by apply Rmax_r.
  assert (Hi : 0 < / Rmax Va 0.05) by (apply Rinv_0_lt_compat; lra).
  assert (Hi' : / Rmax Va 0.05 <= / 0.05)
    by (apply Rinv_le_contravar; lra).
  unfold Rdiv. split; [nra |].
  assert (Hk : 10 * (0.05 * (0.20 + 0.05 * / 2) * / (2 * 0.006)) = 9.375) by lra.
  rewrite Hk. assert (H20 : / 0.05 = 20) by lra. nra.
Qed.

Lemma scaled_within (raw other margin : R) :
  0 < margin ->
  Rabs (raw * Rmin 1 (margin / Rmax (Rmax (Rabs raw) (Rabs other)) 1e-9))
  <= margin.
Proof.
  intros Hm.
  set (M := Rmax (Rmax (Rabs raw) (Rabs other)) 1e-9).
  assert (HM0 : 1e-9 <= M) by apply Rmax_r.
  assert (HMr : Rabs raw <= M).
  { unfold M. eapply Rle_trans; [apply Rmax_l |]. apply Rmax_l. }
  assert (Hq : 0 < margin / M) by (apply Rdiv_lt_0_compat; lra).
  assert (Hs0 : 0 < Rmin 1 (margin / M)) by (apply Rmin_glb_lt; lra).
  rewrite Rabs_mult, (Rabs_pos_eq (Rmin 1 (margin / M))) by lra.
  pose proof (Rabs_pos raw) as Hr0.
  apply Rle_trans with (Rabs raw * (margin / M)).
  - apply Rmult_le_compat_l; [exact Hr0 | apply Rmin_r].
  - unfold Rdiv. rewrite <- Rmult_assoc.
    apply Rmult_le_reg_r with (r := M); [lra |].
    rewrite Rmult_assoc, Rinv_l by lra. nra.
Qed.

Lemma np_clip_real (a lo hi : R) :
  lo <= hi -> lo <= SimulacionChatGPT.np_clip a lo hi <= hi.
Proof.
  intros Hlh.
  unfold SimulacionChatGPT.np_clip, SimulacionChatGPT.np_minimum,
    SimulacionChatGPT.np_maximum.
  cbn [ltb leb add real_num].
  destruct (Rltb a lo) eqn:H1.
  - destruct (Rltb lo hi) eqn:H2.
    + apply Rltb_true in H2. lra.
    + destruct (Rleb hi lo) eqn:H3; [apply Rleb_true in H3; lra |].
      apply Rltb_false in H2. apply Rleb_false in H3. lra.
  - apply Rltb_false in H1.
    destruct (Rleb lo a) eqn:H0; [| apply Rleb_false in H0; lra].
    destruct (Rltb a hi) eqn:H2.
    + apply Rltb_true in H2. lra.
    + destruct (Rleb hi a) eqn:H3; [apply Rleb_true in H3; lra |].
      apply Rltb_false in H2. apply Rleb_false in H3. lra.
Qed.

Lemma np_clip_inside (a lo hi : R) :
  lo <= a <= hi -> SimulacionChatGPT.np_clip a lo hi = a.
Proof.
  intros [Hl Hh].
  unfold SimulacionChatGPT.np_clip, SimulacionChatGPT.np_minimum,
    SimulacionChatGPT.np_maximum.
  cbn [ltb leb add real_num].
  assert (H1 : Rltb a lo = false) by (apply Rltb_false; lra).
  assert (H2 : Rleb lo a = true) by (apply Rleb_true; lra).
  rewrite H1, H2.
  destruct (Rltb a hi) eqn:H3; [reflexivity |].
  apply Rltb_false in H3.
  assert (H4 : Rleb hi a = true) by (apply Rleb_true; lra).
  rewrite H4. lra.
Qed.

(** In real arithmetic the spot never leaves the screen. *)
Lemma real_spot_within_margin
  (C : SimulacionChatGPT.Controls) (mode_lissajous : bool) (t : R) :
  let K := SimulacionChatGPT.deflection_gain (SimulacionChatGPT.Va C) in
  let p := SimulacionChatGPT.compute_xy C mode_lissajous t in
  0 < K <= 187.5
  /\ Rabs (fst p) <= 9.5 /\ Rabs (snd p) <= 9.5
  /\ (mode_lissajous = false ->
      Rabs (SimulacionChatGPT.Vx C) <= SimulacionChatGPT.Vlim C ->
      Rabs (SimulacionChatGPT.Vy C) <= SimulacionChatGPT.Vlim C ->
      p = (K * SimulacionChatGPT.Vx C, K * SimulacionChatGPT.Vy C)).
Proof.
  cbv zeta.
  pose proof (deflection_gain_positive (SimulacionChatGPT.Va C)) as HK.
  set (K := SimulacionChatGPT.deflection_gain (SimulacionChatGPT.Va C)) in *.
  split; [exact HK |].
  assert (Hmargin : (SimulacionChatGPT.SCREEN_SCALE * lit_0_95)%num = 9.5).
  { unfold SimulacionChatGPT.SCREEN_SCALE.
    cbn [mul of_Z real_num lit_0_95 real_scope_literals]. lra. }
  unfold SimulacionChatGPT.compute_xy. cbv zeta. fold K. rewrite Hmargin.
  destruct mode_lissajous.
  - cbn [fst snd]. rewrite !py_max_Rmax, py_min_Rmin.
    cbn [abs mul div of_Z real_num lit_1e_9 real_scope_literals].
    split; [| split; [| discriminate]].
    + apply scaled_within. lra.
    + rewrite (Rmax_comm (Rabs _) (Rabs _)). apply scaled_within. lra.
  - cbn [fst snd opp real_num].
    split; [| split].
    + apply Rabs_le. apply np_clip_real. lra.
    + apply Rabs_le. apply np_clip_real. lra.
    + intros _ Hx Hy.
      assert (HV : SimulacionChatGPT.Vlim C = 9.5 / Rmax K 1e-9).
      { unfold SimulacionChatGPT.Vlim. cbv zeta. fold K. rewrite Hmargin.
        rewrite py_max_Rmax. reflexivity. }
      rewrite HV in Hx, Hy.
      assert (Hbound : forall V, Rabs V <= 9.5 / Rmax K 1e-9 ->
                                 Ropp 9.5 <= K * V <= 9.5).
      { intros V HVb. apply Rabs_le_both in HVb.
        assert (HM : K <= Rmax K 1e-9) by apply Rmax_l.
        assert (HKi : Rmax K 1e-9 * (9.5 / Rmax K 1e-9) = 9.5) by (field; lra).
        assert (Hq : 0 <= 9.5 / Rmax K 1e-9)
          by (apply Rlt_le, Rdiv_lt_0_compat; lra).
        split; nra. }
      cbn [mul real_num].
      rewrite !np_clip_inside by (apply Hbound; assumption). reflexivity.
Qed.

(** X30.  In real arithmetic the spot of [simulacionChatGPT.py] never leaves
    the screen: whatever the controls, the mode and the time, [compute_xy]
    returns a point with [|x| <= 9.5] and [|y| <= 9.5], the margin
    [SCREEN_SCALE * 0.95]; the gain it uses is positive and at most 187.5,
    so that neither division meets a zero divisor; and in manual mode, with
    both plate voltages within the range [-Vlim .. Vlim] that
    [_actualizar_rangos_voltajes] gives their sliders, the clip does not act
    and the point is [(K * Vx, K * Vy)].  On binary64, which the program
    computes in, the bounds hold up to rounding only: in manual mode the
    clip keeps both coordinates within the margin (or makes them NaN), but
    the gain at the floor 0.05 of the acceleration voltage is
    187.50000000000003, and in Lissajous mode the uniform scaling can round
    a coordinate one step beyond the margin, as it does for the default
    controls at [t = 0.1575] with the sine values of the C library. *)
Theorem spot_stays_on_screen :
  (forall (C : SimulacionChatGPT.Controls) (mode_lissajous : bool) (t : R),
     let K := SimulacionChatGPT.deflection_gain (SimulacionChatGPT.Va C) in
     let p := SimulacionChatGPT.compute_xy C mode_lissajous t in
     0 < K <= 187.5
     /\ Rabs (fst p) <= 9.5 /\ Rabs (snd p) <= 9.5
     /\ (mode_lissajous = false ->
         Rabs (SimulacionChatGPT.Vx C) <= SimulacionChatGPT.Vlim C ->
         Rabs (SimulacionChatGPT.Vy C) <= SimulacionChatGPT.Vlim C ->
         p = (K * SimulacionChatGPT.Vx C, K * SimulacionChatGPT.Vy C)))
  /\ (forall (libm_sin : float -> float)
             (C : SimulacionChatGPT.Controls) (t : float),
        let p := SimulacionChatGPT.compute_xy
                   (trig := float_trig libm_sin) C false t in
        (fst p <? -9.5)%float = false /\ (9.5 <? fst p)%float = false
        /\ (snd p <? -9.5)%float = false /\ (9.5 <? snd p)%float = false)
  /\ SimulacionChatGPT.deflection_gain 0.05%float = 187.50000000000003%float
  /\ (forall libm_sin : float -> float,
        libm_sin 1.9792033717615696%float = 0.9177546256839813%float ->
        libm_sin 4.539601384437251%float = (-0.9851093261547739)%float ->
        SimulacionChatGPT.compute_xy (trig := float_trig libm_sin)
          (SimulacionChatGPT.mkControls
             0.8%float 3%float 3%float 2%float 3%float 0%float
             0x1.921fb54442d18p+0%float)
          true 0.1575%float
        = (8.850458230894874%float, (-9.500000000000002)%float)).
Proof.
  split; [exact real_spot_within_margin |].
  split; [exact float_manual_spot_within_margin |].
  split; [exact (proj1 float_gain_at_floor) |].
  exact float_spot_beyond_margin.
Qed.

(** A setting in manual mode within the slider ranges. *)
Lemma spot_stays_on_screen_witness :
  let C := SimulacionChatGPT.mkControls 0.8 0.1 (- 0.1) 2 3 0 0 in
  let K := SimulacionChatGPT.deflection_gain (SimulacionChatGPT.Va C) in
  let p := SimulacionChatGPT.compute_xy C false 0 in
  0 < K <= 187.5
  /\ Rabs (fst p) <= 9.5 /\ Rabs (snd p) <= 9.5
  /\ p = (K * SimulacionChatGPT.Vx C, K * SimulacionChatGPT.Vy C).
Proof.
  cbv zeta.
  destruct (proj1 spot_stays_on_screen
              (SimulacionChatGPT.mkControls 0.8 0.1 (- 0.1) 2 3 0 0) false 0)
    as [HK [Hx [Hy Hclip]]].
  split; [exact HK |]. split; [exact Hx |]. split; [exact Hy |].
  assert (HV : 0.1 <= SimulacionChatGPT.Vlim
                        (SimulacionChatGPT.mkControls 0.8 0.1 (- 0.1) 2 3 0 0)).
  { unfold SimulacionChatGPT.Vlim. cbv zeta. rewrite py_max_Rmax.
    unfold SimulacionChatGPT.SCREEN_SCALE.
    cbn [SimulacionChatGPT.Va].
    rewrite deflection_gain_real, (Rmax_left 0.8 0.05) by lra.
    cbn [mul div of_Z lit_0_95 lit_1e_9 real_num real_scope_literals].
    rewrite Rmax_left by lra. lra. }
  apply Hclip; [reflexivity | |];
    cbn [SimulacionChatGPT.Vx SimulacionChatGPT.Vy].
  - apply Rle_trans with 0.1; [apply Rabs_le; lra | exact HV].
  - apply Rle_trans with 0.1; [apply Rabs_le; lra | exact HV].
Defined.

End RealScope.

(** ** Persistence of the traces, in real arithmetic *)

Section RealPersistence.
Local Open Scope R_scope.










End RealPersistence.

(** The screen view on binary64: an entry 950 ms old under a persistence of
    500 ms is drawn with the factor 0.1; at 1000 ms it is skipped. *)
Example float_faded_trace :
  draw_screen_trace 500%float 950%float
    {| trace_x := 0%float; trace_y := 0%float; trace_time := 0%float;
       trace_brightness := 0.5%float |}
  = Circle (0%Z, 12%Z, 9%Z) (565%Z, 585%Z) 2%Z
  /\ draw_screen_trace 500%float 1000%float
       {| trace_x := 0%float; trace_y := 0%float; trace_time := 0%float;
          trace_brightness := 0.5%float |}
     = Skipped.
Proof. vm_compute. split; reflexivity. Qed.

(** ** Rounding on binary64: the sum of two numbers that are not negative *)

Section SpecFloatAdd.
Variables prec emax : Z.
Hypothesis Hprec : (0 < prec)%Z.
Local Open Scope Z_scope.













(** *** Signs of rounded results *)









(** *** The sum of a positive number and a number that is not negative *)



End SpecFloatAdd.

(** ** The axial motion on binary64 *)

Section FloatAxis.
Local Open Scope float_scope.












Example float_overflowing_impulse :
  vz (Simul.update 0 1e300 0 0 reset) = infinity
  /\ (z (Simul.update 0 1e300 0 0 reset) =? z (Simul.update 0 1e300 0 0 reset))
     = false
  /\ z (Simul.update 2e-9 1e300 0 0 reset) = infinity.
Proof. vm_compute. repeat split. Qed.



End FloatAxis.
